(** * AircraftDataBridge: proxy pool, retry loop and trigger handling

    A shallow embedding of [AircraftDataBridge] from
    [Assets/ExternalTools/Python/Scripts/MqttTrafficDataManagerPython.py].

    The object's fields become a record that is threaded through every
    method; a Python exception becomes the [Raise] result of a small
    state-and-exception monad, so that [try]/[except] is a combinator and
    "this method does not raise" is a statement one can prove.  Everything
    the program obtains from outside (HTTP answers, the shuffle, the clock,
    the outcome of the MQTT publish) is read from a [World], indexed by a
    counter of the interactions made so far: the theorems quantify over all
    worlds. *)

From Stdlib Require Import ZArith QArith Qround List Bool Ascii String Lia.
From Stdlib Require Import SpecFloat.
From stdpp Require Import base gmap strings list.
Import ListNotations.

Set Warnings "-register-all".
Local Open Scope string_scope.
Local Open Scope list_scope.
Local Open Scope Z_scope.

(** ** Values exchanged as JSON *)

(** What [json.loads] and [response.json()] produce.  A number is kept
    by its exact value, an integer for an [int] and a dyadic rational for
    a [float]; arithmetic on floats rounds (see [float64] below).  The
    infinities and NaN that [json.loads] makes of the literals
    [Infinity] and [NaN] or of an exponent out of range are not values of
    this type; as floats they are covered where a float is computed with
    ([float] of a string yields them).  A JSON object is the list of its
    key/value pairs. *)
Inductive json : Type :=
| JNull
| JBool (b : bool)
| JNum (q : Q)
| JStr (s : string)
| JList (items : list json)
| JObj (fields : list (string * json)).

(** Python exceptions, as far as the handlers distinguish them: the inner
    handler of [on_message] catches [json.JSONDecodeError] only, every
    other handler catches [Exception]. *)
Inductive exn : Type :=
| JSONDecodeError
| TypeError
| AttributeError
| ValueError
| OverflowError
| RequestException
| PublishError.

Inductive result (A : Type) : Type :=
| Ret (a : A)
| Raise (e : exn).
Arguments Ret {A} a.
Arguments Raise {A} e.

(** Python truthiness of a decoded value. *)
Definition truthy (v : json) : bool :=
  match v with
  | JNull => false
  | JBool b => b
  | JNum q => negb (Qeq_bool q 0)
  | JStr s => negb (String.eqb s EmptyString)
  | JList items => match items with [] => false | _ => true end
  | JObj fields => match fields with [] => false | _ => true end
  end.

(** [d.get(key)] on a dict: the first binding, [None] when absent. *)
Fixpoint assoc (key : string) (fields : list (string * json)) : option json :=
  match fields with
  | [] => None
  | (k, v) :: rest => if String.eqb k key then Some v else assoc key rest
  end.

(** [needle in haystack] for two Python strings. *)
Fixpoint is_substring (needle haystack : string) : bool :=
  String.prefix needle haystack
  || match haystack with
     | EmptyString => false
     | String _ rest => is_substring needle rest
     end.

Definition is_str (key : string) (v : json) : bool :=
  match v with JStr s => String.eqb s key | _ => false end.

(** [key in v]: key membership for a dict, element membership for a list,
    substring test for a string, [TypeError] for anything else. *)
Definition py_in (key : string) (v : json) : result bool :=
  match v with
  | JObj fields =>
      Ret (match assoc key fields with Some _ => true | None => false end)
  | JList items => Ret (existsb (is_str key) items)
  | JStr s => Ret (is_substring key s)
  | _ => Raise TypeError
  end.

(** [v.get(key, default)]: only a dict has [get]. *)
Definition py_get (key : string) (default : json) (v : json) : result json :=
  match v with
  | JObj fields =>
      Ret (match assoc key fields with Some x => x | None => default end)
  | _ => Raise AttributeError
  end.

(** [a or b]. *)
Definition py_or (a b : json) : json := if truthy a then a else b.

(** ** The bridge object *)

(** What one HTTP request does: raise, or answer with a status code and a
    body ([None] when [response.json()] would raise). *)
Inductive http : Type :=
| HttpRaise
| HttpResponse (status_code : Z) (body : option json).

(** Ghost record of what the bridge did, newest first. *)
Inductive event : Type :=
| EvProbe (proxy : string) (passed : bool)
| EvAttempt (retry_count : nat)
| EvTier1 (lat lon : json) (dist : Z)
| EvTier2 (via : option string)
| EvPublish (payload : json)
| EvSleep.

Record World : Type := {
  shuffle : nat -> list string -> list string;
  probe : nat -> string -> http;
  tier1 : nat -> json -> json -> Z -> http;
  tier2 : nat -> option string -> http;
  publish_raises : nat -> bool;
  now : nat -> Z
}.

(** The fields of [AircraftDataBridge] that the modelled methods read or
    write.  [proxies] is the dict [{"http": p, "https": p}] ([Some p]) or
    [{}] ([None]); [last_request_params] is [None] while the attribute has
    not been set.  [tick] and [trace] are ghost: the position in the world
    and the events so far. *)
Record Bridge : Type := {
  is_connected : bool;
  use_proxy : bool;
  proxies : option string;
  proxy_list : list string;
  current_proxy : option string;
  proxy_failures : gmap string nat;
  last_request_params : option json;
  tick : nat;
  trace : list event
}.

Definition set_is_connected (v : bool) (b : Bridge) : Bridge :=
  {| is_connected := v; use_proxy := use_proxy b; proxies := proxies b;
     proxy_list := proxy_list b; current_proxy := current_proxy b;
     proxy_failures := proxy_failures b;
     last_request_params := last_request_params b;
     tick := tick b; trace := trace b |}.

Definition set_use_proxy (v : bool) (b : Bridge) : Bridge :=
  {| is_connected := is_connected b; use_proxy := v; proxies := proxies b;
     proxy_list := proxy_list b; current_proxy := current_proxy b;
     proxy_failures := proxy_failures b;
     last_request_params := last_request_params b;
     tick := tick b; trace := trace b |}.

Definition set_proxies (v : option string) (b : Bridge) : Bridge :=
  {| is_connected := is_connected b; use_proxy := use_proxy b; proxies := v;
     proxy_list := proxy_list b; current_proxy := current_proxy b;
     proxy_failures := proxy_failures b;
     last_request_params := last_request_params b;
     tick := tick b; trace := trace b |}.

Definition set_proxy_list (v : list string) (b : Bridge) : Bridge :=
  {| is_connected := is_connected b; use_proxy := use_proxy b;
     proxies := proxies b; proxy_list := v;
     current_proxy := current_proxy b;
     proxy_failures := proxy_failures b;
     last_request_params := last_request_params b;
     tick := tick b; trace := trace b |}.

Definition set_current_proxy (v : option string) (b : Bridge) : Bridge :=
  {| is_connected := is_connected b; use_proxy := use_proxy b;
     proxies := proxies b; proxy_list := proxy_list b; current_proxy := v;
     proxy_failures := proxy_failures b;
     last_request_params := last_request_params b;
     tick := tick b; trace := trace b |}.

Definition set_proxy_failures (v : gmap string nat) (b : Bridge) : Bridge :=
  {| is_connected := is_connected b; use_proxy := use_proxy b;
     proxies := proxies b; proxy_list := proxy_list b;
     current_proxy := current_proxy b; proxy_failures := v;
     last_request_params := last_request_params b;
     tick := tick b; trace := trace b |}.

Definition set_last_request_params (v : option json) (b : Bridge) : Bridge :=
  {| is_connected := is_connected b; use_proxy := use_proxy b;
     proxies := proxies b; proxy_list := proxy_list b;
     current_proxy := current_proxy b;
     proxy_failures := proxy_failures b; last_request_params := v;
     tick := tick b; trace := trace b |}.

(** One interaction with the world: advance the counter. *)
Definition advance (b : Bridge) : Bridge :=
  {| is_connected := is_connected b; use_proxy := use_proxy b;
     proxies := proxies b; proxy_list := proxy_list b;
     current_proxy := current_proxy b;
     proxy_failures := proxy_failures b;
     last_request_params := last_request_params b;
     tick := S (tick b); trace := trace b |}.

Definition emit (e : event) (b : Bridge) : Bridge :=
  {| is_connected := is_connected b; use_proxy := use_proxy b;
     proxies := proxies b; proxy_list := proxy_list b;
     current_proxy := current_proxy b;
     proxy_failures := proxy_failures b;
     last_request_params := last_request_params b;
     tick := tick b; trace := e :: trace b |}.

(** ** State and exceptions *)

Definition M (A : Type) : Type := Bridge -> result A * Bridge.

Definition ret {A} (a : A) : M A := fun b => (Ret a, b).
Definition raise {A} (e : exn) : M A := fun b => (Raise e, b).
Definition bind {A B} (c : M A) (k : A -> M B) : M B :=
  fun b => match c b with
           | (Ret a, b') => k a b'
           | (Raise e, b') => (Raise e, b')
           end.
Definition get : M Bridge := fun b => (Ret b, b).
Definition modify (f : Bridge -> Bridge) : M unit := fun b => (Ret tt, f b).
Definition lift {A} (r : result A) : M A := fun b => (r, b).

(** [try: c except Exception: h]. *)
Definition try_except {A} (c : M A) (h : exn -> M A) : M A :=
  fun b => match c b with
           | (Ret a, b') => (Ret a, b')
           | (Raise e, b') => h e b'
           end.

Notation "x <- c1 ;; c2" := (bind c1 (fun x => c2))
  (at level 100, c1 at next level, right associativity).
Notation "c1 ;;; c2" := (bind c1 (fun _ => c2))
  (at level 100, right associativity).

(** ** ProxyPool: [test_proxy], [find_working_proxy], [switch_proxy] *)

(** [self.proxy_failures[proxy] = 1] when absent, [+= 1] otherwise. *)
Definition record_failure (proxy : string) (failures : gmap string nat)
  : gmap string nat :=
  match failures !! proxy with
  | None => <[proxy := 1%nat]> failures
  | Some n => <[proxy := (n + 1)%nat]> failures
  end.

(** [proxy in self.proxy_failures and self.proxy_failures[proxy] >= 3]. *)
Definition blacklisted (proxy : string) (failures : gmap string nat) : bool :=
  match failures !! proxy with
  | Some n => (3 <=? n)%nat
  | None => false
  end.

(** The recorded failure count of a candidate (0 while it has no entry). *)
Definition failure_count (proxy : string) (b : Bridge) : nat :=
  default 0%nat (proxy_failures b !! proxy).

(** A non-empty string is truthy; [None] and the empty string are not. *)
Definition truthy_proxy (p : option string) : bool :=
  match p with
  | Some s => negb (String.eqb s EmptyString)
  | None => false
  end.

(** ** Loading the candidate list *)

(** [row and len(row) > 0 and row[0].startswith('socks4://')]. *)
Definition accepted (row : list string) : bool :=
  match row with
  | [] => false
  | first :: _ => String.prefix "socks4://" first
  end.

(** The [for row in csv_reader] loop: [self.proxy_list.append(row[0])]
    for every accepted row. *)
Fixpoint load_rows (rows : list (list string)) (proxy_list : list string)
  : list string :=
  match rows with
  | [] => proxy_list
  | row :: rest =>
      load_rows rest
        (if accepted row then proxy_list ++ [List.hd EmptyString row]
         else proxy_list)
  end.

(** [load_proxies_from_csv]: the rows that [csv.reader] yields, or [None]
    when the file does not exist (an error is logged, nothing changes). *)
Definition load_proxies_from_csv (file : option (list (list string)))
    (b : Bridge) : Bridge :=
  match file with
  | Some rows => set_proxy_list (load_rows rows (proxy_list b)) b
  | None => b
  end.

(** ** Trigger payloads *)

Definition request_topic : string := "aircraft/request".

(** [str.isspace] and [str.lower] on the code points below 256. *)
Definition is_space (c : ascii) : bool :=
  let n := N_of_ascii c in
  ((9 <=? n) && (n <=? 13) || (28 <=? n) && (n <=? 32)
   || (n =? 133) || (n =? 160))%N.

Definition lower_char (c : ascii) : ascii :=
  let n := N_of_ascii c in
  if ((65 <=? n) && (n <=? 90)
      || (192 <=? n) && (n <=? 222) && negb (n =? 215))%N
  then ascii_of_N (n + 32) else c.

Fixpoint py_lower (s : string) : string :=
  match s with
  | EmptyString => EmptyString
  | String c rest => String (lower_char c) (py_lower rest)
  end.

Fixpoint lstrip (s : string) : string :=
  match s with
  | EmptyString => EmptyString
  | String c rest => if is_space c then lstrip rest else s
  end.

(** Drop the trailing whitespace: a character stays when it is not a
    space or something that stays follows it. *)
Fixpoint rstrip (s : string) : string :=
  match s with
  | EmptyString => EmptyString
  | String c rest =>
      match rstrip rest with
      | EmptyString => if is_space c then EmptyString else String c EmptyString
      | kept => String c kept
      end
  end.

Definition py_strip (s : string) : string := rstrip (lstrip s).

(** ** DataFetcher: parameters of the geo-scoped request, normalisation *)

Definition rbind {A B} (r : result A) (k : A -> result B) : result B :=
  match r with
  | Ret a => k a
  | Raise e => Raise e
  end.

Fixpoint rmap {A B} (f : A -> result B) (l : list A) : result (list B) :=
  match l with
  | [] => Ret []
  | x :: rest =>
      rbind (f x) (fun y => rbind (rmap f rest) (fun ys => Ret (y :: ys)))
  end.

(** A Python [float] is an IEEE 754 binary64 value: 53 bits of
    precision, exponents below 1024, every operation rounded to nearest
    with ties to even. *)
Definition float64 : Type := spec_float.

Definition f64_mul (x y : float64) : float64 := SFmul 53 1024 x y.

(** The float nearest to a rational, a tie going to the even mantissa:
    [float(n)] on an [int], the float itself on the value of a float.
    Infinite when the rounded value is out of range. *)
Definition f64_of_Q (q : Q) : float64 :=
  match Qnum q with
  | Z0 => S754_zero false
  | Zpos n =>
      SFdiv 53 1024 (S754_finite false n 0) (S754_finite false (Qden q) 0)
  | Zneg n =>
      SFdiv 53 1024 (S754_finite true n 0) (S754_finite false (Qden q) 0)
  end.

(** What a float stands for. *)
Inductive reading : Type :=
| NotANumber
| MinusInf
| Real (q : Q)
| PlusInf.

Definition f64_value (x : float64) : reading :=
  match x with
  | S754_zero _ => Real 0
  | S754_infinity s => if s then MinusInf else PlusInf
  | S754_nan => NotANumber
  | S754_finite s m e =>
      let n := if s then Zneg m else Zpos m in
      Real (match e with
            | Zneg k => n # Pos.pow 2 k
            | _ => inject_Z (n * 2 ^ e)
            end)
  end.

(** A Python number: an [int] or a [float]. *)
Inductive number : Type :=
| Int (n : Z)
| Float (x : float64).

Definition num_value (a : number) : reading :=
  match a with
  | Int n => Real (inject_Z n)
  | Float x => f64_value x
  end.

(** [a < b]: an [int] and a [float] are compared by value, and every
    comparison with a NaN is false. *)
Definition num_ltb (a b : number) : bool :=
  match num_value a, num_value b with
  | Real x, Real y => negb (Qle_bool y x)
  | MinusInf, Real _ | MinusInf, PlusInf | Real _, PlusInf => true
  | _, _ => false
  end.

(** [min(a, b)] and [max(a, b)] of Python: the first argument unless the
    second is strictly smaller (larger). *)
Definition py_min (a b : number) : number := if num_ltb b a then b else a.
Definition py_max (a b : number) : number := if num_ltb a b then b else a.

(** [int(x)]: truncation towards zero; [ValueError] on a NaN and
    [OverflowError] on an infinity. *)
Definition py_int (a : number) : result Z :=
  match a with
  | Int n => Ret n
  | Float x =>
      match f64_value x with
      | Real q => Ret (Z.quot (Qnum q) (Zpos (Qden q)))
      | NotANumber => Raise ValueError
      | _ => Raise OverflowError
      end
  end.

(** [int(max(10000, min(400000, radius_km * 1000)))]: the product is a
    float product, of [radius_km] and [float(1000)]. *)
Definition radius_m (radius_km : float64) : result Z :=
  py_int (py_max (Int 10000)
            (py_min (Int 400000)
               (Float (f64_mul radius_km (f64_of_Q 1000))))).

(** [request_params and 'center_lat' in request_params and
    'center_lon' in request_params], with Python's short circuit. *)
Definition has_center (request_params : option json) : result bool :=
  match request_params with
  | None => Ret false
  | Some v =>
      if truthy v then
        rbind (py_in "center_lat" v) (fun has_lat =>
        if has_lat then py_in "center_lon" v else Ret false)
      else Ret false
  end.

Definition field (key : string) (fields : list (string * json)) : json :=
  default JNull (assoc key fields).

(** The body of [for ac in data['ac']]: one positional state of 17
    entries. *)
Definition normalize_aircraft (ac : json) : result json :=
  match ac with
  | JObj f =>
      let icao24 :=
        py_or (py_or (field "icao" f) (field "hex" f)) (JStr EmptyString) in
      let callsign := py_or (field "call" f) (JStr EmptyString) in
      let origin_country := JStr EmptyString in
      let lon := py_or (field "lon" f) (JNum 0) in
      let lat := py_or (field "lat" f) (JNum 0) in
      let alt_baro :=
        match py_or (field "alt_baro" f) (field "alt_baro_ft" f) with
        | JNull => JNum 0
        | x => x
        end in
      let vel := py_or (field "gs" f) (JNum 0) in
      let track := py_or (field "track" f) (JNum 0) in
      let vr := py_or (field "roc" f) (JNum 0) in
      let on_ground := JBool (truthy (field "gnd" f)) in
      Ret (JList ([icao24; callsign; origin_country; JNull; JNull;
                   lon; lat; alt_baro; on_ground; vel; track; vr]
                  ++ repeat JNull 5))
  | _ => Raise AttributeError
  end.

(** [data['ac']]: defined on a dict only. *)
Definition py_index (key : string) (v : json) : result json :=
  match v with
  | JObj fields =>
      match assoc key fields with
      | Some x => Ret x
      | None => Raise TypeError
      end
  | _ => Raise TypeError
  end.

(** [len(v)] is defined on lists, strings and dicts. *)
Definition py_len (v : json) : result nat :=
  match v with
  | JList items => Ret (List.length items)
  | JStr s => Ret (String.length s)
  | JObj fields => Ret (List.length fields)
  | _ => Raise TypeError
  end.

(** From [data = response.json()] to the payload handed to [publish]:
    the Airplanes.live shape is rewritten, anything else passes through;
    then the log line evaluates [len(data.get('states', []))]. *)
Definition normalize (time : Z) (data : json) : result json :=
  rbind (py_in "ac" data) (fun has_ac =>
  rbind (if has_ac then
           rbind (py_index "ac" data) (fun ac =>
           match ac with
           | JList items =>
               rbind (rmap normalize_aircraft items) (fun states =>
               Ret (JObj [("time", JNum (inject_Z time));
                          ("states", JList states)]))
           | _ => Ret data
           end)
         else Ret data) (fun data' =>
  rbind (py_get "states" (JList []) data') (fun states =>
  rbind (py_len states) (fun _ => Ret data')))).

Definition max_retries : nat := 3.

Section Methods.

Variable w : World.

(** Python's [json.loads] on a [str] ([None]: [json.JSONDecodeError]) and
    [float] on a [str] ([None]: [ValueError]). *)
Variable json_loads : string -> option json.
Variable float_of_str : string -> option float64.

(** [float(v)]: a number is rounded to the nearest float, and
    [OverflowError] is raised when it is out of the range of floats; a
    string is parsed (and may well give an infinity or a NaN). *)
Definition py_float (v : json) : result float64 :=
  match v with
  | JNum q =>
      match f64_of_Q q with
      | S754_infinity _ => Raise OverflowError
      | x => Ret x
      end
  | JBool b => Ret (f64_of_Q (if b then 1 else 0))
  | JStr s =>
      match float_of_str s with
      | Some x => Ret x
      | None => Raise ValueError
      end
  | _ => Raise TypeError
  end.

(** [float(request_params.get('radius_km', 250))]. *)
Definition radius_km_of (request_params : json) : result float64 :=
  rbind (py_get "radius_km" (JNum 250) request_params) py_float.

(** [requests.get] through the candidate, 5 s timeout. *)
Definition probe_request (proxy : string) : M Z :=
  fun b => match probe w (tick b) proxy with
           | HttpRaise => (Raise RequestException, advance b)
           | HttpResponse status _ => (Ret status, advance b)
           end.

Definition test_proxy (proxy : string) : M bool :=
  b <- get ;;
  if blacklisted proxy (proxy_failures b) then ret false
  else
    try_except
      (status <- probe_request proxy ;;
       modify (emit (EvProbe proxy (status =? 200))) ;;;
       ret (status =? 200))
      (fun _ =>
         modify (fun b => set_proxy_failures
                            (record_failure proxy (proxy_failures b)) b) ;;;
         ret false).

(** The [for proxy in test_proxies] loop of [find_working_proxy]. *)
Fixpoint first_working (candidates : list string) : M (option string) :=
  match candidates with
  | [] => ret None
  | proxy :: rest =>
      ok <- test_proxy proxy ;;
      if ok then ret (Some proxy) else first_working rest
  end.

Definition find_working_proxy : M (option string) :=
  b <- get ;;
  match proxy_list b with
  | [] => ret None
  | _ =>
      modify advance ;;;
      first_working (shuffle w (tick b) (proxy_list b))
  end.

Definition switch_proxy : M unit :=
  new_proxy <- find_working_proxy ;;
  if truthy_proxy new_proxy then
    modify (set_current_proxy new_proxy) ;;;
    modify (set_proxies new_proxy)
  else
    modify (set_use_proxy false) ;;;
    modify (set_current_proxy None) ;;;
    modify (set_proxies None).

(** An answer as the loop keeps it in [response]: [None] is Python's
    [None], otherwise the status code and the decoded body. *)
Definition response : Type := option (Z * option json).

(** [requests.get(url, timeout=10)] on the Airplanes.live point
    endpoint, directly. *)
Definition tier1_request (lat lon : json) (dist : Z) : M response :=
  fun b =>
    let b' := emit (EvTier1 lat lon dist) (advance b) in
    match tier1 w (tick b) lat lon dist with
    | HttpRaise => (Raise RequestException, b')
    | HttpResponse status body => (Ret (Some (status, body)), b')
    end.

(** [requests.get] on the OpenSky endpoint, through [self.proxies] or
    directly. *)
Definition tier2_request (via : option string) : M response :=
  fun b =>
    let b' := emit (EvTier2 via) (advance b) in
    match tier2 w (tick b) via with
    | HttpRaise => (Raise RequestException, b')
    | HttpResponse status body => (Ret (Some (status, body)), b')
    end.

(** [self.mqtt_client.publish(topic, json.dumps(data))]. *)
Definition publish (payload : json) : M unit :=
  fun b =>
    if publish_raises w (tick b) then (Raise PublishError, advance b)
    else (Ret tt, emit (EvPublish payload) (advance b)).

(** The geo-scoped request, when the cached parameters carry a centre. *)
Definition fetch_tier1 (request_params : option json) : M response :=
  centred <- lift (has_center request_params) ;;
  if centred then
    let v := default JNull request_params in
    lat <- lift (py_get "center_lat" JNull v) ;;
    lon <- lift (py_get "center_lon" JNull v) ;;
    radius_km <- lift (radius_km_of v) ;;
    dist <- lift (radius_m radius_km) ;;
    try_except
      (r <- tier1_request lat lon dist ;;
       match r with
       | Some (status, _) => if status =? 200 then ret r else ret None
       | None => ret None
       end)
      (fun _ => ret None)
  else ret None.

(** The fallback request, made when [response is None]. *)
Definition fetch_tier2 (r : response) : M response :=
  match r with
  | Some _ => ret r
  | None =>
      b <- get ;;
      if use_proxy b && truthy_proxy (current_proxy b)
      then tier2_request (proxies b)
      else tier2_request None
  end.

(** The [try] body from [if response is None] on: the fallback request,
    then the publish or the [else] branch.  [true]: the [return] after a
    publish was reached; [false]: the [else] branch ran
    ([retry_count += 1], [switch_proxy()]). *)
Definition fallback_and_publish (r1 : response) : M bool :=
  r2 <- fetch_tier2 r1 ;;
  match r2 with
  | None => raise AttributeError
  | Some (status, body) =>
      if status =? 200 then
        data <- lift (match body with
                      | Some d => Ret d
                      | None => Raise JSONDecodeError
                      end) ;;
        b' <- get ;;
        payload <- lift (normalize (now w (tick b')) data) ;;
        publish payload ;;;
        ret true
      else
        switch_proxy ;;;
        ret false
  end.

(** The body of the [try] of one loop iteration. *)
Definition try_body : M bool :=
  b <- get ;;
  r1 <- fetch_tier1 (last_request_params b) ;;
  fallback_and_publish r1.

(** The [except Exception] of the loop: mark the current proxy as failed
    and rotate, when a proxy is in use. *)
Definition on_error : M bool :=
  b <- get ;;
  (if use_proxy b && truthy_proxy (current_proxy b) then
     modify (fun b => set_proxy_failures
               (record_failure (default EmptyString (current_proxy b))
                               (proxy_failures b)) b) ;;;
     switch_proxy
   else ret tt) ;;;
  ret false.

Definition attempt : M bool := try_except try_body (fun _ => on_error).

(** [while retry_count < max_retries]; [None] is returned only when the
    fuel runs out before the loop ends. *)
Fixpoint retry_loop (fuel retry_count : nat) : M (option unit) :=
  if (retry_count <? max_retries)%nat then
    match fuel with
    | O => ret None
    | S fuel' =>
        modify (emit (EvAttempt retry_count)) ;;;
        returned <- attempt ;;
        if returned then ret (Some tt)
        else
          (if (S retry_count <? max_retries)%nat
           then modify (emit EvSleep) else ret tt) ;;;
          retry_loop fuel' (S retry_count)
    end
  else ret (Some tt).

Definition fetch_and_publish_data : M (option unit) :=
  retry_loop max_retries 0.

(** ** SessionManager: construction and transport callbacks *)

(** The fields as [__init__] sets them before loading the candidates. *)
Definition blank : Bridge :=
  {| is_connected := false; use_proxy := true; proxies := None;
     proxy_list := []; current_proxy := None; proxy_failures := ∅;
     last_request_params := None; tick := 0%nat; trace := [] |}.

(** The rest of [__init__]: load the candidates, then look for a working
    proxy [if self.use_proxy and self.proxy_list]. *)
Definition init (file : option (list (list string))) : M unit :=
  modify (load_proxies_from_csv file) ;;;
  b <- get ;;
  if use_proxy b && match proxy_list b with [] => false | _ => true end then
    p <- find_working_proxy ;;
    modify (set_current_proxy p) ;;;
    if truthy_proxy p then modify (set_proxies p)
    else modify (set_use_proxy false)
  else ret tt.

Definition new_bridge (file : option (list (list string))) : Bridge :=
  snd (init file blank).

(** [on_connect]: periodic publishing is off
    ([enable_periodic_publishing = False]), so no thread is started. *)
Definition on_connect (rc : Z) : M unit :=
  if rc =? 0 then
    modify (set_is_connected true) ;;;
    fetch_and_publish_data ;;;
    ret tt
  else ret tt.

Definition on_disconnect (rc : Z) : M unit :=
  modify (set_is_connected false).

(** [try: c except json.JSONDecodeError: h]. *)
Definition try_except_json {A} (c : M A) (h : M A) : M A :=
  fun b => match c b with
           | (Raise JSONDecodeError, b') => h b'
           | other => other
           end.

(** [on_message]; [payload] is [None] when [msg.payload.decode()]
    raises. *)
Definition on_message (topic : string) (payload : option string) : M unit :=
  try_except
    (text <- lift (match payload with
                   | Some s => Ret s
                   | None => Raise ValueError
                   end) ;;
     if String.eqb topic request_topic then
       try_except_json
         (request_data <- lift (match json_loads text with
                                | Some d => Ret d
                                | None => Raise JSONDecodeError
                                end) ;;
          modify (set_last_request_params (Some request_data)) ;;;
          command <- lift (py_get "command" JNull request_data) ;;
          if is_str "update" command then
            fetch_and_publish_data ;;; ret tt
          else
            lift (py_get "command" (JStr "unknown") request_data) ;;; ret tt)
         (if String.eqb (py_lower (py_strip text)) "update" then
            fetch_and_publish_data ;;; ret tt
          else ret tt)
     else ret tt)
    (fun _ => ret tt).

End Methods.

(** ** Concrete worlds and bridges, for examples *)

Definition proxy_a : string := "socks4://10.0.0.1:1080".
Definition proxy_b : string := "socks4://10.0.0.2:1080".

(** A world in which every probe, every OpenSky request and every publish
    has the given fixed outcome; the Airplanes.live endpoint is down and
    the shuffle leaves the list as it is. *)
Definition fixed_world (probed fetched : http) (publish_fails : bool) : World :=
  {| shuffle := fun _ l => l;
     probe := fun _ _ => probed;
     tier1 := fun _ _ _ _ => HttpRaise;
     tier2 := fun _ _ => fetched;
     publish_raises := fun _ => publish_fails;
     now := fun _ => 0 |}.

Definition opensky_body : json :=
  JObj [("time", JNum 0); ("states", JList [])].

Definition ok_response : http := HttpResponse 200 (Some opensky_body).
Definition error_response : http := HttpResponse 500 None.

(** A bridge that routes through [proxy_a], the only candidate. *)
Definition bridge_via_a : Bridge :=
  {| is_connected := true; use_proxy := true; proxies := Some proxy_a;
     proxy_list := [proxy_a]; current_proxy := Some proxy_a;
     proxy_failures := ∅; last_request_params := None;
     tick := 0%nat; trace := [] |}.

Definition no_float : string -> option float64 := fun _ => None.

(** ** Vocabulary of the statements *)

(** A computation that never raises. *)
Definition total {A} (c : M A) : Prop :=
  forall b, exists a, fst (c b) = Ret a.

(** The fields of the object proper agree (the ghost fields may differ). *)
Definition same_fields (b b' : Bridge) : Prop :=
  is_connected b' = is_connected b /\
  use_proxy b' = use_proxy b /\
  proxies b' = proxies b /\
  proxy_list b' = proxy_list b /\
  current_proxy b' = current_proxy b /\
  proxy_failures b' = proxy_failures b /\
  last_request_params b' = last_request_params b.

Definition is_publish (e : event) : bool :=
  match e with EvPublish _ => true | _ => false end.

Definition is_attempt (e : event) : bool :=
  match e with EvAttempt _ => true | _ => false end.

Definition publishes (evs : list event) : nat :=
  List.length (List.filter is_publish evs).

Definition attempts (evs : list event) : nat :=
  List.length (List.filter is_attempt evs).

(** [b'] has the trace of [b] with [evs] in front. *)
Definition extends (evs : list event) (b b' : Bridge) : Prop :=
  trace b' = evs ++ trace b.

(** Between [b] and [b'] there were requests, probes and sleeps only: no
    publish and no new loop iteration. *)
Definition background (b b' : Bridge) : Prop :=
  exists evs, extends evs b b' /\ publishes evs = 0%nat /\ attempts evs = 0%nat.

(** Nothing but requests, probes and sleeps happened, and the object's
    fields are as before. *)
Definition calm (b b' : Bridge) : Prop := same_fields b b' /\ background b b'.

(** What a failed iteration may leave behind: background events, and the
    connection state as it was. *)
Definition aftermath (b b' : Bridge) : Prop :=
  background b b' /\ is_connected b' = is_connected b.

(** [self.use_proxy and self.current_proxy]: a proxy is in use. *)
Definition proxy_active (b : Bridge) : bool :=
  use_proxy b && truthy_proxy (current_proxy b).

(** The bridge once [proxy] has one more recorded failure. *)
Definition with_failure (proxy : string) (b : Bridge) : Bridge :=
  set_proxy_failures (record_failure proxy (proxy_failures b)) b.

(** The [time.sleep(2)] after an iteration that ended with [retry_count]
    still below the bound. *)
Definition after_attempt (retry_count : nat) (b : Bridge) : Bridge :=
  if (S retry_count <? max_retries)%nat then emit EvSleep b else b.

(** A bridge whose cached request carries a centre. *)
Definition centred_request : json :=
  JObj [("command", JStr "update"); ("center_lat", JNum 40);
        ("center_lon", JNum 75)].

Definition bridge_centred : Bridge :=
  set_last_request_params (Some centred_request) bridge_via_a.

(** The invariant of the proxy fields: when [use_proxy] is set,
    [current_proxy] is a non-empty address whose probe the bridge has seen
    answered with status 200. *)
Definition proxy_invariant (b : Bridge) : Prop :=
  use_proxy b = true ->
  exists p, current_proxy b = Some p /\ p <> EmptyString /\
            In (EvProbe p true) (trace b).

Definition keeps_invariant (b b' : Bridge) : Prop :=
  proxy_invariant b -> proxy_invariant b'.

Definition stays_direct (b b' : Bridge) : Prop :=
  use_proxy b = false -> use_proxy b' = false.

(** [clamp(x, lo, hi)] as the specification writes it. *)
Definition clamp (x lo hi : Q) : Q :=
  if Qle_bool x lo then lo else if Qle_bool hi x then hi else x.

(** What an attempt started on [b] has to publish, with the bridge as
    the requests left it: there is something when the answer kept in
    [response] has status 200 and a body that decodes and normalises, and
    the publish does not raise. *)
Definition publishable (w : World) (float_of_str : string -> option float64)
    (b : Bridge) : option (json * Bridge) :=
  match fetch_tier1 w float_of_str (last_request_params b) b with
  | (Ret r1, b1) =>
      match fetch_tier2 w r1 b1 with
      | (Ret (Some (status, Some data)), b2) =>
          if (status =? 200) && negb (publish_raises w (tick b2)) then
            match normalize (now w (tick b2)) data with
            | Ret payload => Some (payload, b2)
            | Raise _ => None
            end
          else None
      | _ => None
      end
  | _ => None
  end.

(** The way the next OpenSky request would go. *)
Definition route (b : Bridge) : option string :=
  if proxy_active b then proxies b else None.

(** A world whose OpenSky endpoint answers 500 to the first request and
    200 afterwards (the first request of a cycle is interaction 0, the
    second one interaction 3: a probe and the shuffle lie between). *)
Definition flaky_world : World :=
  {| shuffle := fun _ l => l;
     probe := fun _ _ => ok_response;
     tier1 := fun _ _ _ _ => HttpRaise;
     tier2 := fun n _ => if (n =? 0)%nat then error_response else ok_response;
     publish_raises := fun _ => false;
     now := fun _ => 0 |}.

(** The float [x] is the rational [q]. *)
Definition f64_exact (x : float64) (q : Q) : Prop :=
  match f64_value x with
  | Real y => (y == q)%Q
  | _ => False
  end.

(** A cached request with a fractional radius: 16385/1024 km, that is
    16000.9765625 m. *)
Definition fractional_request : json :=
  JObj [("center_lat", JNum 40); ("center_lon", JNum 75);
        ("radius_km", JNum (16385 # 1024))].

(** The three trigger payloads: the JSON text of the object with the one
    member command = update (its quotes are character 34), and the two
    plain texts. *)
Definition quote : string := String (ascii_of_nat 34) EmptyString.

Definition structured_update : string :=
  "{" ++ quote ++ "command" ++ quote ++ ":" ++ quote ++ "update" ++ quote ++ "}".

Definition plain_update : string := "update".
Definition padded_update : string := "  Update  ".

(** What [json.loads] makes of [structured_update]. *)
Definition update_command : json := JObj [("command", JStr "update")].

(** A decoder that knows the structured payload and rejects every other
    text, as [json.loads] rejects the two plain ones. *)
Definition loads_update_only (text : string) : option json :=
  if String.eqb text structured_update then Some update_command else None.

(** The computation neither reads nor writes the cached request: run on
    a bridge whose cache was replaced, it does the same and leaves the
    replaced cache in place. *)
Definition frames {A} (v : option json) (c : M A) : Prop :=
  forall b,
    c (set_last_request_params v b)
    = (fst (c b), set_last_request_params v (snd (c b))).

(** A relation between the bridge before and after that every run of the
    computation satisfies. *)
Definition respects {A} (R : Bridge -> Bridge -> Prop) (c : M A) : Prop :=
  forall b, R b (snd (c b)).

(** Recorded failure counts do not decrease. *)
Definition fail_mono (b b' : Bridge) : Prop :=
  forall p, (failure_count p b <= failure_count p b')%nat.

(** ** The life of a pool *)

(** The entry points through which the object is used after
    construction. *)
Inductive call : Type :=
| CallTest (proxy : string)
| CallFind
| CallSwitch
| CallFetch
| CallConnect (rc : Z)
| CallDisconnect (rc : Z)
| CallMessage (topic : string) (payload : option string).

Definition exec (w : World) (json_loads : string -> option json)
    (float_of_str : string -> option float64) (c : call) (b : Bridge) : Bridge :=
  match c with
  | CallTest p => snd (test_proxy w p b)
  | CallFind => snd (find_working_proxy w b)
  | CallSwitch => snd (switch_proxy w b)
  | CallFetch => snd (fetch_and_publish_data w float_of_str b)
  | CallConnect rc => snd (on_connect w float_of_str rc b)
  | CallDisconnect rc => snd (on_disconnect rc b)
  | CallMessage topic payload =>
      snd (on_message w json_loads float_of_str topic payload b)
  end.

(** [reaches b b']: [b'] is [b] after any number of calls, each against
    any world. *)
Inductive reaches (b : Bridge) : Bridge -> Prop :=
| reaches_here : reaches b b
| reaches_call b1 w json_loads float_of_str c :
    reaches b b1 -> reaches b (exec w json_loads float_of_str c b1).

(** ** Vocabulary of the further properties *)

Definition is_null (v : json) : bool :=
  match v with JNull => true | _ => false end.

Definition is_bool (v : json) : bool :=
  match v with JBool _ => true | _ => false end.

Definition is_object (v : json) : bool :=
  match v with JObj _ => true | _ => false end.

(** What [len] accepts. *)
Definition has_len (v : json) : bool :=
  match v with JList _ | JStr _ | JObj _ => true | _ => false end.

(** Positions 3, 4 and 12 to 16 of a positional state. *)
Definition reserved_slot (i : nat) : bool :=
  ((i =? 3) || (i =? 4) || (12 <=? i) && (i <=? 16))%nat.

(** Entry [i] of a positional state is as the downstream layout wants it:
    null exactly in the reserved slots. *)
Definition slot_ok (entry : nat * json) : bool :=
  if reserved_slot (fst entry) then is_null (snd entry)
  else negb (is_null (snd entry)).

(** A positional state of the published schema: 17 entries, null in the
    reserved slots and nowhere else, a Boolean ground flag at 8. *)
Definition canonical_state (s : json) : bool :=
  match s with
  | JList items =>
      (List.length items =? 17)%nat
      && forallb slot_ok (List.combine (List.seq 0 (List.length items)) items)
      && is_bool (List.nth 8 items JNull)
  | _ => false
  end.

(** The first truthy value that the aircraft has under one of [keys],
    [fallback] when it has none. *)
Fixpoint pick (f : list (string * json)) (keys : list string)
    (fallback : json) : json :=
  match keys with
  | [] => fallback
  | key :: rest =>
      if truthy (field key f) then field key f else pick f rest fallback
  end.

(** The published layout: what stands at index [i] of the positional
    state of the aircraft [f]. *)
Definition state_entry (f : list (string * json)) (i : nat) : json :=
  match i with
  | 0 => pick f ["icao"; "hex"] (JStr EmptyString)
  | 1 => pick f ["call"] (JStr EmptyString)
  | 2 => JStr EmptyString
  | 5 => pick f ["lon"] (JNum 0)
  | 6 => pick f ["lat"] (JNum 0)
  | 7 => match pick f ["alt_baro"] (field "alt_baro_ft" f) with
         | JNull => JNum 0
         | x => x
         end
  | 8 => JBool (truthy (field "gnd" f))
  | 9 => pick f ["gs"] (JNum 0)
  | 10 => pick f ["track"] (JNum 0)
  | 11 => pick f ["roc"] (JNum 0)
  | _ => JNull
  end%nat.

(** [state] is the positional state of the aircraft [ac]. *)
Definition state_of (ac state : json) : Prop :=
  exists f items,
    ac = JObj f /\ state = JList items /\
    List.length items = 17%nat /\
    forall i, List.nth i items JNull = state_entry f i.

(** Every character of the text is whitespace for [str.strip]. *)
Fixpoint all_space (s : string) : bool :=
  match s with
  | EmptyString => true
  | String c rest => is_space c && all_space rest
  end.

(** The callbacks through which the transport drives the bridge. *)
Inductive callback : Type :=
| OnConnect (rc : Z)
| OnDisconnect (rc : Z)
| OnMessage (topic : string) (payload : option string).

Definition deliver (w : World) (json_loads : string -> option json)
    (float_of_str : string -> option float64) (c : callback) (b : Bridge) : Bridge :=
  match c with
  | OnConnect rc => snd (on_connect w float_of_str rc b)
  | OnDisconnect rc => snd (on_disconnect rc b)
  | OnMessage topic payload =>
      snd (on_message w json_loads float_of_str topic payload b)
  end.

(** [serves P b b']: [b'] is [b] after any number of callbacks, each
    against a world that satisfies [P]. *)
Inductive serves (P : World -> Prop) (b : Bridge) : Bridge -> Prop :=
| serves_here : serves P b b
| serves_deliver b1 w json_loads float_of_str c :
    serves P b b1 -> P w ->
    serves P b (deliver w json_loads float_of_str c b1).

Definition any_world (w : World) : Prop := True.

(** [random.shuffle] rearranges: the shuffled list is a permutation. *)
Definition fair_shuffle (w : World) : Prop :=
  forall n l, Permutation l (shuffle w n l).

Definition counts_bounded (b : Bridge) : Prop :=
  forall q, (failure_count q b <= 3)%nat.

(** No count is above 3, and the current proxy is not one that
    [test_proxy] would refuse. *)
Definition pool_bounded (b : Bridge) : Prop :=
  counts_bounded b /\
  forall p, current_proxy b = Some p -> (failure_count p b < 3)%nat.

(** [self.proxies] names the current proxy whenever there is one. *)
Definition proxies_in_sync (b : Bridge) : Prop :=
  truthy_proxy (current_proxy b) = true -> proxies b = current_proxy b.

(** An OpenSky request sent through a proxy. *)
Definition is_proxied (e : event) : bool :=
  match e with EvTier2 (Some _) => true | _ => false end.

(** A request to one of the two providers. *)
Definition is_request (e : event) : bool :=
  match e with EvTier1 _ _ _ | EvTier2 _ => true | _ => false end.

Definition keeps_bounded (b b' : Bridge) : Prop :=
  pool_bounded b -> pool_bounded b'.

Definition keeps_sync (b b' : Bridge) : Prop :=
  proxies_in_sync b -> proxies_in_sync b'.

(** Once [use_proxy] is cleared it stays cleared and no request goes
    through a proxy. *)
Definition stays_unproxied (b b' : Bridge) : Prop :=
  use_proxy b = false ->
  use_proxy b' = false /\
  exists evs, extends evs b b' /\ existsb is_proxied evs = false.

(** While the cached request is [rp], nothing is requested from a
    provider and nothing is published. *)
Definition starved (rp : option json) (b b' : Bridge) : Prop :=
  last_request_params b = rp ->
  last_request_params b' = rp /\
  exists evs, extends evs b b' /\
              existsb is_request evs = false /\ publishes evs = 0%nat.

(** The entries of the candidate list that [test_proxy] would still
    probe. *)
Definition probeable (b : Bridge) (l : list string) : list string :=
  List.filter (fun p => negb (blacklisted p (proxy_failures b))) l.

(** The current proxy, when set, is an entry of the candidate list. *)
Definition current_listed (b : Bridge) : Prop :=
  forall p, current_proxy b = Some p -> In p (proxy_list b).

(** The candidate list is kept, and the current proxy stays an entry. *)
Definition keeps_listed (b b' : Bridge) : Prop :=
  proxy_list b' = proxy_list b /\ (current_listed b -> current_listed b').

(** A geo-scoped request. *)
Definition is_tier1 (e : event) : bool :=
  match e with EvTier1 _ _ _ => true | _ => false end.

Definition not_tier1 (e : event) : bool := negb (is_tier1 e).
Definition not_request (e : event) : bool := negb (is_request e).
Definition any_event (e : event) : bool := true.

(** A geo-scoped request asks for a distance within the bounds of the
    clamp; any other event passes. *)
Definition in_range (e : event) : bool :=
  match e with
  | EvTier1 _ _ dist => (10000 <=? dist) && (dist <=? 400000)
  | _ => true
  end.

(** Between [b] and [b'] only events that [ok] accepts happened. *)
Definition only (ok : event -> bool) (b b' : Bridge) : Prop :=
  exists evs, extends evs b b' /\ forallb ok evs = true.

(** While the cached request is [rp], it stays cached and no geo-scoped
    request is sent. *)
Definition skips_tier1 (rp : option json) (b b' : Bridge) : Prop :=
  last_request_params b = rp ->
  last_request_params b' = rp /\ only not_tier1 b b'.

(** A cached request whose radius is beyond the range of floats. *)
Definition overflowing_request : json :=
  JObj [("center_lat", JNum 40); ("center_lon", JNum 75);
        ("radius_km", JNum (inject_Z (10 ^ 400)))].

(** * Verification *)

(** ** State relations kept by every step of a computation *)


Section Respects.

Variable R : Bridge -> Bridge -> Prop.
Hypothesis R_refl : forall b, R b b.
Hypothesis R_trans : forall b1 b2 b3, R b1 b2 -> R b2 b3 -> R b1 b3.

Lemma respects_ret {A} (a : A) : respects R (ret a).
Proof. intros b. apply R_refl. Qed.

Lemma respects_raise {A} (e : exn) : respects R (@raise A e).
Proof. intros b. apply R_refl. Qed.

Lemma respects_lift {A} (r : result A) : respects R (lift r).
Proof. intros b. apply R_refl. Qed.

Lemma respects_get : respects R get.
Proof. intros b. apply R_refl. Qed.

Lemma respects_modify (f : Bridge -> Bridge) :
  (forall b, R b (f b)) -> respects R (modify f).
Proof. intros Hf b. apply Hf. Qed.

Lemma respects_bind {A B} (c : M A) (k : A -> M B) :
  respects R c -> (forall a, respects R (k a)) -> respects R (bind c k).
Proof.
  intros Hc Hk b. unfold bind.
  specialize (Hc b). destruct (c b) as [[a | e] b1]; simpl in *.
  - eapply R_trans; [exact Hc | apply Hk].
  - exact Hc.
Qed.

Lemma respects_try_except {A} (c : M A) (h : exn -> M A) :
  respects R c -> (forall e, respects R (h e)) -> respects R (try_except c h).
Proof.
  intros Hc Hh b. unfold try_except.
  specialize (Hc b). destruct (c b) as [[a | e] b1]; simpl in *.
  - exact Hc.
  - eapply R_trans; [exact Hc | apply Hh].
Qed.

Lemma respects_try_except_json {A} (c h : M A) :
  respects R c -> respects R h -> respects R (try_except_json c h).
Proof.
  intros Hc Hh b. unfold try_except_json.
  specialize (Hc b). destruct (c b) as [[a | e] b1]; simpl in *.
  - exact Hc.
  - destruct e; try exact Hc. eapply R_trans; [exact Hc | apply Hh].
Qed.

Hypothesis R_advance : forall b, R b (advance b).
Hypothesis R_probed : forall p ok b, R b (emit (EvProbe p ok) b).
Hypothesis R_tier1 : forall lat lon d b, R b (emit (EvTier1 lat lon d) b).
Hypothesis R_tier2 : forall via b, R b (emit (EvTier2 via) b).
Hypothesis R_published : forall payload b, R b (emit (EvPublish payload) b).
Hypothesis R_attempt : forall n b, R b (emit (EvAttempt n) b).
Hypothesis R_sleep : forall b, R b (emit EvSleep b).
Hypothesis R_record : forall p b,
  R b (set_proxy_failures (record_failure p (proxy_failures b)) b).

Ltac respects_tac :=
  repeat first
    [ progress cbv beta
    | match goal with
      | |- respects _ (if ?c then _ else _) => destruct c
      | |- respects _ (match ?c with _ => _ end) => destruct c
      | |- respects _ (ret _) => apply respects_ret
      | |- respects _ (raise _) => apply respects_raise
      | |- respects _ (lift _) => apply respects_lift
      | |- respects _ get => apply respects_get
      | |- respects _ (modify _) => apply respects_modify; intro; auto
      | |- respects _ (bind _ _) => apply respects_bind; [ | intro ]
      | |- respects _ (try_except _ _) =>
          apply respects_try_except; [ | intro ]
      | |- respects _ (try_except_json _ _) => apply respects_try_except_json
      end ].

Variable w : World.

Lemma respects_probe_request p : respects R (probe_request w p).
Proof.
  intros b. unfold probe_request.
  destruct (probe w (tick b) p); simpl; apply R_advance.
Qed.

Lemma respects_test_proxy p : respects R (test_proxy w p).
Proof.
  unfold test_proxy. respects_tac. apply respects_probe_request.
Qed.

Lemma respects_first_working l : respects R (first_working w l).
Proof.
  induction l as [| p l IH]; simpl; respects_tac; auto.
  apply respects_test_proxy.
Qed.

Lemma respects_find_working_proxy : respects R (find_working_proxy w).
Proof.
  unfold find_working_proxy. respects_tac.
  apply respects_first_working.
Qed.

Section Switch.

Hypothesis R_current : forall v b, R b (set_current_proxy v b).
Hypothesis R_proxies : forall v b, R b (set_proxies v b).
Hypothesis R_direct : forall b, R b (set_use_proxy false b).

Lemma respects_switch_proxy : respects R (switch_proxy w).
Proof.
  unfold switch_proxy. respects_tac. apply respects_find_working_proxy.
Qed.

End Switch.

Section Fetch.

Hypothesis R_switch : respects R (switch_proxy w).
Hypothesis R_params : forall v b, R b (set_last_request_params v b).

Variable json_loads : string -> option json.
Variable float_of_str : string -> option float64.

Lemma respects_tier1_request lat lon d : respects R (tier1_request w lat lon d).
Proof.
  intros b. unfold tier1_request.
  destruct (tier1 w (tick b) lat lon d); simpl;
    (eapply R_trans; [apply R_advance | apply R_tier1]).
Qed.

Lemma respects_tier2_request via : respects R (tier2_request w via).
Proof.
  intros b. unfold tier2_request.
  destruct (tier2 w (tick b) via); simpl;
    (eapply R_trans; [apply R_advance | apply R_tier2]).
Qed.

Lemma respects_publish payload : respects R (publish w payload).
Proof.
  intros b. unfold publish.
  destruct (publish_raises w (tick b)); simpl.
  - apply R_advance.
  - eapply R_trans; [apply R_advance | apply R_published].
Qed.

Lemma respects_fetch_tier1 rp : respects R (fetch_tier1 w float_of_str rp).
Proof.
  unfold fetch_tier1. respects_tac; apply respects_tier1_request.
Qed.

Lemma respects_fetch_tier2 r : respects R (fetch_tier2 w r).
Proof.
  unfold fetch_tier2. respects_tac; apply respects_tier2_request.
Qed.

Lemma respects_try_body : respects R (try_body w float_of_str).
Proof.
  unfold try_body, fallback_and_publish. respects_tac;
    auto using respects_fetch_tier1, respects_fetch_tier2, respects_publish.
Qed.

Lemma respects_on_error : respects R (on_error w).
Proof. unfold on_error. respects_tac; auto. Qed.

Lemma respects_attempt : respects R (attempt w float_of_str).
Proof.
  unfold attempt. apply respects_try_except.
  - apply respects_try_body.
  - intros _. apply respects_on_error.
Qed.

Lemma respects_retry_loop fuel n : respects R (retry_loop w float_of_str fuel n).
Proof.
  revert n. induction fuel as [| fuel IH]; intros n; simpl.
  - respects_tac.
  - destruct (n <? max_retries)%nat; [ | apply respects_ret ].
    apply respects_bind; [ apply respects_modify; auto | intros _ ].
    apply respects_bind; [ apply respects_attempt | intros returned ].
    destruct returned; [ apply respects_ret | ].
    apply respects_bind; [ | intros _; apply IH ].
    destruct (S n <? max_retries)%nat;
      [ apply respects_modify; auto | apply respects_ret ].
Qed.

Lemma respects_fetch_and_publish_data :
  respects R (fetch_and_publish_data w float_of_str).
Proof. apply respects_retry_loop. Qed.

Lemma respects_on_message topic payload :
  respects R (on_message w json_loads float_of_str topic payload).
Proof.
  unfold on_message. respects_tac;
    apply respects_fetch_and_publish_data.
Qed.

End Fetch.

End Respects.

(** ** Relations kept by the callbacks *)

Section Body.

Variable R : Bridge -> Bridge -> Prop.
Hypothesis R_refl : forall b, R b b.
Hypothesis R_trans : forall b1 b2 b3, R b1 b2 -> R b2 b3 -> R b1 b3.
Variable w : World.
Variable float_of_str : string -> option float64.
Hypothesis H_tier1 : forall rp, respects R (fetch_tier1 w float_of_str rp).
Hypothesis H_tier2 : forall r, respects R (fetch_tier2 w r).
Hypothesis H_publish : forall payload, respects R (publish w payload).
Hypothesis H_switch : respects R (switch_proxy w).

Lemma built_answered x : respects R (fallback_and_publish w (Some x)).
Proof.
  unfold fallback_and_publish.
  apply respects_bind;
    [ exact R_trans | unfold fetch_tier2; apply respects_ret, R_refl | ].
  intros r2.
  destruct r2 as [[status body] |]; [ | apply respects_raise, R_refl ].
  destruct (status =? 200).
  - apply respects_bind; [ exact R_trans | apply respects_lift, R_refl | ].
    intros data.
    apply respects_bind; [ exact R_trans | apply respects_get, R_refl | ].
    intros b'.
    apply respects_bind; [ exact R_trans | apply respects_lift, R_refl | ].
    intros payload.
    apply respects_bind; [ exact R_trans | apply H_publish | intros _ ].
    apply respects_ret, R_refl.
  - apply respects_bind; [ exact R_trans | apply H_switch | intros _ ].
    apply respects_ret, R_refl.
Qed.

Lemma built_fallback r1 : respects R (fallback_and_publish w r1).
Proof.
  unfold fallback_and_publish.
  apply respects_bind; [ exact R_trans | apply H_tier2 | intros r2 ].
  destruct r2 as [[status body] |]; [ | apply respects_raise, R_refl ].
  destruct (status =? 200).
  - apply respects_bind; [ exact R_trans | apply respects_lift, R_refl | ].
    intros data.
    apply respects_bind; [ exact R_trans | apply respects_get, R_refl | ].
    intros b'.
    apply respects_bind; [ exact R_trans | apply respects_lift, R_refl | ].
    intros payload.
    apply respects_bind; [ exact R_trans | apply H_publish | intros _ ].
    apply respects_ret, R_refl.
  - apply respects_bind; [ exact R_trans | apply H_switch | intros _ ].
    apply respects_ret, R_refl.
Qed.

Lemma built_try_body : respects R (try_body w float_of_str).
Proof.
  unfold try_body.
  apply respects_bind; [ exact R_trans | apply respects_get, R_refl | ].
  intros b.
  apply respects_bind; [ exact R_trans | apply H_tier1 | intros r1 ].
  apply built_fallback.
Qed.

End Body.

Section Iteration.

Variable R : Bridge -> Bridge -> Prop.
Hypothesis R_refl : forall b, R b b.
Hypothesis R_trans : forall b1 b2 b3, R b1 b2 -> R b2 b3 -> R b1 b3.
Variable w : World.
Variable float_of_str : string -> option float64.
Hypothesis R_attempt : forall n b, R b (emit (EvAttempt n) b).
Hypothesis R_sleep : forall b, R b (emit EvSleep b).
Hypothesis H_body : respects R (try_body w float_of_str).
Hypothesis H_error : respects R (on_error w).

Lemma loop_attempt : respects R (attempt w float_of_str).
Proof.
  unfold attempt. apply respects_try_except;
    [ exact R_trans | exact H_body | intros _; exact H_error ].
Qed.

Lemma loop_retry_loop fuel :
  forall n, respects R (retry_loop w float_of_str fuel n).
Proof.
  induction fuel as [| fuel IH]; intros n; cbn [retry_loop];
    destruct (n <? max_retries)%nat; try apply respects_ret, R_refl.
  apply respects_bind; [ exact R_trans | | intros _ ].
  { apply respects_modify. apply R_attempt. }
  apply respects_bind; [ exact R_trans | apply loop_attempt | ].
  intros returned. destruct returned; [ apply respects_ret, R_refl | ].
  apply respects_bind; [ exact R_trans | | intros _; apply IH ].
  destruct (S n <? max_retries)%nat;
    [ apply respects_modify; apply R_sleep | apply respects_ret, R_refl ].
Qed.

Lemma loop_fetch : respects R (fetch_and_publish_data w float_of_str).
Proof. apply loop_retry_loop. Qed.

Variable json_loads : string -> option json.
Hypothesis R_params : forall v b, R b (set_last_request_params v b).
Hypothesis R_connected : forall v b, R b (set_is_connected v b).

Lemma loop_on_message topic payload :
  respects R (on_message w json_loads float_of_str topic payload).
Proof.
  unfold on_message.
  apply respects_try_except;
    [ exact R_trans | | intros _; apply respects_ret, R_refl ].
  apply respects_bind; [ exact R_trans | apply respects_lift, R_refl | ].
  intros text. destruct (String.eqb topic request_topic);
    [ | apply respects_ret, R_refl ].
  apply respects_try_except_json; [ exact R_trans | | ].
  - apply respects_bind; [ exact R_trans | apply respects_lift, R_refl | ].
    intros request_data.
    apply respects_bind; [ exact R_trans | | intros _ ].
    { apply respects_modify. apply R_params. }
    apply respects_bind; [ exact R_trans | apply respects_lift, R_refl | ].
    intros command. destruct (is_str "update" command).
    + apply respects_bind; [ exact R_trans | apply loop_fetch | intros _ ].
      apply respects_ret, R_refl.
    + apply respects_bind; [ exact R_trans | apply respects_lift, R_refl | ].
      intros _. apply respects_ret, R_refl.
  - destruct (String.eqb (py_lower (py_strip text)) "update");
      [ | apply respects_ret, R_refl ].
    apply respects_bind; [ exact R_trans | apply loop_fetch | intros _ ].
    apply respects_ret, R_refl.
Qed.

Lemma loop_deliver c b : R b (deliver w json_loads float_of_str c b).
Proof.
  destruct c as [rc | rc | topic payload]; simpl.
  - unfold on_connect. destruct (rc =? 0); [ | apply R_refl ].
    apply respects_bind; [ exact R_trans | | intros _ ].
    { apply respects_modify. apply R_connected. }
    apply respects_bind; [ exact R_trans | apply loop_fetch | intros _ ].
    apply respects_ret, R_refl.
  - apply R_connected.
  - apply loop_on_message.
Qed.

End Iteration.

(** What follows the requests of an attempt. *)
Section Tail.

Variable R : Bridge -> Bridge -> Prop.
Hypothesis R_refl : forall b, R b b.
Hypothesis R_trans : forall b1 b2 b3, R b1 b2 -> R b2 b3 -> R b1 b3.
Variable w : World.
Variable float_of_str : string -> option float64.
Hypothesis H_answered :
  forall x, respects R (fallback_and_publish w (Some x)).
Hypothesis H_error : respects R (on_error w).

Lemma tail_fallback r1 b1 :
  R (snd (fetch_tier2 w r1 b1)) (snd (fallback_and_publish w r1 b1)).
Proof.
  destruct r1 as [x |]; [ apply H_answered | ].
  unfold fallback_and_publish. unfold bind at 1.
  destruct (fetch_tier2 w None b1) as [[r2 | e] b2]; simpl; [ | apply R_refl ].
  destruct r2 as [x |]; [ apply (H_answered x b2) | apply R_refl ].
Qed.

Lemma tail_attempt b0 r1 b1 :
  try_body w float_of_str b0 = fallback_and_publish w r1 b1 ->
  R (snd (fetch_tier2 w r1 b1)) (snd (attempt w float_of_str b0)).
Proof.
  intros E. unfold attempt, try_except. rewrite E.
  pose proof (tail_fallback r1 b1) as H.
  destruct (fallback_and_publish w r1 b1) as [[a | e] b2]; simpl in *;
    [ exact H | ].
  eapply R_trans; [ exact H | apply H_error ].
Qed.

Hypothesis R_sleep : forall b, R b (emit EvSleep b).
Hypothesis H_loop :
  forall fuel n, respects R (retry_loop w float_of_str fuel n).

Lemma tail_loop fuel n b r1 b1 :
  (n < max_retries)%nat ->
  try_body w float_of_str (emit (EvAttempt n) b)
  = fallback_and_publish w r1 b1 ->
  R (snd (fetch_tier2 w r1 b1))
    (snd (retry_loop w float_of_str (S fuel) n b)).
Proof.
  intros Hlt E. cbn [retry_loop]. apply Nat.ltb_lt in Hlt. rewrite Hlt.
  unfold bind at 1. unfold modify at 1. unfold bind at 1.
  pose proof (tail_attempt _ r1 b1 E) as H.
  destruct (attempt w float_of_str (emit (EvAttempt n) b))
    as [[[|] | e] b2]; simpl in H |- *; try exact H.
  eapply R_trans; [ exact H | ].
  unfold bind. destruct (S n <? max_retries)%nat; simpl.
  - eapply R_trans; [ apply R_sleep | apply H_loop ].
  - apply H_loop.
Qed.

End Tail.

(** ** Events of one kind only *)

Section Only.

Variable ok : event -> bool.

Lemma only_refl b : only ok b b.
Proof. exists []. split; reflexivity. Qed.

Lemma only_trans b1 b2 b3 : only ok b1 b2 -> only ok b2 b3 -> only ok b1 b3.
Proof.
  intros (e1 & X1 & P1) (e2 & X2 & P2). exists (e2 ++ e1).
  unfold extends in *.
  split; [ rewrite X2, X1; apply List.app_assoc | ].
  rewrite List.forallb_app, P1, P2. reflexivity.
Qed.

Lemma only_quiet b b' : trace b' = trace b -> only ok b b'.
Proof. intros Ht. exists []. split; [ exact Ht | reflexivity ]. Qed.

Lemma only_emit e b : ok e = true -> only ok b (emit e b).
Proof.
  intros He. exists [e]. split; [ reflexivity | ].
  simpl. rewrite He. reflexivity.
Qed.

Hypothesis ok_probe : forall p passed, ok (EvProbe p passed) = true.
Hypothesis ok_publish : forall payload, ok (EvPublish payload) = true.
Hypothesis ok_tier2 : forall via, ok (EvTier2 via) = true.
Hypothesis ok_attempt : forall n, ok (EvAttempt n) = true.
Hypothesis ok_sleep : ok EvSleep = true.

Ltac only_side :=
  first [ exact only_refl | exact only_trans
        | intros; apply only_quiet; reflexivity
        | intros; apply only_emit;
          first [ apply ok_probe | apply ok_publish | apply ok_tier2
                | apply ok_attempt | exact ok_sleep ] ].

Variable w : World.

Lemma only_switch_proxy : respects (only ok) (switch_proxy w).
Proof. apply respects_switch_proxy; only_side. Qed.

Lemma only_on_error : respects (only ok) (on_error w).
Proof.
  apply respects_on_error; first [ exact only_switch_proxy | only_side ].
Qed.

Lemma only_publish payload : respects (only ok) (publish w payload).
Proof. apply respects_publish; only_side. Qed.

Lemma only_answered x : respects (only ok) (fallback_and_publish w (Some x)).
Proof.
  apply built_answered;
    first [ exact only_publish | exact only_switch_proxy | only_side ].
Qed.

Lemma only_fetch_tier2 r : respects (only ok) (fetch_tier2 w r).
Proof. apply respects_fetch_tier2; only_side. Qed.

Variable float_of_str : string -> option float64.
Hypothesis H_tier1 :
  forall rp, respects (only ok) (fetch_tier1 w float_of_str rp).

Lemma only_try_body : respects (only ok) (try_body w float_of_str).
Proof.
  apply built_try_body;
    first [ exact H_tier1 | exact only_fetch_tier2 | exact only_publish
          | exact only_switch_proxy | only_side ].
Qed.

Lemma only_retry_loop fuel n :
  respects (only ok) (retry_loop w float_of_str fuel n).
Proof.
  apply loop_retry_loop;
    first [ exact only_try_body | exact only_on_error | only_side ].
Qed.

Lemma only_deliver json_loads c b :
  only ok b (deliver w json_loads float_of_str c b).
Proof.
  apply loop_deliver;
    first [ exact only_try_body | exact only_on_error | only_side ].
Qed.

End Only.

(** ** Failure counts only grow *)

Lemma fail_mono_refl b : fail_mono b b.
Proof. intros p. lia. Qed.

Lemma fail_mono_trans b1 b2 b3 :
  fail_mono b1 b2 -> fail_mono b2 b3 -> fail_mono b1 b3.
Proof. intros H12 H23 p. specialize (H12 p). specialize (H23 p). lia. Qed.

Lemma failure_count_record_eq p b :
  failure_count p (set_proxy_failures (record_failure p (proxy_failures b)) b)
  = S (failure_count p b).
Proof.
  unfold failure_count, record_failure; simpl.
  destruct (proxy_failures b !! p) as [n |] eqn:E; simpl;
    rewrite lookup_insert_eq; simpl; lia.
Qed.

Lemma failure_count_record_ne p q b :
  p <> q ->
  failure_count q (set_proxy_failures (record_failure p (proxy_failures b)) b)
  = failure_count q b.
Proof.
  intros Hne. unfold failure_count, record_failure; simpl.
  destruct (proxy_failures b !! p) as [n |] eqn:E; simpl;
    rewrite lookup_insert_ne by exact Hne; reflexivity.
Qed.

Lemma fail_mono_record p b :
  fail_mono b (set_proxy_failures (record_failure p (proxy_failures b)) b).
Proof.
  intros q. destruct (decide (p = q)) as [-> | Hne].
  - rewrite failure_count_record_eq. lia.
  - rewrite failure_count_record_ne by exact Hne. lia.
Qed.

Lemma fail_mono_same b b' :
  proxy_failures b' = proxy_failures b -> fail_mono b b'.
Proof. intros H p. unfold failure_count. rewrite H. lia. Qed.

Ltac fail_mono_side :=
  first [ exact fail_mono_refl | exact fail_mono_trans
        | exact fail_mono_record
        | intros; apply fail_mono_same; reflexivity ].

Lemma fail_mono_switch_proxy w : respects fail_mono (switch_proxy w).
Proof.
  unfold switch_proxy.
  apply respects_bind; [ exact fail_mono_trans | | intros new_proxy ].
  - apply respects_find_working_proxy; fail_mono_side.
  - destruct (truthy_proxy new_proxy);
      repeat (apply respects_bind; [ exact fail_mono_trans | | intros _ ]);
      apply respects_modify; intros; apply fail_mono_same; reflexivity.
Qed.

Lemma fail_mono_fetch w fl : respects fail_mono (fetch_and_publish_data w fl).
Proof.
  apply respects_fetch_and_publish_data;
    first [ exact (fail_mono_switch_proxy w) | fail_mono_side ].
Qed.

Lemma fail_mono_on_message w jl fl topic payload :
  respects fail_mono (on_message w jl fl topic payload).
Proof.
  apply respects_on_message;
    first [ exact (fail_mono_switch_proxy w) | fail_mono_side ].
Qed.

Lemma fail_mono_test_proxy w p : respects fail_mono (test_proxy w p).
Proof.
  apply respects_test_proxy; fail_mono_side.
Qed.

Lemma fail_mono_find_working_proxy w :
  respects fail_mono (find_working_proxy w).
Proof.
  apply respects_find_working_proxy; fail_mono_side.
Qed.

Lemma fail_mono_on_connect w fl rc : respects fail_mono (on_connect w fl rc).
Proof.
  unfold on_connect. destruct (rc =? 0); [ | apply respects_ret, fail_mono_refl ].
  apply respects_bind; [ exact fail_mono_trans | | intros _ ].
  - apply respects_modify. intros; apply fail_mono_same; reflexivity.
  - apply respects_bind; [ exact fail_mono_trans | | intros _ ].
    + apply fail_mono_fetch.
    + apply respects_ret, fail_mono_refl.
Qed.

Lemma fail_mono_exec w jl fl c b : fail_mono b (exec w jl fl c b).
Proof.
  destruct c; simpl.
  - apply fail_mono_test_proxy.
  - apply fail_mono_find_working_proxy.
  - apply fail_mono_switch_proxy.
  - apply fail_mono_fetch.
  - apply fail_mono_on_connect.
  - apply fail_mono_same; reflexivity.
  - apply fail_mono_on_message.
Qed.

Lemma fail_mono_reaches b b' : reaches b b' -> fail_mono b b'.
Proof.
  induction 1 as [| b1 w jl fl c _ IH].
  - apply fail_mono_refl.
  - eapply fail_mono_trans; [ exact IH | apply fail_mono_exec ].
Qed.

Lemma blacklisted_count p b :
  blacklisted p (proxy_failures b) = true <-> (3 <= failure_count p b)%nat.
Proof.
  unfold blacklisted, failure_count.
  destruct (proxy_failures b !! p) as [n |]; cbn [default].
  - apply Nat.leb_le.
  - split; [ discriminate | lia ].
Qed.

Lemma test_proxy_blacklisted w p b :
  (3 <= failure_count p b)%nat -> test_proxy w p b = (Ret false, b).
Proof.
  intros H. apply blacklisted_count in H.
  unfold test_proxy, bind, get. rewrite H. reflexivity.
Qed.

Lemma first_working_skips_blacklisted w p l b :
  (3 <= failure_count p b)%nat ->
  fst (first_working w l b) <> Ret (Some p).
Proof.
  revert b. induction l as [| q l IH]; intros b Hp; simpl.
  - discriminate.
  - unfold bind.
    pose proof (fail_mono_test_proxy w q b p) as Hmono.
    destruct (test_proxy w q b) as [[ok | e] b1] eqn:E; simpl in *.
    + destruct ok.
      * simpl. intros Heq. injection Heq as ->.
        rewrite test_proxy_blacklisted in E by exact Hp. discriminate.
      * apply IH. lia.
    + discriminate.
Qed.

Lemma find_working_proxy_skips_blacklisted w p b :
  (3 <= failure_count p b)%nat ->
  fst (find_working_proxy w b) <> Ret (Some p).
Proof.
  intros Hp. unfold find_working_proxy, bind, get, modify.
  destruct (proxy_list b) as [| q l] eqn:El; simpl; [ discriminate | ].
  apply first_working_skips_blacklisted. exact Hp.
Qed.

(** C1: once a candidate's recorded failure count has reached 3,
    [find_working_proxy] never returns it again, whatever calls are made
    on the bridge afterwards and whatever the probes answer. *)
Theorem blacklisted_never_selected :
  forall (p : string) (b b' : Bridge) (w : World),
    (3 <= failure_count p b)%nat ->
    reaches b b' ->
    fst (find_working_proxy w b') <> Ret (Some p).
Proof.
  intros p b b' w Hp Hreach.
  apply find_working_proxy_skips_blacklisted.
  pose proof (fail_mono_reaches b b' Hreach p). lia.
Qed.

(** ** [test_proxy] *)

Lemma test_proxy_probing w p b :
  (failure_count p b < 3)%nat ->
  test_proxy w p b =
  try_except
    (status <- probe_request w p ;;
     modify (emit (EvProbe p (status =? 200))) ;;;
     ret (status =? 200))
    (fun _ =>
       modify (fun b => set_proxy_failures
                          (record_failure p (proxy_failures b)) b) ;;;
       ret false) b.
Proof.
  intros Hlt. unfold test_proxy at 1. unfold bind at 1. unfold get.
  destruct (blacklisted p (proxy_failures b)) eqn:E; [ | reflexivity ].
  apply blacklisted_count in E. lia.
Qed.

(** C2, as the code has it: a candidate whose count has reached 3 is
    answered [False] without a probe; otherwise a probe that raises gives
    [False] and adds exactly one to that candidate's count (and to no
    other), a probe answered with a status other than 200 gives [False]
    and leaves every count as it was, and status 200 gives [True] and
    leaves every count as it was. *)
Theorem test_proxy_outcomes :
  forall (w : World) (p : string) (b : Bridge),
    ((3 <= failure_count p b)%nat -> test_proxy w p b = (Ret false, b)) /\
    ((failure_count p b < 3)%nat ->
     (probe w (tick b) p = HttpRaise ->
      fst (test_proxy w p b) = Ret false /\
      failure_count p (snd (test_proxy w p b)) = S (failure_count p b) /\
      forall q, q <> p ->
        failure_count q (snd (test_proxy w p b)) = failure_count q b) /\
     (forall status body,
        probe w (tick b) p = HttpResponse status body -> status <> 200 ->
        fst (test_proxy w p b) = Ret false /\
        proxy_failures (snd (test_proxy w p b)) = proxy_failures b) /\
     (forall body,
        probe w (tick b) p = HttpResponse 200 body ->
        fst (test_proxy w p b) = Ret true /\
        proxy_failures (snd (test_proxy w p b)) = proxy_failures b)).
Proof.
  intros w p b. split; [ apply test_proxy_blacklisted | ].
  intros Hlt. rewrite (test_proxy_probing w p b Hlt).
  unfold try_except, bind, probe_request, modify, ret.
  split; [ | split ].
  - intros ->. simpl. split; [ reflexivity | split ].
    + apply (failure_count_record_eq p (advance b)).
    + intros q Hq.
      apply (failure_count_record_ne p q (advance b)). congruence.
  - intros status body -> Hne. simpl.
    apply Z.eqb_neq in Hne. rewrite Hne. split; reflexivity.
  - intros body ->. simpl. split; reflexivity.
Qed.

(** C2 fails as stated: the probe of [proxy_a] is answered with status
    500, [test_proxy] returns [False], and the count of [proxy_a] is still
    0, not 1. *)
Lemma test_proxy_status_not_counted :
  probe (fixed_world error_response ok_response false)
        (tick bridge_via_a) proxy_a = HttpResponse 500 None /\
  fst (test_proxy (fixed_world error_response ok_response false)
                  proxy_a bridge_via_a) = Ret false /\
  failure_count proxy_a bridge_via_a = 0%nat /\
  failure_count proxy_a
    (snd (test_proxy (fixed_world error_response ok_response false)
                     proxy_a bridge_via_a)) = 0%nat.
Proof. repeat split; vm_compute; reflexivity. Qed.

Lemma test_proxy_outcomes_witness :
  fst (test_proxy (fixed_world HttpRaise ok_response false)
                  proxy_a bridge_via_a) = Ret false /\
  failure_count proxy_a
    (snd (test_proxy (fixed_world HttpRaise ok_response false)
                     proxy_a bridge_via_a)) = 1%nat /\
  fst (test_proxy (fixed_world error_response ok_response false)
                  proxy_a bridge_via_a) = Ret false /\
  fst (test_proxy (fixed_world ok_response ok_response false)
                  proxy_a bridge_via_a) = Ret true.
Proof.
  assert (Hlt : (failure_count proxy_a bridge_via_a < 3)%nat)
    by (vm_compute; lia).
  destruct (test_proxy_outcomes (fixed_world HttpRaise ok_response false)
              proxy_a bridge_via_a) as [_ H1].
  destruct (H1 Hlt) as [Hraise _].
  destruct (Hraise eq_refl) as [Ha [Hb _]].
  destruct (test_proxy_outcomes (fixed_world error_response ok_response false)
              proxy_a bridge_via_a) as [_ H2].
  destruct (H2 Hlt) as [_ [Hstatus _]].
  destruct (Hstatus 500 None eq_refl ltac:(discriminate)) as [Hc _].
  destruct (test_proxy_outcomes (fixed_world ok_response ok_response false)
              proxy_a bridge_via_a) as [_ H3].
  destruct (H3 Hlt) as [_ [_ Hok]].
  destruct (Hok (Some opensky_body) eq_refl) as [Hd _].
  repeat split; assumption.
Defined.

Lemma blacklisted_never_selected_witness :
  (3 <= failure_count proxy_a
          (set_proxy_failures {[ proxy_a := 3%nat ]} bridge_via_a))%nat /\
  fst (find_working_proxy (fixed_world ok_response ok_response false)
         (exec (fixed_world ok_response ok_response false)
               (fun _ => None) no_float CallSwitch
               (set_proxy_failures {[ proxy_a := 3%nat ]} bridge_via_a)))
  <> Ret (Some proxy_a).
Proof.
  assert (H : (3 <= failure_count proxy_a
                 (set_proxy_failures {[ proxy_a := 3%nat ]} bridge_via_a))%nat)
    by (vm_compute; lia).
  split; [ exact H | ].
  apply (blacklisted_never_selected proxy_a
           (set_proxy_failures {[ proxy_a := 3%nat ]} bridge_via_a)).
  - exact H.
  - apply reaches_call. apply reaches_here.
Defined.

(** ** What never raises *)

Lemma total_ret {A} (a : A) : total (ret a).
Proof. intros b. exists a. reflexivity. Qed.

Lemma total_modify f : total (modify f).
Proof. intros b. exists tt. reflexivity. Qed.

Lemma total_bind {A B} (c : M A) (k : A -> M B) :
  total c -> (forall a, total (k a)) -> total (bind c k).
Proof.
  intros Hc Hk b. unfold bind.
  destruct (Hc b) as [a Ha]. destruct (c b) as [r b1]; simpl in Ha; subst r.
  apply Hk.
Qed.

Lemma total_try_except {A} (c : M A) (h : exn -> M A) :
  (forall e, total (h e)) -> total (try_except c h).
Proof.
  intros Hh b. unfold try_except.
  destruct (c b) as [[a | e] b1]; [ exists a; reflexivity | apply Hh ].
Qed.

Lemma total_test_proxy w p : total (test_proxy w p).
Proof.
  unfold test_proxy. apply total_bind; [ intros b; exists b; reflexivity | ].
  intros b. destruct (blacklisted p (proxy_failures b)); [ apply total_ret | ].
  apply total_try_except. intros _.
  apply total_bind; [ apply total_modify | intros _; apply total_ret ].
Qed.

Lemma total_first_working w l : total (first_working w l).
Proof.
  induction l as [| p l IH]; simpl; [ apply total_ret | ].
  apply total_bind; [ apply total_test_proxy | ].
  intros [|]; [ apply total_ret | exact IH ].
Qed.

Lemma total_find_working_proxy w : total (find_working_proxy w).
Proof.
  unfold find_working_proxy.
  apply total_bind; [ intros b; exists b; reflexivity | ].
  intros b. destruct (proxy_list b); [ apply total_ret | ].
  apply total_bind; [ apply total_modify | intros _ ].
  apply total_first_working.
Qed.

Lemma total_switch_proxy w : total (switch_proxy w).
Proof.
  unfold switch_proxy.
  apply total_bind; [ apply total_find_working_proxy | intros new_proxy ].
  destruct (truthy_proxy new_proxy);
    repeat (apply total_bind; [ apply total_modify | intros _ ]);
    apply total_modify.
Qed.

Lemma switch_proxy_returns w b : fst (switch_proxy w b) = Ret tt.
Proof. destruct (total_switch_proxy w b) as [[] H]. exact H. Qed.

Lemma total_on_error w : total (on_error w).
Proof.
  unfold on_error. apply total_bind; [ intros b; exists b; reflexivity | ].
  intros b. apply total_bind; [ | intros _; apply total_ret ].
  destruct (use_proxy b && truthy_proxy (current_proxy b));
    [ | apply total_ret ].
  apply total_bind; [ apply total_modify | intros _; apply total_switch_proxy ].
Qed.

Lemma total_attempt w fl : total (attempt w fl).
Proof. apply total_try_except. intros _. apply total_on_error. Qed.

(** ** What one loop iteration does *)

Lemma same_fields_refl b : same_fields b b.
Proof. repeat split. Qed.

Lemma same_fields_trans b1 b2 b3 :
  same_fields b1 b2 -> same_fields b2 b3 -> same_fields b1 b3.
Proof.
  unfold same_fields. intros (A1 & A2 & A3 & A4 & A5 & A6 & A7)
                             (B1 & B2 & B3 & B4 & B5 & B6 & B7).
  repeat split; congruence.
Qed.

Lemma publishes_app l1 l2 : publishes (l1 ++ l2) = (publishes l1 + publishes l2)%nat.
Proof. unfold publishes. rewrite List.filter_app, List.length_app. reflexivity. Qed.

Lemma attempts_app l1 l2 : attempts (l1 ++ l2) = (attempts l1 + attempts l2)%nat.
Proof. unfold attempts. rewrite List.filter_app, List.length_app. reflexivity. Qed.

Lemma background_refl b : background b b.
Proof. exists []. repeat split. Qed.

Lemma background_trans b1 b2 b3 :
  background b1 b2 -> background b2 b3 -> background b1 b3.
Proof.
  intros (e1 & X1 & P1 & A1) (e2 & X2 & P2 & A2).
  exists (e2 ++ e1). unfold extends in *. split; [ | split ].
  - rewrite X2, X1. apply List.app_assoc.
  - rewrite publishes_app. lia.
  - rewrite attempts_app. lia.
Qed.

Lemma background_same_trace b b' : trace b' = trace b -> background b b'.
Proof. intros H. exists []. repeat split. exact H. Qed.

Lemma background_emit e b :
  is_publish e = false -> is_attempt e = false -> background b (emit e b).
Proof.
  intros Hp Ha. exists [e]. unfold extends, publishes, attempts. simpl.
  rewrite Hp, Ha. repeat split.
Qed.

Lemma calm_refl b : calm b b.
Proof. split; [ apply same_fields_refl | apply background_refl ]. Qed.

Lemma calm_trans b1 b2 b3 : calm b1 b2 -> calm b2 b3 -> calm b1 b3.
Proof.
  intros [S1 B1] [S2 B2]. split.
  - eapply same_fields_trans; eassumption.
  - eapply background_trans; eassumption.
Qed.

Lemma calm_advance b : calm b (advance b).
Proof.
  split; [ repeat split | apply background_same_trace; reflexivity ].
Qed.

Lemma calm_emit e b :
  is_publish e = false -> is_attempt e = false -> calm b (emit e b).
Proof.
  intros Hp Ha. split; [ repeat split | apply background_emit; assumption ].
Qed.

Lemma calm_fetch_tier1 w fl rp : respects calm (fetch_tier1 w fl rp).
Proof.
  apply respects_fetch_tier1;
    first [ exact calm_refl | exact calm_trans | exact calm_advance
          | intros; apply calm_emit; reflexivity ].
Qed.

Lemma calm_fetch_tier2 w r : respects calm (fetch_tier2 w r).
Proof.
  apply respects_fetch_tier2;
    first [ exact calm_refl | exact calm_trans | exact calm_advance
          | intros; apply calm_emit; reflexivity ].
Qed.

Lemma try_body_cases w fl b :
  exists b1, calm b b1 /\
    ((exists e, try_body w fl b = (Raise e, b1)) \/
     (exists payload,
        try_body w fl b = (Ret true, emit (EvPublish payload) b1)) \/
     try_body w fl b = (Ret false, snd (switch_proxy w b1))).
Proof.
  remember (try_body w fl b) as res eqn:E.
  unfold try_body, fallback_and_publish in E.
  unfold bind, get, lift, ret, raise in E.
  pose proof (calm_fetch_tier1 w fl (last_request_params b) b) as H1.
  destruct (fetch_tier1 w fl (last_request_params b) b) as [[r1 | e] b1];
    simpl in H1; [ | exists b1; split; [ exact H1 | left; eauto ] ].
  pose proof (calm_fetch_tier2 w r1 b1) as H2.
  destruct (fetch_tier2 w r1 b1) as [[r2 | e] b2]; simpl in H2;
    assert (H : calm b b2) by (eapply calm_trans; eassumption);
    [ | exists b2; split; [ exact H | left; eauto ] ].
  destruct r2 as [[status body] |];
    [ | exists b2; split; [ exact H | left; eauto ] ].
  destruct (status =? 200).
  - destruct body as [data |];
      [ | exists b2; split; [ exact H | left; eauto ] ].
    destruct (normalize (now w (tick b2)) data) as [payload | e];
      [ | exists b2; split; [ exact H | left; eauto ] ].
    unfold publish in E.
    destruct (publish_raises w (tick b2));
      (exists (advance b2); split;
       [ eapply calm_trans; [ exact H | apply calm_advance ] | ]);
      [ left; eauto | right; left; eauto ].
  - exists b2. split; [ exact H | ]. right; right.
    pose proof (switch_proxy_returns w b2) as Hs.
    destruct (switch_proxy w b2) as [r b3]. simpl in Hs. subst r. exact E.
Qed.

Lemma aftermath_refl b : aftermath b b.
Proof. split; [ apply background_refl | reflexivity ]. Qed.

Lemma aftermath_trans b1 b2 b3 :
  aftermath b1 b2 -> aftermath b2 b3 -> aftermath b1 b3.
Proof.
  intros [B1 C1] [B2 C2]. split.
  - eapply background_trans; eassumption.
  - congruence.
Qed.

Lemma aftermath_quiet b b' :
  trace b' = trace b -> is_connected b' = is_connected b -> aftermath b b'.
Proof. intros Ht Hc. split; [ apply background_same_trace | ]; assumption. Qed.

Lemma aftermath_emit e b :
  is_publish e = false -> is_attempt e = false -> aftermath b (emit e b).
Proof. intros Hp Ha. split; [ apply background_emit; assumption | reflexivity ]. Qed.

Ltac aftermath_side :=
  first [ exact aftermath_refl | exact aftermath_trans
        | intros; apply aftermath_emit; reflexivity
        | intros; apply aftermath_quiet; reflexivity ].

Lemma aftermath_switch_proxy w : respects aftermath (switch_proxy w).
Proof. apply respects_switch_proxy; aftermath_side. Qed.

Lemma aftermath_on_error w : respects aftermath (on_error w).
Proof.
  apply respects_on_error;
    first [ exact (aftermath_switch_proxy w) | aftermath_side ].
Qed.

Lemma calm_aftermath b b' : calm b b' -> aftermath b b'.
Proof. intros [(C & _) B]. split; assumption. Qed.

Lemma on_error_false w b : fst (on_error w b) = Ret false.
Proof.
  unfold on_error, bind, get, ret.
  destruct (use_proxy b && truthy_proxy (current_proxy b)); [ | reflexivity ].
  unfold modify.
  match goal with |- context [switch_proxy w ?x] =>
    pose proof (switch_proxy_returns w x) as Hs;
    destruct (switch_proxy w x) as [r' b']; simpl in Hs; subst r'
  end. reflexivity.
Qed.

(** The [try] body publishes and reaches its [return] exactly when there
    is something to publish. *)
Lemma try_body_outcome w fl b :
  match publishable w fl b with
  | Some (payload, b2) =>
      try_body w fl b = (Ret true, emit (EvPublish payload) (advance b2)) /\
      calm b b2
  | None => fst (try_body w fl b) <> Ret true
  end.
Proof.
  remember (try_body w fl b) as res eqn:E.
  unfold try_body, fallback_and_publish in E.
  unfold bind, get, lift, ret, raise, publish in E.
  unfold publishable.
  pose proof (calm_fetch_tier1 w fl (last_request_params b) b) as H1.
  destruct (fetch_tier1 w fl (last_request_params b) b) as [[r1 | e] b1];
    simpl in H1; [ | subst res; discriminate ].
  pose proof (calm_fetch_tier2 w r1 b1) as H2.
  destruct (fetch_tier2 w r1 b1) as [[r2 | e] b2];
    simpl in H2; [ | subst res; discriminate ].
  destruct r2 as [[status body] |]; [ | subst res; discriminate ].
  destruct (status =? 200).
  - destruct body as [data |]; [ | subst res; discriminate ].
    simpl in E |- *.
    destruct (normalize (now w (tick b2)) data) as [payload | e];
      destruct (publish_raises w (tick b2));
      subst res; simpl; try discriminate.
    split; [ reflexivity | eapply calm_trans; eassumption ].
  - assert (fst res <> Ret true) as Hne.
    { subst res. destruct (switch_proxy w b2) as [[[] | e] b3];
        simpl; discriminate. }
    destruct body; simpl; exact Hne.
Qed.

Lemma attempt_true w fl b :
  fst (attempt w fl b) = Ret true -> fst (try_body w fl b) = Ret true.
Proof.
  unfold attempt, try_except.
  destruct (try_body w fl b) as [[a | e] b1]; simpl; [ tauto | ].
  rewrite on_error_false. discriminate.
Qed.

(** One iteration either publishes, as its last act, or fails without
    publishing; it never raises. *)
Lemma attempt_cases w fl b :
  (exists payload b1,
     calm b b1 /\ attempt w fl b = (Ret true, emit (EvPublish payload) b1)) \/
  (exists b2, aftermath b b2 /\ attempt w fl b = (Ret false, b2)).
Proof.
  unfold attempt, try_except.
  destruct (try_body_cases w fl b) as (b1 & Hcalm & [[e E] | [[payload E] | E]]);
    rewrite E.
  - right. pose proof (aftermath_on_error w b1) as Hafter.
    assert (fst (on_error w b1) = Ret false) as Hfalse.
    { unfold on_error, bind, get, ret in *.
      destruct (use_proxy b1 && truthy_proxy (current_proxy b1));
        [ | reflexivity ].
      unfold modify.
      match goal with |- context [switch_proxy w ?x] =>
        pose proof (switch_proxy_returns w x) as Hs;
        destruct (switch_proxy w x) as [r' b']; simpl in Hs; subst r'
      end. reflexivity. }
    destruct (on_error w b1) as [r' b2]. simpl in Hafter, Hfalse. subst r'.
    exists b2. split; [ | reflexivity ].
    eapply aftermath_trans; [ apply calm_aftermath; exact Hcalm | exact Hafter ].
  - left. exists payload, b1. split; [ exact Hcalm | reflexivity ].
  - right. exists (snd (switch_proxy w b1)). split; [ | reflexivity ].
    eapply aftermath_trans;
      [ apply calm_aftermath; exact Hcalm | apply aftermath_switch_proxy ].
Qed.

(** ** The retry loop *)

Lemma retry_loop_done w fl fuel n b :
  (max_retries <= n)%nat -> retry_loop w fl fuel n b = (Ret (Some tt), b).
Proof.
  intros Hn. apply Nat.ltb_ge in Hn.
  destruct fuel; cbn [retry_loop]; rewrite Hn; reflexivity.
Qed.

Lemma retry_loop_spec w fl fuel :
  forall n b,
    (max_retries - n <= fuel)%nat ->
    exists evs b',
      retry_loop w fl fuel n b = (Ret (Some tt), b') /\
      extends evs b b' /\
      is_connected b' = is_connected b /\
      (attempts evs <= max_retries - n)%nat /\
      ((publishes evs = 1%nat /\ exists payload rest, evs = EvPublish payload :: rest) \/
       (publishes evs = 0%nat /\ attempts evs = (max_retries - n)%nat)).
Proof.
  induction fuel as [| fuel IH]; intros n b Hfuel.
  - exists [], b. rewrite retry_loop_done by lia.
    repeat split; try (unfold attempts; simpl; lia).
    right. split; [ reflexivity | unfold attempts; simpl; lia ].
  - destruct (Nat.ltb_spec n max_retries) as [Hlt | Hge].
    2:{ exists [], b. rewrite retry_loop_done by lia.
        repeat split; try (unfold attempts; simpl; lia).
        right. split; [ reflexivity | unfold attempts; simpl; lia ]. }
    cbn [retry_loop]. apply Nat.ltb_lt in Hlt. rewrite Hlt.
    apply Nat.ltb_lt in Hlt.
    unfold bind at 1. unfold modify at 1. unfold bind at 1.
    destruct (attempt_cases w fl (emit (EvAttempt n) b))
      as [(payload & b1 & Hcalm & E) | (b2 & Hafter & E)]; rewrite E.
    + destruct Hcalm as [(Hconn & _) (evs1 & X1 & P1 & A1)].
      exists (EvPublish payload :: evs1 ++ [EvAttempt n]),
             (emit (EvPublish payload) b1).
      unfold extends in *. simpl in X1. simpl.
      split; [ reflexivity | ].
      split; [ rewrite X1, <- List.app_assoc; reflexivity | ].
      split; [ exact Hconn | ].
      assert (Hatt : attempts (EvPublish payload :: evs1 ++ [EvAttempt n]) = 1%nat).
      { change (attempts (evs1 ++ [EvAttempt n]) = 1%nat).
        rewrite attempts_app, A1. reflexivity. }
      split; [ rewrite Hatt; lia | ].
      left. split; [ | eauto ].
      change (S (publishes (evs1 ++ [EvAttempt n])) = 1%nat).
      rewrite publishes_app, P1. reflexivity.
    + destruct Hafter as [(evs2 & X2 & P2 & A2) Hconn].
      unfold bind at 1.
      set (b3 := snd ((if (S n <? max_retries)%nat
                       then modify (emit EvSleep) else ret tt) b2)).
      assert (Hb3 : (if (S n <? max_retries)%nat
                     then modify (emit EvSleep) else ret tt) b2 = (Ret tt, b3))
        by (subst b3; destruct (S n <? max_retries)%nat; reflexivity).
      rewrite Hb3.
      assert (H3 : exists evs3, extends evs3 b2 b3 /\ publishes evs3 = 0%nat /\
                                attempts evs3 = 0%nat /\
                                is_connected b3 = is_connected b2).
      { subst b3. destruct (S n <? max_retries)%nat.
        - exists [EvSleep]. repeat split.
        - exists []. repeat split. }
      destruct H3 as (evs3 & X3 & P3 & A3 & C3).
      destruct (IH (S n) b3 ltac:(lia))
        as (evs & b' & Eloop & X & C & Hle & Hout).
      exists (evs ++ evs3 ++ evs2 ++ [EvAttempt n]), b'.
      unfold extends in *. simpl in X2, Hconn.
      split; [ exact Eloop | ].
      split; [ rewrite X, X3, X2, <- !List.app_assoc; reflexivity | ].
      split; [ congruence | ].
      assert (Hatt : attempts (evs ++ evs3 ++ evs2 ++ [EvAttempt n])
                     = S (attempts evs)).
      { rewrite !attempts_app, A3, A2. unfold attempts at 2. simpl. lia. }
      assert (Hpub : publishes (evs ++ evs3 ++ evs2 ++ [EvAttempt n])
                     = publishes evs).
      { rewrite !publishes_app, P3, P2. unfold publishes at 2. simpl. lia. }
      split; [ rewrite Hatt; lia | ].
      rewrite Hatt, Hpub.
      destruct Hout as [(Hp & payload & rest & ->) | (Hp & Ha)].
      * left. split; [ exact Hp | ]. simpl. eauto.
      * right. split; [ exact Hp | lia ].
Qed.

(** Fuel beyond what the loop needs changes nothing. *)
Lemma retry_loop_fuel w fl fuel1 :
  forall fuel2 n b,
    (max_retries - n <= fuel1)%nat -> (max_retries - n <= fuel2)%nat ->
    retry_loop w fl fuel1 n b = retry_loop w fl fuel2 n b.
Proof.
  induction fuel1 as [| fuel1 IH]; intros fuel2 n b H1 H2.
  - rewrite !retry_loop_done by lia. reflexivity.
  - destruct (Nat.ltb_spec n max_retries) as [Hlt | Hge];
      [ | rewrite !retry_loop_done by lia; reflexivity ].
    destruct fuel2 as [| fuel2]; [ lia | ].
    cbn [retry_loop]. apply Nat.ltb_lt in Hlt. rewrite Hlt.
    apply Nat.ltb_lt in Hlt.
    unfold bind, modify.
    destruct (attempt w fl (emit (EvAttempt n) b)) as [[[|] | e] b2];
      try reflexivity.
    destruct (S n <? max_retries)%nat; simpl; apply IH; lia.
Qed.

Lemma fetch_tier2_kept w x b : fetch_tier2 w (Some x) b = (Ret (Some x), b).
Proof. reflexivity. Qed.

Lemma fetch_tier2_fallback w b :
  fetch_tier2 w None b
  = (match tier2 w (tick b) (route b) with
     | HttpRaise => Raise RequestException
     | HttpResponse status body => Ret (Some (status, body))
     end,
     emit (EvTier2 (route b)) (advance b)).
Proof.
  unfold fetch_tier2, bind, get, route, tier2_request.
  fold (proxy_active b). destruct (proxy_active b);
    match goal with |- context [tier2 ?a ?t ?x] =>
      destruct (tier2 a t x) end; reflexivity.
Qed.

(** Without a centre in the cached request, what there is to publish is
    decided by the answer of the OpenSky endpoint. *)
Lemma publishable_uncentred w fl b :
  has_center (last_request_params b) = Ret false ->
  publishable w fl b
  = match tier2 w (tick b) (route b) with
    | HttpResponse status (Some data) =>
        if (status =? 200) && negb (publish_raises w (S (tick b))) then
          match normalize (now w (S (tick b))) data with
          | Ret payload => Some (payload, emit (EvTier2 (route b)) (advance b))
          | Raise _ => None
          end
        else None
    | _ => None
    end.
Proof.
  intros Hc. unfold publishable.
  assert (fetch_tier1 w fl (last_request_params b) b = (Ret None, b)) as ->
    by (unfold fetch_tier1, bind, lift; rewrite Hc; reflexivity).
  rewrite fetch_tier2_fallback.
  destruct (tier2 w (tick b) (route b)) as [| status [data |]]; reflexivity.
Qed.

(** One iteration of the loop that has something to publish. *)
Lemma retry_loop_publishes w fl fuel n b payload b2 :
  (n < max_retries)%nat ->
  publishable w fl (emit (EvAttempt n) b) = Some (payload, b2) ->
  retry_loop w fl (S fuel) n b
  = (Ret (Some tt), emit (EvPublish payload) (advance b2)) /\
  calm (emit (EvAttempt n) b) b2.
Proof.
  intros Hlt Hp.
  pose proof (try_body_outcome w fl (emit (EvAttempt n) b)) as Hout.
  rewrite Hp in Hout. destruct Hout as [E Hcalm]. split; [ | exact Hcalm ].
  cbn [retry_loop]. apply Nat.ltb_lt in Hlt. rewrite Hlt.
  unfold bind at 1. unfold modify at 1. unfold bind at 1.
  unfold attempt, try_except. rewrite E. reflexivity.
Qed.

(** One iteration of the loop that has nothing to publish. *)
Lemma retry_loop_continues w fl fuel n b :
  (n < max_retries)%nat ->
  publishable w fl (emit (EvAttempt n) b) = None ->
  exists b3,
    attempt w fl (emit (EvAttempt n) b) = (Ret false, b3) /\
    aftermath (emit (EvAttempt n) b) b3 /\
    retry_loop w fl (S fuel) n b
    = retry_loop w fl fuel (S n) (after_attempt n b3).
Proof.
  intros Hlt Hp.
  pose proof (try_body_outcome w fl (emit (EvAttempt n) b)) as Hout.
  rewrite Hp in Hout.
  destruct (attempt_cases w fl (emit (EvAttempt n) b))
    as [(payload & b1 & _ & E) | (b3 & Hafter & E)].
  - exfalso. apply Hout. apply attempt_true. rewrite E. reflexivity.
  - exists b3. split; [ exact E | ]. split; [ exact Hafter | ].
    cbn [retry_loop]. apply Nat.ltb_lt in Hlt. rewrite Hlt.
    unfold bind at 1. unfold modify at 1. unfold bind at 1. rewrite E.
    unfold after_attempt, bind, modify, ret.
    destruct (S n <? max_retries)%nat; reflexivity.
Qed.

(** C4: one call of [fetch_and_publish_data] returns normally (it does
    not raise and the loop ends within its three iterations, whatever
    fuel beyond three the loop is given), starts at most 3 attempts, and
    either publishes exactly once, as the very last thing it does, or
    publishes nothing after exactly 3 failed attempts; [is_connected] is
    as before.  An attempt that has something to publish (the answer kept
    has status 200, its body decodes and normalises, the publish does not
    raise) publishes it and ends the loop at once; an attempt that has
    not publishes nothing, returns to the loop and the loop goes on with
    the next attempt, after the sleep when one is due.  The answer kept
    is that of Airplanes.live when there is one, and otherwise what the
    OpenSky endpoint answers by the current route; without a centre in
    the cached request it is the latter alone that decides. *)
Theorem fetch_and_publish_data_bounded :
  forall (w : World) (float_of_str : string -> option float64) (b : Bridge),
    (exists evs b',
       fetch_and_publish_data w float_of_str b = (Ret (Some tt), b') /\
       (forall fuel, retry_loop w float_of_str (max_retries + fuel) 0 b
                     = (Ret (Some tt), b')) /\
       extends evs b b' /\
       is_connected b' = is_connected b /\
       (attempts evs <= 3)%nat /\
       ((publishes evs = 1%nat /\
         exists payload rest, evs = EvPublish payload :: rest) \/
        (publishes evs = 0%nat /\ attempts evs = 3%nat))) /\
    (forall n fuel payload b2,
       (n < max_retries)%nat ->
       publishable w float_of_str (emit (EvAttempt n) b) = Some (payload, b2) ->
       retry_loop w float_of_str (S fuel) n b
       = (Ret (Some tt), emit (EvPublish payload) (advance b2)) /\
       calm (emit (EvAttempt n) b) b2) /\
    (forall n fuel,
       (n < max_retries)%nat ->
       publishable w float_of_str (emit (EvAttempt n) b) = None ->
       exists b3,
         attempt w float_of_str (emit (EvAttempt n) b) = (Ret false, b3) /\
         aftermath (emit (EvAttempt n) b) b3 /\
         retry_loop w float_of_str (S fuel) n b
         = retry_loop w float_of_str fuel (S n) (after_attempt n b3)) /\
    (forall x, fetch_tier2 w (Some x) b = (Ret (Some x), b)) /\
    fetch_tier2 w None b
    = (match tier2 w (tick b) (route b) with
       | HttpRaise => Raise RequestException
       | HttpResponse status body => Ret (Some (status, body))
       end,
       emit (EvTier2 (route b)) (advance b)) /\
    (has_center (last_request_params b) = Ret false ->
     publishable w float_of_str b
     = match tier2 w (tick b) (route b) with
       | HttpResponse status (Some data) =>
           if (status =? 200) && negb (publish_raises w (S (tick b))) then
             match normalize (now w (S (tick b))) data with
             | Ret payload =>
                 Some (payload, emit (EvTier2 (route b)) (advance b))
             | Raise _ => None
             end
           else None
       | _ => None
       end).
Proof.
  intros w fl b. split; [ | split; [ | split; [ | split; [ | split ] ] ] ].
  - destruct (retry_loop_spec w fl max_retries 0 b ltac:(lia))
      as (evs & b' & E & X & C & Hle & Hout).
    exists evs, b'. split; [ exact E | ]. split.
    + intros fuel. rewrite <- E. apply retry_loop_fuel; lia.
    + repeat split; assumption.
  - intros n fuel payload b2. apply retry_loop_publishes.
  - intros n fuel. apply retry_loop_continues.
  - intros x. apply fetch_tier2_kept.
  - apply fetch_tier2_fallback.
  - apply publishable_uncentred.
Qed.

(** A cycle whose first attempt is answered with status 500 and whose
    second is answered with status 200: the failed attempt publishes
    nothing and is followed by a rotation and the sleep, the second
    attempt publishes and ends the cycle. *)
Lemma fetch_and_publish_data_bounded_witness :
  publishable flaky_world no_float (emit (EvAttempt 0) bridge_via_a) = None /\
  (exists b3,
     attempt flaky_world no_float (emit (EvAttempt 0) bridge_via_a)
     = (Ret false, b3) /\
     aftermath (emit (EvAttempt 0) bridge_via_a) b3 /\
     retry_loop flaky_world no_float 3 0 bridge_via_a
     = retry_loop flaky_world no_float 2 1 (after_attempt 0 b3)) /\
  trace (snd (fetch_and_publish_data flaky_world no_float bridge_via_a))
  = [EvPublish opensky_body; EvTier2 (Some proxy_a); EvAttempt 1; EvSleep;
     EvProbe proxy_a true; EvTier2 (Some proxy_a); EvAttempt 0].
Proof.
  split; [ vm_compute; reflexivity | ].
  split; [ | vm_compute; reflexivity ].
  destruct (fetch_and_publish_data_bounded flaky_world no_float bridge_via_a)
    as (_ & _ & Hfail & _).
  apply (Hfail 0%nat 2%nat); [ unfold max_retries; lia | ].
  vm_compute. reflexivity.
Defined.

(** ** Failed attempts and the failure counters *)

Lemma on_error_active w b p :
  proxy_active b = true -> current_proxy b = Some p ->
  on_error w b = (Ret false, snd (switch_proxy w (with_failure p b))).
Proof.
  intros Hact Hcur. unfold on_error, bind, get, ret, modify.
  unfold proxy_active in Hact. rewrite Hact, Hcur. simpl.
  fold (with_failure p b).
  pose proof (switch_proxy_returns w (with_failure p b)) as Hs.
  destruct (switch_proxy w (with_failure p b)) as [r b']. simpl in Hs.
  subst r. reflexivity.
Qed.

Lemma on_error_direct w b :
  proxy_active b = false -> on_error w b = (Ret false, b).
Proof.
  intros Hact. unfold on_error, bind, get, ret.
  unfold proxy_active in Hact. rewrite Hact. reflexivity.
Qed.

Lemma proxy_active_same b b1 :
  same_fields b b1 -> proxy_active b1 = proxy_active b.
Proof.
  intros (_ & Hu & _ & _ & Hc & _). unfold proxy_active. rewrite Hu, Hc.
  reflexivity.
Qed.

Lemma failure_count_same b b1 p :
  same_fields b b1 -> failure_count p b1 = failure_count p b.
Proof.
  intros (_ & _ & _ & _ & _ & Hf & _). unfold failure_count. rewrite Hf.
  reflexivity.
Qed.

Lemma attempt_raised w fl b e b1 :
  try_body w fl b = (Raise e, b1) -> attempt w fl b = on_error w b1.
Proof. intros E. unfold attempt, try_except. rewrite E. reflexivity. Qed.

Lemma attempt_returned w fl b r b1 :
  try_body w fl b = (Ret r, b1) -> attempt w fl b = (Ret r, b1).
Proof. intros E. unfold attempt, try_except. rewrite E. reflexivity. Qed.

(** An iteration whose [try] body raises, while a proxy is in use. *)
Lemma attempt_after_exception w fl b p e :
  proxy_active b = true ->
  current_proxy b = Some p ->
  fst (try_body w fl b) = Raise e ->
  exists b1,
    same_fields b b1 /\
    failure_count p (with_failure p b1) = S (failure_count p b) /\
    (forall q, q <> p ->
       failure_count q (with_failure p b1) = failure_count q b) /\
    attempt w fl b = (Ret false, snd (switch_proxy w (with_failure p b1))).
Proof.
  intros Hact Hcur He'.
  destruct (try_body_cases w fl b)
    as (b1 & [Hsame _] & [[e1 E] | [[payload E] | E]]);
    rewrite E in He'; simpl in He'; try discriminate.
  exists b1. split; [ exact Hsame | ].
  split; [ | split ].
  - unfold with_failure. rewrite failure_count_record_eq.
    f_equal. apply failure_count_same. exact Hsame.
  - intros q Hq. unfold with_failure.
    rewrite failure_count_record_ne by congruence.
    apply failure_count_same. exact Hsame.
  - rewrite (attempt_raised w fl b e1 b1 E).
    apply on_error_active.
    + rewrite (proxy_active_same b b1 Hsame). exact Hact.
    + destruct Hsame as (_ & _ & _ & _ & Hc & _). congruence.
Qed.

(** An iteration whose answer has a status other than 200. *)
Lemma attempt_after_status w fl b :
  fst (try_body w fl b) = Ret false ->
  exists b1,
    same_fields b b1 /\
    attempt w fl b = (Ret false, snd (switch_proxy w b1)).
Proof.
  intros He'.
  destruct (try_body_cases w fl b)
    as (b1 & [Hsame _] & [[e1 E] | [[payload E] | E]]);
    rewrite E in He'; simpl in He'; try discriminate.
  exists b1. split; [ exact Hsame | ].
  apply (attempt_returned w fl b false _ E).
Qed.

(** C3, as the code has it: while a proxy is in use, an attempt that
    fails with an exception records exactly one failure against that
    proxy (its count is one more than before the attempt, the other
    counts are as before) and then rotates; an attempt that fails because
    the answer's status is not 200 rotates without recording anything. *)
Theorem attempt_failure_accounting :
  forall (w : World) (float_of_str : string -> option float64) (b : Bridge)
         (p : string),
    proxy_active b = true ->
    current_proxy b = Some p ->
    (forall e, fst (try_body w float_of_str b) = Raise e ->
       exists b1,
         same_fields b b1 /\
         failure_count p (with_failure p b1) = S (failure_count p b) /\
         (forall q, q <> p ->
            failure_count q (with_failure p b1) = failure_count q b) /\
         attempt w float_of_str b
         = (Ret false, snd (switch_proxy w (with_failure p b1)))) /\
    (fst (try_body w float_of_str b) = Ret false ->
       exists b1,
         same_fields b b1 /\
         attempt w float_of_str b = (Ret false, snd (switch_proxy w b1))).
Proof.
  intros w fl b p Hact Hcur. split.
  - intros e He. exact (attempt_after_exception w fl b p e Hact Hcur He).
  - exact (attempt_after_status w fl b).
Qed.

(** C3 fails as stated: routed through [proxy_a], the OpenSky request is
    answered with status 500; the attempt fails, the bridge rotates (the
    probe of [proxy_a] passes), and no failure has been recorded against
    [proxy_a]. *)
Lemma failed_status_attempt_not_recorded :
  proxy_active bridge_via_a = true /\
  current_proxy bridge_via_a = Some proxy_a /\
  fst (attempt (fixed_world ok_response error_response false) no_float
               bridge_via_a) = Ret false /\
  failure_count proxy_a
    (snd (attempt (fixed_world ok_response error_response false) no_float
                  bridge_via_a)) = 0%nat /\
  List.filter is_attempt
    (trace (snd (fetch_and_publish_data
                   (fixed_world ok_response error_response false) no_float
                   bridge_via_a)))
  = [EvAttempt 2; EvAttempt 1; EvAttempt 0] /\
  failure_count proxy_a
    (snd (fetch_and_publish_data
            (fixed_world ok_response error_response false) no_float
            bridge_via_a)) = 0%nat.
Proof. repeat split; vm_compute; reflexivity. Qed.

Lemma attempt_failure_accounting_witness :
  (exists b1,
     same_fields bridge_via_a b1 /\
     attempt (fixed_world ok_response HttpRaise false) no_float bridge_via_a
     = (Ret false,
        snd (switch_proxy (fixed_world ok_response HttpRaise false)
                          (with_failure proxy_a b1)))) /\
  (exists b1,
     same_fields bridge_via_a b1 /\
     attempt (fixed_world ok_response error_response false) no_float
             bridge_via_a
     = (Ret false,
        snd (switch_proxy (fixed_world ok_response error_response false) b1))).
Proof.
  split.
  - destruct (attempt_failure_accounting
                (fixed_world ok_response HttpRaise false) no_float
                bridge_via_a proxy_a eq_refl eq_refl) as [Hraise _].
    destruct (Hraise RequestException eq_refl) as (b1 & Hs & _ & _ & E).
    exists b1. split; assumption.
  - destruct (attempt_failure_accounting
                (fixed_world ok_response error_response false) no_float
                bridge_via_a proxy_a eq_refl eq_refl) as [_ Hstatus].
    destruct (Hstatus eq_refl) as (b1 & Hs & E).
    exists b1. split; assumption.
Defined.

(** ** Exceptions inside an attempt *)

Lemma retry_loop_failed w fl fuel n b b2 :
  (n < max_retries)%nat ->
  attempt w fl (emit (EvAttempt n) b) = (Ret false, b2) ->
  retry_loop w fl (S fuel) n b
  = retry_loop w fl fuel (S n) (after_attempt n b2).
Proof.
  intros Hlt E. cbn [retry_loop]. apply Nat.ltb_lt in Hlt. rewrite Hlt.
  unfold bind at 1. unfold modify at 1. unfold bind at 1. rewrite E.
  unfold bind at 1. unfold after_attempt.
  destruct (S n <? max_retries)%nat; reflexivity.
Qed.

(** The two raise points the fetch itself survives: the body of a 200
    answer that does not decode, and the publish. *)
Lemma try_body_bad_json w fl b :
  last_request_params b = None ->
  tier2 w (tick b) (if proxy_active b then proxies b else None)
  = HttpResponse 200 None ->
  fst (try_body w fl b) = Raise JSONDecodeError.
Proof.
  intros Hp Ht. unfold try_body, fallback_and_publish, bind, get. rewrite Hp.
  unfold fetch_tier1, bind, lift. simpl. unfold ret.
  unfold fetch_tier2, bind, get. fold (proxy_active b).
  unfold tier2_request.
  destruct (proxy_active b); rewrite Ht; reflexivity.
Qed.

Lemma try_body_publish_fails w fl b data payload :
  last_request_params b = None ->
  tier2 w (tick b) (if proxy_active b then proxies b else None)
  = HttpResponse 200 (Some data) ->
  normalize (now w (S (tick b))) data = Ret payload ->
  publish_raises w (S (tick b)) = true ->
  fst (try_body w fl b) = Raise PublishError.
Proof.
  intros Hp Ht Hn Hpub.
  unfold try_body, fallback_and_publish, bind, get. rewrite Hp.
  unfold fetch_tier1, bind, lift. simpl. unfold ret.
  unfold fetch_tier2, bind, get. fold (proxy_active b).
  unfold tier2_request.
  destruct (proxy_active b); rewrite Ht; simpl; rewrite Hn;
    unfold publish; simpl; rewrite Hpub; reflexivity.
Qed.

(** C10, as the code has it: an exception that leaves the [try] body of
    iteration [n] (raised anywhere but in the Airplanes.live request,
    which has a handler of its own) is caught, the iteration counts as
    failed (the loop goes on with [retry_count = n + 1]), and while a
    proxy is in use that proxy's count grows by one before the bridge
    rotates. *)
Theorem escaped_exception_fails_attempt :
  forall (w : World) (float_of_str : string -> option float64) (b : Bridge)
         (n fuel : nat) (e : exn),
    (n < max_retries)%nat ->
    fst (try_body w float_of_str (emit (EvAttempt n) b)) = Raise e ->
    fst (attempt w float_of_str (emit (EvAttempt n) b)) = Ret false /\
    retry_loop w float_of_str (S fuel) n b
    = retry_loop w float_of_str fuel (S n)
        (after_attempt n (snd (attempt w float_of_str (emit (EvAttempt n) b)))) /\
    (forall p,
       proxy_active b = true -> current_proxy b = Some p ->
       exists b1,
         same_fields b b1 /\
         failure_count p (with_failure p b1) = S (failure_count p b) /\
         snd (attempt w float_of_str (emit (EvAttempt n) b))
         = snd (switch_proxy w (with_failure p b1))).
Proof.
  intros w fl b n fuel e Hlt Hraise.
  assert (Hfalse : fst (attempt w fl (emit (EvAttempt n) b)) = Ret false).
  { destruct (try_body w fl (emit (EvAttempt n) b)) as [r b1] eqn:E.
    simpl in Hraise. subst r.
    rewrite (attempt_raised w fl _ e b1 E). apply on_error_false. }
  split; [ exact Hfalse | ]. split.
  - apply retry_loop_failed; [ exact Hlt | ].
    destruct (attempt w fl (emit (EvAttempt n) b)) as [r b2].
    simpl in Hfalse. subst r. reflexivity.
  - intros p Hact Hcur.
    destruct (attempt_after_exception w fl (emit (EvAttempt n) b) p e
                Hact Hcur Hraise) as (b2 & Hsame & Hcount & _ & Eatt).
    exists b2. split; [ exact Hsame | ]. split; [ exact Hcount | ].
    rewrite Eatt. reflexivity.
Qed.

(** C10 fails as stated: the cached request carries a centre, the
    Airplanes.live request raises inside the attempt, and the attempt
    nevertheless succeeds through OpenSky and publishes; nothing is
    recorded against [proxy_a]. *)
Lemma tier1_exception_absorbed :
  tier1 (fixed_world ok_response ok_response false) (tick bridge_centred)
        (JNum 40) (JNum 75) 250000 = HttpRaise /\
  fst (attempt (fixed_world ok_response ok_response false) no_float
               bridge_centred) = Ret true /\
  trace (snd (attempt (fixed_world ok_response ok_response false) no_float
                      bridge_centred))
  = [EvPublish opensky_body; EvTier2 (Some proxy_a);
     EvTier1 (JNum 40) (JNum 75) 250000] /\
  failure_count proxy_a
    (snd (attempt (fixed_world ok_response ok_response false) no_float
                  bridge_centred)) = 0%nat.
Proof. repeat split; vm_compute; reflexivity. Qed.

Lemma escaped_exception_fails_attempt_witness :
  fst (try_body (fixed_world ok_response (HttpResponse 200 None) false)
                no_float (emit (EvAttempt 0) bridge_via_a))
  = Raise JSONDecodeError /\
  fst (attempt (fixed_world ok_response (HttpResponse 200 None) false)
               no_float (emit (EvAttempt 0) bridge_via_a)) = Ret false /\
  fst (try_body (fixed_world ok_response ok_response true)
                no_float (emit (EvAttempt 0) bridge_via_a))
  = Raise PublishError /\
  fst (attempt (fixed_world ok_response ok_response true)
               no_float (emit (EvAttempt 0) bridge_via_a)) = Ret false.
Proof.
  assert (H0 : (0 < max_retries)%nat) by (unfold max_retries; lia).
  pose proof (try_body_bad_json
                (fixed_world ok_response (HttpResponse 200 None) false)
                no_float (emit (EvAttempt 0) bridge_via_a)
                eq_refl eq_refl) as E1.
  pose proof (try_body_publish_fails
                (fixed_world ok_response ok_response true)
                no_float (emit (EvAttempt 0) bridge_via_a)
                opensky_body opensky_body
                eq_refl eq_refl eq_refl eq_refl) as E2.
  destruct (escaped_exception_fails_attempt
              (fixed_world ok_response (HttpResponse 200 None) false)
              no_float bridge_via_a 0 2 JSONDecodeError H0 E1) as [A1 _].
  destruct (escaped_exception_fails_attempt
              (fixed_world ok_response ok_response true)
              no_float bridge_via_a 0 2 PublishError H0 E2) as [A2 _].
  repeat split; assumption.
Defined.

(** ** The invariant of [use_proxy] and [current_proxy] *)

Lemma test_proxy_true w p b b1 :
  test_proxy w p b = (Ret true, b1) -> In (EvProbe p true) (trace b1).
Proof.
  unfold test_proxy, bind, get.
  destruct (blacklisted p (proxy_failures b)); [ discriminate | ].
  unfold try_except, bind, probe_request, modify, ret.
  destruct (probe w (tick b) p) as [| status body]; [ discriminate | ].
  intros E. injection E as Hs <-. rewrite Hs. simpl. left. reflexivity.
Qed.

Lemma first_working_some w l :
  forall b p b1,
    first_working w l b = (Ret (Some p), b1) ->
    In (EvProbe p true) (trace b1).
Proof.
  induction l as [| q l IH]; intros b p b1; simpl.
  - discriminate.
  - unfold bind. destruct (test_proxy w q b) as [[[|] | e] b2] eqn:E.
    + intros H. injection H as -> <-. eapply test_proxy_true. exact E.
    + apply IH.
    + discriminate.
Qed.

Lemma find_working_proxy_some w b p b1 :
  find_working_proxy w b = (Ret (Some p), b1) ->
  In (EvProbe p true) (trace b1).
Proof.
  unfold find_working_proxy, bind, get, modify.
  destruct (proxy_list b); [ discriminate | ].
  apply first_working_some.
Qed.

Lemma truthy_proxy_some o :
  truthy_proxy o = true -> exists p, o = Some p /\ p <> EmptyString.
Proof.
  destruct o as [p |]; simpl; [ | discriminate ].
  intros H. exists p. split; [ reflexivity | ].
  intros ->. discriminate.
Qed.

Lemma switch_proxy_invariant w b : proxy_invariant (snd (switch_proxy w b)).
Proof.
  unfold switch_proxy, bind.
  destruct (total_find_working_proxy w b) as [o Ho].
  destruct (find_working_proxy w b) as [r b1] eqn:E. simpl in Ho. subst r.
  destruct (truthy_proxy o) eqn:T; unfold modify; simpl.
  - destruct (truthy_proxy_some o T) as (p & -> & Hp).
    intros _. exists p. repeat split; [ exact Hp | ].
    simpl. eapply find_working_proxy_some. exact E.
  - intros H. simpl in H. discriminate.
Qed.

Lemma switch_proxy_none w b :
  fst (find_working_proxy w b) = Ret None ->
  use_proxy (snd (switch_proxy w b)) = false.
Proof.
  unfold switch_proxy, bind.
  destruct (find_working_proxy w b) as [r b1]. simpl. intros ->.
  reflexivity.
Qed.

Lemma keeps_invariant_refl b : keeps_invariant b b.
Proof. intros H. exact H. Qed.

Lemma keeps_invariant_trans b1 b2 b3 :
  keeps_invariant b1 b2 -> keeps_invariant b2 b3 -> keeps_invariant b1 b3.
Proof. unfold keeps_invariant. auto. Qed.

Lemma keeps_invariant_stable b b' :
  use_proxy b' = use_proxy b ->
  current_proxy b' = current_proxy b ->
  (forall e, In e (trace b) -> In e (trace b')) ->
  keeps_invariant b b'.
Proof.
  intros Hu Hc Ht Hinv Huse. rewrite Hu in Huse.
  destruct (Hinv Huse) as (p & Hp & Hne & Hin).
  exists p. rewrite Hc. auto.
Qed.

Ltac keeps_invariant_side :=
  first [ exact keeps_invariant_refl | exact keeps_invariant_trans
        | intros; apply keeps_invariant_stable;
          [ reflexivity | reflexivity | simpl; auto ] ].

Lemma keeps_invariant_switch_proxy w : respects keeps_invariant (switch_proxy w).
Proof. intros b _. apply switch_proxy_invariant. Qed.

Lemma keeps_invariant_exec w jl fl c b : keeps_invariant b (exec w jl fl c b).
Proof.
  destruct c; simpl.
  - apply respects_test_proxy; keeps_invariant_side.
  - apply respects_find_working_proxy; keeps_invariant_side.
  - apply keeps_invariant_switch_proxy.
  - apply respects_fetch_and_publish_data;
      first [ exact (keeps_invariant_switch_proxy w) | keeps_invariant_side ].
  - unfold on_connect. destruct (rc =? 0); [ | apply keeps_invariant_refl ].
    apply respects_bind; [ exact keeps_invariant_trans | | intros _ ].
    + apply respects_modify. keeps_invariant_side.
    + apply respects_bind; [ exact keeps_invariant_trans | | intros _ ].
      * apply respects_fetch_and_publish_data;
          first [ exact (keeps_invariant_switch_proxy w)
                | keeps_invariant_side ].
      * apply respects_ret, keeps_invariant_refl.
  - keeps_invariant_side.
  - apply respects_on_message;
      first [ exact (keeps_invariant_switch_proxy w) | keeps_invariant_side ].
Qed.

Lemma proxy_invariant_reaches b b' :
  proxy_invariant b -> reaches b b' -> proxy_invariant b'.
Proof.
  intros Hinv Hreach. induction Hreach as [| b1 w jl fl c _ IH].
  - exact Hinv.
  - exact (keeps_invariant_exec w jl fl c b1 IH).
Qed.

Lemma stays_direct_refl b : stays_direct b b.
Proof. intros H. exact H. Qed.

Lemma stays_direct_trans b1 b2 b3 :
  stays_direct b1 b2 -> stays_direct b2 b3 -> stays_direct b1 b3.
Proof. unfold stays_direct. auto. Qed.

Ltac stays_direct_side :=
  first [ exact stays_direct_refl | exact stays_direct_trans
        | intros; intros ?; simpl; auto ].

Lemma stays_direct_switch_proxy w : respects stays_direct (switch_proxy w).
Proof. apply respects_switch_proxy; stays_direct_side. Qed.

Lemma stays_direct_exec w jl fl c b : stays_direct b (exec w jl fl c b).
Proof.
  destruct c; simpl.
  - apply respects_test_proxy; stays_direct_side.
  - apply respects_find_working_proxy; stays_direct_side.
  - apply stays_direct_switch_proxy.
  - apply respects_fetch_and_publish_data;
      first [ exact (stays_direct_switch_proxy w) | stays_direct_side ].
  - unfold on_connect. destruct (rc =? 0); [ | apply stays_direct_refl ].
    apply respects_bind; [ exact stays_direct_trans | | intros _ ].
    + apply respects_modify. stays_direct_side.
    + apply respects_bind; [ exact stays_direct_trans | | intros _ ].
      * apply respects_fetch_and_publish_data;
          first [ exact (stays_direct_switch_proxy w) | stays_direct_side ].
      * apply respects_ret, stays_direct_refl.
  - stays_direct_side.
  - apply respects_on_message;
      first [ exact (stays_direct_switch_proxy w) | stays_direct_side ].
Qed.

Lemma stays_direct_reaches b b' :
  use_proxy b = false -> reaches b b' -> use_proxy b' = false.
Proof.
  intros Hd Hreach. induction Hreach as [| b1 w jl fl c _ IH].
  - exact Hd.
  - exact (stays_direct_exec w jl fl c b1 IH).
Qed.

Lemma new_bridge_invariant w file :
  proxy_list (load_proxies_from_csv file blank) <> [] ->
  proxy_invariant (new_bridge w file).
Proof.
  intros Hne. unfold new_bridge, init, bind, modify, get. simpl.
  destruct (proxy_list (load_proxies_from_csv file blank)) as [| q l] eqn:El;
    [ congruence | ].
  assert (Hu : use_proxy (load_proxies_from_csv file blank) = true)
    by (destruct file; reflexivity).
  rewrite Hu. simpl.
  destruct (total_find_working_proxy w (load_proxies_from_csv file blank))
    as [o Ho].
  destruct (find_working_proxy w (load_proxies_from_csv file blank))
    as [r b1] eqn:E. simpl in Ho. subst r.
  destruct (truthy_proxy o) eqn:T; simpl.
  - destruct (truthy_proxy_some o T) as (p & -> & Hp).
    intros _. exists p. repeat split; [ exact Hp | ].
    simpl. eapply find_working_proxy_some. exact E.
  - intros H. simpl in H. discriminate.
Qed.

Lemma new_bridge_none w file :
  proxy_list (load_proxies_from_csv file blank) <> [] ->
  fst (find_working_proxy w (load_proxies_from_csv file blank)) = Ret None ->
  use_proxy (new_bridge w file) = false.
Proof.
  intros Hne Hnone. unfold new_bridge, init, bind, modify, get. simpl.
  destruct (proxy_list (load_proxies_from_csv file blank)) as [| q l] eqn:El;
    [ congruence | ].
  assert (Hu : use_proxy (load_proxies_from_csv file blank) = true)
    by (destruct file; reflexivity).
  rewrite Hu. simpl.
  destruct (find_working_proxy w (load_proxies_from_csv file blank))
    as [r b1]. simpl in Hnone. subst r. reflexivity.
Qed.

(** C5, as the code has it: the invariant holds in every state reached
    from a bridge constructed with at least one candidate, and in every
    state reached after a rotation; when no working candidate is found
    (at construction with a non-empty list, or in a rotation) [use_proxy]
    is cleared, and once cleared it stays cleared. *)
Theorem proxy_invariant_maintained :
  (forall w file b,
     proxy_list (load_proxies_from_csv file blank) <> [] ->
     reaches (new_bridge w file) b -> proxy_invariant b) /\
  (forall w b b',
     reaches (snd (switch_proxy w b)) b' -> proxy_invariant b') /\
  (forall w file,
     proxy_list (load_proxies_from_csv file blank) <> [] ->
     fst (find_working_proxy w (load_proxies_from_csv file blank)) = Ret None ->
     use_proxy (new_bridge w file) = false) /\
  (forall w b,
     fst (find_working_proxy w b) = Ret None ->
     use_proxy (snd (switch_proxy w b)) = false) /\
  (forall b b', use_proxy b = false -> reaches b b' -> use_proxy b' = false).
Proof.
  split; [ | split; [ | split; [ | split ] ] ].
  - intros w file b Hne Hreach.
    eapply proxy_invariant_reaches; [ | exact Hreach ].
    apply new_bridge_invariant. exact Hne.
  - intros w b b' Hreach.
    eapply proxy_invariant_reaches; [ | exact Hreach ].
    apply switch_proxy_invariant.
  - apply new_bridge_none.
  - apply switch_proxy_none.
  - apply stays_direct_reaches.
Qed.

(** C5 fails as stated: constructed without a candidate file (or with a
    file that holds no candidate), the bridge has [use_proxy] set and no
    current proxy. *)
Lemma new_bridge_without_candidates :
  use_proxy (new_bridge (fixed_world ok_response ok_response false) None)
  = true /\
  current_proxy (new_bridge (fixed_world ok_response ok_response false) None)
  = None /\
  use_proxy (new_bridge (fixed_world ok_response ok_response false)
                        (Some [["host"; "port"]])) = true /\
  current_proxy (new_bridge (fixed_world ok_response ok_response false)
                            (Some [["host"; "port"]])) = None.
Proof. repeat split. Qed.

(** A rotation that succeeds after [use_proxy] was cleared sets
    [current_proxy] and leaves [use_proxy] cleared. *)
Lemma rotation_does_not_reenable :
  use_proxy (snd (switch_proxy (fixed_world ok_response ok_response false)
                               (set_use_proxy false bridge_via_a))) = false /\
  current_proxy (snd (switch_proxy (fixed_world ok_response ok_response false)
                                   (set_use_proxy false bridge_via_a)))
  = Some proxy_a.
Proof. split; vm_compute; reflexivity. Qed.

Lemma proxy_invariant_maintained_witness :
  proxy_invariant
    (exec (fixed_world ok_response error_response false) (fun _ => None)
          no_float CallFetch
          (new_bridge (fixed_world ok_response ok_response false)
                      (Some [[proxy_a]; [proxy_b]]))) /\
  use_proxy
    (snd (switch_proxy (fixed_world error_response ok_response false)
                       bridge_via_a)) = false.
Proof.
  destruct proxy_invariant_maintained as (Hinit & _ & _ & Hnone & _).
  split.
  - apply (Hinit (fixed_world ok_response ok_response false)
                 (Some [[proxy_a]; [proxy_b]])).
    + vm_compute. discriminate.
    + apply reaches_call. apply reaches_here.
  - apply Hnone. vm_compute. reflexivity.
Defined.

(** ** The radius of the geo-scoped request *)

Lemma trunc_floor x :
  (0 <= x)%Q -> Z.quot (Qnum x) (Zpos (Qden x)) = Qfloor x.
Proof.
  intros Hx. destruct x as [num den]. unfold Qfloor. simpl.
  unfold Qle in Hx. simpl in Hx.
  apply Z.quot_div_nonneg; lia.
Qed.

Lemma Qle_bool_false a b : Qle_bool a b = false -> (b < a)%Q.
Proof.
  intros H. apply Qnot_le_lt. intros Hle.
  apply Qle_bool_iff in Hle. congruence.
Qed.

Lemma py_min_value p :
  py_min (Int 400000) (Float p)
  = match f64_value p with
    | Real x => if Qle_bool 400000 x then Int 400000 else Float p
    | MinusInf => Float p
    | _ => Int 400000
    end.
Proof.
  unfold py_min, num_ltb, num_value.
  change (inject_Z 400000) with 400000%Q.
  destruct (f64_value p) as [| | x |]; try reflexivity.
  destruct (Qle_bool 400000 x); reflexivity.
Qed.

(** The distance, whatever float the product is. *)
Lemma radius_m_value rk :
  radius_m rk
  = Ret match f64_value (f64_mul rk (f64_of_Q 1000)) with
        | Real x => Qfloor (clamp x 10000 400000)
        | MinusInf => 10000
        | _ => 400000
        end.
Proof.
  unfold radius_m. generalize (f64_mul rk (f64_of_Q 1000)). intros p.
  rewrite py_min_value.
  destruct (f64_value p) as [| | x |] eqn:E; try reflexivity.
  - unfold py_max, num_ltb. simpl. rewrite E. reflexivity.
  - unfold clamp. destruct (Qle_bool 400000 x) eqn:E1.
    + apply Qle_bool_iff in E1.
      destruct (Qle_bool x 10000) eqn:E2; [ | reflexivity ].
      apply Qle_bool_iff in E2. exfalso.
      assert (400000 <= 10000)%Q as Habs by (eapply Qle_trans; eassumption).
      unfold Qle in Habs. simpl in Habs. lia.
    + unfold py_max, num_ltb. simpl. rewrite E.
      change (inject_Z 10000) with 10000%Q.
      destruct (Qle_bool x 10000) eqn:E2; simpl; [ reflexivity | ].
      rewrite E. rewrite trunc_floor; [ reflexivity | ].
      apply Qle_bool_false in E2. apply Qlt_le_weak.
      eapply Qle_lt_trans; [ | exact E2 ]. discriminate.
Qed.

Lemma clamp_bounds x : (10000 <= clamp x 10000 400000 <= 400000)%Q.
Proof.
  unfold clamp. destruct (Qle_bool x 10000) eqn:E1.
  - split; [ apply Qle_refl | discriminate ].
  - apply Qle_bool_false in E1.
    destruct (Qle_bool 400000 x) eqn:E2.
    + split; [ discriminate | apply Qle_refl ].
    + apply Qle_bool_false in E2. split; apply Qlt_le_weak; assumption.
Qed.

Lemma radius_m_in_bounds rk :
  exists dist, radius_m rk = Ret dist /\ 10000 <= dist <= 400000.
Proof.
  rewrite radius_m_value. eexists. split; [ reflexivity | ].
  destruct (f64_value (f64_mul rk (f64_of_Q 1000))) as [| | x |]; try lia.
  destruct (clamp_bounds x) as [Hlo Hhi].
  pose proof (Qfloor_resp_le _ _ Hlo) as Hlo'.
  pose proof (Qfloor_resp_le _ _ Hhi) as Hhi'.
  change (Qfloor 10000) with 10000 in Hlo'.
  change (Qfloor 400000) with 400000 in Hhi'. lia.
Qed.

(** What [fetch_tier1] does once the request is prepared. *)
Lemma fetch_tier1_centred w fl b v lat lon rk dist :
  has_center (Some v) = Ret true ->
  py_get "center_lat" JNull v = Ret lat ->
  py_get "center_lon" JNull v = Ret lon ->
  radius_km_of fl v = Ret rk ->
  radius_m rk = Ret dist ->
  fetch_tier1 w fl (Some v) b
  = (Ret match tier1 w (tick b) lat lon dist with
         | HttpResponse status body =>
             if status =? 200 then Some (status, body) else None
         | HttpRaise => None
         end,
     emit (EvTier1 lat lon dist) (advance b)).
Proof.
  intros Hc Hlat Hlon Hrk Hdist.
  unfold fetch_tier1, bind, lift. rewrite Hc. simpl.
  rewrite Hlat, Hlon, Hrk, Hdist.
  unfold try_except, tier1_request, ret.
  destruct (tier1 w (tick b) lat lon dist) as [| status body];
    [ reflexivity | ].
  destruct (status =? 200); reflexivity.
Qed.

(** C6, as the code has it: [radius_km] is turned into a float, the
    product with 1000 is a float product, and the distance sent is the
    clamp of that product to [10000, 400000] cut down to a whole number of
    metres by [int] (an infinite or undefined product gives a bound); so
    it is the clamp of the specification whenever the product is exact and
    the clamp is whole.  [radius_km] is 250 when the cached request has no
    such key; 1 km gives 10000, 1000 km gives 400000, the default gives
    250000. *)
Theorem tier1_distance :
  (forall rk,
     radius_m rk
     = Ret match f64_value (f64_mul rk (f64_of_Q 1000)) with
           | Real x => Qfloor (clamp x 10000 400000)
           | MinusInf => 10000
           | _ => 400000
           end) /\
  (forall rk x z,
     f64_value (f64_mul rk (f64_of_Q 1000)) = Real x ->
     (clamp x 10000 400000 == inject_Z z)%Q -> radius_m rk = Ret z) /\
  (forall float_of_str fields,
     assoc "radius_km" fields = None ->
     radius_km_of float_of_str (JObj fields) = Ret (f64_of_Q 250)) /\
  (forall w float_of_str v b lat lon rk,
     has_center (Some v) = Ret true ->
     py_get "center_lat" JNull v = Ret lat ->
     py_get "center_lon" JNull v = Ret lon ->
     radius_km_of float_of_str v = Ret rk ->
     exists dist,
       radius_m rk = Ret dist /\
       trace (snd (fetch_tier1 w float_of_str (Some v) b))
       = EvTier1 lat lon dist :: trace b) /\
  radius_m (f64_of_Q 1) = Ret 10000 /\
  radius_m (f64_of_Q 1000) = Ret 400000 /\
  radius_m (f64_of_Q 250) = Ret 250000.
Proof.
  split; [ exact radius_m_value | ].
  split; [ | split; [ | split ] ].
  - intros rk x z Hx Hz. rewrite radius_m_value, Hx.
    rewrite (Qfloor_comp _ _ Hz), Qfloor_Z. reflexivity.
  - intros fl fields Hnone. unfold radius_km_of. simpl. rewrite Hnone.
    reflexivity.
  - intros w fl v b lat lon rk Hc Hlat Hlon Hrk.
    destruct (radius_m_in_bounds rk) as (dist & Hdist & _).
    exists dist. split; [ exact Hdist | ].
    rewrite (fetch_tier1_centred w fl b v lat lon rk dist Hc Hlat Hlon Hrk Hdist).
    reflexivity.
  - repeat split; vm_compute; reflexivity.
Qed.

(** C6 fails as stated: a radius of 16385/1024 km is a float, its product
    with 1000 is exact, the clamp is 16000.9765625 and the distance sent
    is 16000. *)
Lemma fractional_radius_truncated :
  radius_km_of no_float fractional_request = Ret (f64_of_Q (16385 # 1024)) /\
  f64_exact (f64_of_Q (16385 # 1024)) (16385 # 1024) /\
  f64_exact (f64_mul (f64_of_Q (16385 # 1024)) (f64_of_Q 1000))
            ((16385 # 1024) * 1000) /\
  (clamp ((16385 # 1024) * 1000) 10000 400000 == 2048125 # 128)%Q /\
  radius_m (f64_of_Q (16385 # 1024)) = Ret 16000 /\
  ~ (inject_Z 16000 == 2048125 # 128)%Q /\
  trace (snd (fetch_tier1 (fixed_world ok_response ok_response false)
                          no_float (Some fractional_request) bridge_via_a))
  = [EvTier1 (JNum 40) (JNum 75) 16000].
Proof.
  split; [ vm_compute; reflexivity | ].
  split; [ vm_compute; reflexivity | ].
  split; [ vm_compute; reflexivity | ].
  split; [ reflexivity | ].
  split; [ vm_compute; reflexivity | ].
  split; [ discriminate | vm_compute; reflexivity ].
Qed.

(** The product is a float product: 10.001 is not a float, the float in
    its place is a little below it, and the product with 1000 rounds to
    10001 exactly, which is the distance sent; the real product of that
    float with 1000 is below 10001. *)
Lemma rounded_product_sent :
  f64_of_Q (10001 # 1000) = S754_finite false 5630062484166541 (-49) /\
  (5630062484166541 # Pos.pow 2 49 < 10001 # 1000)%Q /\
  f64_exact (f64_mul (f64_of_Q (10001 # 1000)) (f64_of_Q 1000)) 10001 /\
  radius_m (f64_of_Q (10001 # 1000)) = Ret 10001 /\
  Qfloor (clamp ((5630062484166541 # Pos.pow 2 49) * 1000) 10000 400000)
  = 10000.
Proof.
  split; [ vm_compute; reflexivity | ].
  split; [ vm_compute; reflexivity | ].
  split; [ vm_compute; reflexivity | ].
  split; vm_compute; reflexivity.
Qed.

Lemma tier1_distance_witness :
  radius_m (f64_of_Q (5 # 2)) = Ret 10000 /\
  radius_km_of no_float centred_request = Ret (f64_of_Q 250) /\
  trace (snd (fetch_tier1 (fixed_world ok_response ok_response false)
                          no_float (Some centred_request) bridge_via_a))
  = [EvTier1 (JNum 40) (JNum 75) 250000].
Proof.
  destruct tier1_distance as (_ & Hwhole & Hdefault & Hsent & _).
  split.
  { eapply (Hwhole (f64_of_Q (5 # 2)) _ 10000);
      [ vm_compute; reflexivity | reflexivity ]. }
  split; [ apply (Hdefault no_float); reflexivity | ].
  destruct (Hsent (fixed_world ok_response ok_response false) no_float
                  centred_request bridge_via_a (JNum 40) (JNum 75)
                  (f64_of_Q 250) eq_refl eq_refl eq_refl eq_refl)
    as (dist & Hdist & Htrace).
  vm_compute in Hdist. injection Hdist as <-. exact Htrace.
Defined.

(** The rounding to a float leaves the value of a float as it is, here on
    the floats of the examples. *)
Lemma f64_of_Q_on_floats :
  f64_value (S754_finite false 5630062484166541 (-49))
  = Real (5630062484166541 # Pos.pow 2 49) /\
  f64_of_Q (5630062484166541 # Pos.pow 2 49)
  = S754_finite false 5630062484166541 (-49) /\
  f64_exact (f64_of_Q 250) 250 /\
  f64_exact (f64_of_Q (5 # 2)) (5 # 2) /\
  f64_exact (f64_of_Q (-3)) (-3).
Proof. repeat split; vm_compute; reflexivity. Qed.

(** ** Loading the candidates *)

Lemma load_rows_spec rows :
  forall proxy_list,
    load_rows rows proxy_list
    = proxy_list ++ List.map (List.hd EmptyString) (List.filter accepted rows).
Proof.
  induction rows as [| row rows IH]; intros pl; simpl.
  - rewrite List.app_nil_r. reflexivity.
  - rewrite IH. destruct (accepted row); simpl.
    + rewrite <- List.app_assoc. reflexivity.
    + reflexivity.
Qed.

(** C8, as the code has it: the rows whose first field starts with
    [socks4://] are accepted and no other; the first field of every
    accepted row is appended, in the order of the file and as often as it
    occurs; without a file nothing changes. *)
Theorem load_appends_accepted :
  forall (rows : list (list string)) (b : Bridge),
    proxy_list (load_proxies_from_csv (Some rows) b)
    = proxy_list b
      ++ List.map (List.hd EmptyString) (List.filter accepted rows) /\
    (forall p,
       In p (List.map (List.hd EmptyString) (List.filter accepted rows)) <->
       exists rest, In (p :: rest) rows /\ String.prefix "socks4://" p = true) /\
    load_proxies_from_csv None b = b.
Proof.
  intros rows b. split; [ apply load_rows_spec | ].
  split; [ | reflexivity ].
  intros p. rewrite List.in_map_iff. split.
  - intros (row & Hhd & Hin). apply List.filter_In in Hin as [Hin Hacc].
    destruct row as [| first rest]; [ discriminate | ].
    simpl in Hhd, Hacc. subst first. exists rest. split; assumption.
  - intros (rest & Hin & Hpre). exists (p :: rest). split; [ reflexivity | ].
    apply List.filter_In. split; assumption.
Qed.

(** C8 fails as stated: a file that lists [proxy_a] twice gives a
    candidate list with [proxy_a] twice. *)
Lemma load_keeps_duplicates :
  proxy_list (load_proxies_from_csv (Some [[proxy_a]; [proxy_a]]) blank)
  = [proxy_a; proxy_a] /\
  ~ List.NoDup (proxy_list (load_proxies_from_csv
                              (Some [[proxy_a]; [proxy_a]]) blank)).
Proof.
  split; [ reflexivity | ].
  intros H. inversion H as [| x l Hnotin _]. apply Hnotin. left. reflexivity.
Qed.

(** ** Trigger payloads *)

Lemma fetch_and_publish_data_returns w fl b :
  fetch_and_publish_data w fl b
  = (Ret (Some tt), snd (fetch_and_publish_data w fl b)).
Proof.
  destruct (retry_loop_spec w fl max_retries 0 b ltac:(lia))
    as (evs & b' & E & _).
  unfold fetch_and_publish_data. rewrite E. reflexivity.
Qed.

Lemma on_message_plain w jl fl text b :
  jl text = None ->
  py_lower (py_strip text) = "update" ->
  on_message w jl fl request_topic (Some text) b
  = (Ret tt, snd (fetch_and_publish_data w fl b)).
Proof.
  intros Hjl Hup.
  unfold on_message, try_except, try_except_json, bind, lift, ret.
  simpl. rewrite Hjl, Hup. simpl.
  rewrite fetch_and_publish_data_returns. reflexivity.
Qed.

Lemma on_message_structured w jl fl text request_data b :
  jl text = Some request_data ->
  py_get "command" JNull request_data = Ret (JStr "update") ->
  on_message w jl fl request_topic (Some text) b
  = (Ret tt,
     snd (fetch_and_publish_data w fl
            (set_last_request_params (Some request_data) b))).
Proof.
  intros Hjl Hcmd.
  unfold on_message, try_except, try_except_json, bind, lift, ret, modify.
  simpl. rewrite Hjl, Hcmd. simpl.
  rewrite fetch_and_publish_data_returns. reflexivity.
Qed.

Lemma fetch_keeps_params w fl :
  respects (fun b b' => last_request_params b' = last_request_params b)
           (fetch_and_publish_data w fl).
Proof.
  apply respects_fetch_and_publish_data;
    try (intros; reflexivity); try (intros; congruence).
  apply respects_switch_proxy;
    try (intros; reflexivity); intros; congruence.
Qed.

(** *** The cycle depends on the cached request through its centre only *)

Section Frames.

Variable v : option json.
Variable w : World.

Lemma frames_ret {A} (a : A) : frames v (ret a).
Proof. intros b. reflexivity. Qed.

Lemma frames_raise {A} (e : exn) : frames v (@raise A e).
Proof. intros b. reflexivity. Qed.

Lemma frames_lift {A} (r : result A) : frames v (lift r).
Proof. intros b. reflexivity. Qed.

Lemma frames_modify f :
  (forall b, f (set_last_request_params v b)
             = set_last_request_params v (f b)) ->
  frames v (modify f).
Proof. intros Hf b. unfold modify. simpl. rewrite Hf. reflexivity. Qed.

Lemma frames_bind {A B} (c : M A) (k : A -> M B) :
  frames v c -> (forall a, frames v (k a)) -> frames v (bind c k).
Proof.
  intros Hc Hk b. unfold bind. rewrite Hc.
  destruct (c b) as [[a | e] b1]; simpl; [ apply Hk | reflexivity ].
Qed.

Lemma frames_get_bind {B} (k : Bridge -> M B) :
  (forall b, k (set_last_request_params v b) = k b) ->
  (forall a, frames v (k a)) ->
  frames v (bind get k).
Proof.
  intros Hsame Hk b. unfold bind, get. rewrite Hsame. apply Hk.
Qed.

Lemma frames_try_except {A} (c : M A) (h : exn -> M A) :
  frames v c -> (forall e, frames v (h e)) -> frames v (try_except c h).
Proof.
  intros Hc Hh b. unfold try_except. rewrite Hc.
  destruct (c b) as [[a | e] b1]; simpl; [ reflexivity | apply Hh ].
Qed.

Lemma frames_probe_request p : frames v (probe_request w p).
Proof.
  intros b. unfold probe_request. simpl.
  destruct (probe w (tick b) p); reflexivity.
Qed.

Lemma frames_test_proxy p : frames v (test_proxy w p).
Proof.
  unfold test_proxy. apply frames_get_bind; [ reflexivity | intros b ].
  destruct (blacklisted p (proxy_failures b)); [ apply frames_ret | ].
  apply frames_try_except.
  - apply frames_bind; [ apply frames_probe_request | intros status ].
    apply frames_bind; [ | intros _; apply frames_ret ].
    apply frames_modify. reflexivity.
  - intros _. apply frames_bind; [ | intros _; apply frames_ret ].
    apply frames_modify. reflexivity.
Qed.

Lemma frames_first_working l : frames v (first_working w l).
Proof.
  induction l as [| p l IH]; simpl; [ apply frames_ret | ].
  apply frames_bind; [ apply frames_test_proxy | ].
  intros [|]; [ apply frames_ret | exact IH ].
Qed.

Lemma frames_find_working_proxy : frames v (find_working_proxy w).
Proof.
  unfold find_working_proxy. apply frames_get_bind; [ reflexivity | intros b ].
  destruct (proxy_list b); [ apply frames_ret | ].
  apply frames_bind; [ apply frames_modify; reflexivity | intros _ ].
  apply frames_first_working.
Qed.

Lemma frames_switch_proxy : frames v (switch_proxy w).
Proof.
  unfold switch_proxy.
  apply frames_bind; [ apply frames_find_working_proxy | intros o ].
  destruct (truthy_proxy o);
    repeat (apply frames_bind; [ apply frames_modify; reflexivity | intros _ ]);
    apply frames_modify; reflexivity.
Qed.

Lemma frames_tier2_request via : frames v (tier2_request w via).
Proof.
  intros b. unfold tier2_request. simpl.
  destruct (tier2 w (tick b) via); reflexivity.
Qed.

Lemma frames_publish payload : frames v (publish w payload).
Proof.
  intros b. unfold publish. simpl.
  destruct (publish_raises w (tick b)); reflexivity.
Qed.

Lemma frames_fetch_tier2 r : frames v (fetch_tier2 w r).
Proof.
  unfold fetch_tier2. destruct r; [ apply frames_ret | ].
  apply frames_get_bind; [ reflexivity | intros b ].
  destruct (use_proxy b && truthy_proxy (current_proxy b));
    apply frames_tier2_request.
Qed.

Lemma frames_fallback_and_publish r1 : frames v (fallback_and_publish w r1).
Proof.
  unfold fallback_and_publish.
  apply frames_bind; [ apply frames_fetch_tier2 | intros r2 ].
  destruct r2 as [[status body] |]; [ | apply frames_raise ].
  destruct (status =? 200).
  - apply frames_bind; [ apply frames_lift | intros data ].
    apply frames_get_bind; [ reflexivity | intros b' ].
    apply frames_bind; [ apply frames_lift | intros payload ].
    apply frames_bind; [ apply frames_publish | intros _; apply frames_ret ].
  - apply frames_bind; [ apply frames_switch_proxy | intros _ ].
    apply frames_ret.
Qed.

Lemma frames_on_error : frames v (on_error w).
Proof.
  unfold on_error. apply frames_get_bind; [ reflexivity | intros b ].
  apply frames_bind; [ | intros _; apply frames_ret ].
  destruct (use_proxy b && truthy_proxy (current_proxy b));
    [ | apply frames_ret ].
  apply frames_bind; [ apply frames_modify; reflexivity | intros _ ].
  apply frames_switch_proxy.
Qed.

Variable float_of_str : string -> option float64.

Lemma fetch_tier1_skipped rp b :
  has_center rp = Ret false -> fetch_tier1 w float_of_str rp b = (Ret None, b).
Proof.
  intros H. unfold fetch_tier1, bind, lift. rewrite H. reflexivity.
Qed.

Lemma try_body_skips_tier1 b :
  has_center (last_request_params b) = Ret false ->
  try_body w float_of_str b = fallback_and_publish w None b.
Proof.
  intros H. unfold try_body. unfold bind at 1. unfold get at 1.
  unfold bind at 1. rewrite (fetch_tier1_skipped _ b H). reflexivity.
Qed.

Hypothesis v_no_centre : has_center v = Ret false.

Lemma attempt_recached b :
  has_center (last_request_params b) = Ret false ->
  attempt w float_of_str (set_last_request_params v b)
  = (fst (attempt w float_of_str b),
     set_last_request_params v (snd (attempt w float_of_str b))).
Proof.
  intros H. unfold attempt, try_except.
  rewrite (try_body_skips_tier1 b H).
  rewrite (try_body_skips_tier1 (set_last_request_params v b) v_no_centre).
  rewrite frames_fallback_and_publish.
  destruct (fallback_and_publish w None b) as [[a | e] b1]; simpl;
    [ reflexivity | apply frames_on_error ].
Qed.

Lemma attempt_keeps_params b :
  last_request_params (snd (attempt w float_of_str b))
  = last_request_params b.
Proof.
  apply (respects_attempt
           (fun b b' => last_request_params b' = last_request_params b));
    try (intros; reflexivity); try (intros; congruence).
  apply respects_switch_proxy;
    try (intros; reflexivity); intros; congruence.
Qed.

Lemma retry_loop_recached fuel :
  forall n b,
    has_center (last_request_params b) = Ret false ->
    retry_loop w float_of_str fuel n (set_last_request_params v b)
    = (fst (retry_loop w float_of_str fuel n b),
       set_last_request_params v (snd (retry_loop w float_of_str fuel n b))).
Proof.
  induction fuel as [| fuel IH]; intros n b H; cbn [retry_loop];
    destruct (n <? max_retries)%nat; try reflexivity.
  unfold bind, modify, ret.
  change (emit (EvAttempt n) (set_last_request_params v b))
    with (set_last_request_params v (emit (EvAttempt n) b)).
  rewrite (attempt_recached (emit (EvAttempt n) b) H).
  pose proof (attempt_keeps_params (emit (EvAttempt n) b)) as Hkeep.
  destruct (attempt w float_of_str (emit (EvAttempt n) b)) as [[[|] | e] b2];
    simpl in Hkeep |- *; try reflexivity.
  destruct (S n <? max_retries)%nat; simpl.
  - change (emit EvSleep (set_last_request_params v b2))
      with (set_last_request_params v (emit EvSleep b2)).
    apply IH. simpl. congruence.
  - apply IH. congruence.
Qed.

End Frames.

(** Whether the preparation of the geo-scoped request raises depends on
    the cached request alone, and when it does nothing has happened. *)
Lemma fetch_tier1_raise_pure w fl rp b e :
  fst (fetch_tier1 w fl rp b) = Raise e ->
  forall w' b', fetch_tier1 w' fl rp b' = (Raise e, b').
Proof.
  unfold fetch_tier1, bind, lift.
  destruct (has_center rp) as [[|] | e0]; simpl.
  - destruct (py_get "center_lat" JNull (default JNull rp)) as [lat | e1];
      simpl; [ | intros H w' b'; congruence ].
    destruct (py_get "center_lon" JNull (default JNull rp)) as [lon | e2];
      simpl; [ | intros H w' b'; congruence ].
    destruct (radius_km_of fl (default JNull rp)) as [rk | e3];
      simpl; [ | intros H w' b'; congruence ].
    destruct (radius_m rk) as [dist | e4];
      simpl; [ | intros H w' b'; congruence ].
    unfold try_except, bind, tier1_request, ret.
    destruct (tier1 w (tick b) lat lon dist) as [| status body];
      simpl; [ discriminate | ].
    destruct (status =? 200); discriminate.
  - discriminate.
  - intros H w' b'. congruence.
Qed.

Section Starved.

Variable rp : option json.
Variable e : exn.
Variable float_of_str : string -> option float64.
Hypothesis unreadable :
  forall w b, fetch_tier1 w float_of_str rp b = (Raise e, b).

Lemma starved_refl b : starved rp b b.
Proof.
  intros H. split; [ exact H | ]. exists []. repeat split.
Qed.

Lemma starved_trans b1 b2 b3 :
  starved rp b1 b2 -> starved rp b2 b3 -> starved rp b1 b3.
Proof.
  intros H12 H23 H1.
  destruct (H12 H1) as (H2 & e1 & X1 & Q1 & P1).
  destruct (H23 H2) as (H3 & e2 & X2 & Q2 & P2).
  split; [ exact H3 | ]. exists (e2 ++ e1). unfold extends in *.
  split; [ rewrite X2, X1; apply List.app_assoc | ].
  rewrite List.existsb_app, Q1, Q2, publishes_app, P1, P2. split; reflexivity.
Qed.

Lemma starved_quiet b b' :
  last_request_params b' = last_request_params b -> trace b' = trace b ->
  starved rp b b'.
Proof.
  intros Hl Ht H. split; [ congruence | ]. exists [].
  split; [ exact Ht | split; reflexivity ].
Qed.

Lemma starved_emit ev b :
  is_request ev = false -> is_publish ev = false -> starved rp b (emit ev b).
Proof.
  intros Hr Hp H. split; [ exact H | ]. exists [ev].
  split; [ reflexivity | ].
  unfold publishes. simpl. rewrite Hr, Hp. split; reflexivity.
Qed.

Ltac starved_side :=
  first [ exact starved_refl | exact starved_trans
        | intros; apply starved_quiet; reflexivity
        | intros; apply starved_emit; reflexivity ].

Lemma starved_switch_proxy w : respects (starved rp) (switch_proxy w).
Proof. apply respects_switch_proxy; starved_side. Qed.

Lemma starved_try_body w : respects (starved rp) (try_body w float_of_str).
Proof.
  intros b H. unfold try_body, bind, get. rewrite H, unreadable. simpl.
  apply (starved_refl b H).
Qed.

Lemma starved_fetch w :
  respects (starved rp) (fetch_and_publish_data w float_of_str).
Proof.
  apply loop_fetch; try starved_side.
  - apply starved_try_body.
  - apply respects_on_error;
      first [ exact (starved_switch_proxy w) | starved_side ].
Qed.

End Starved.

(** A cycle on a cached request whose preparation raises: three attempts,
    no request, no publish. *)
Lemma unreadable_cycle w fl b e :
  fst (fetch_tier1 w fl (last_request_params b) b) = Raise e ->
  exists evs b',
    fetch_and_publish_data w fl b = (Ret (Some tt), b') /\
    extends evs b b' /\
    attempts evs = 3%nat /\
    publishes evs = 0%nat /\
    existsb is_request evs = false /\
    last_request_params b' = last_request_params b.
Proof.
  intros Hraise.
  pose proof (fetch_tier1_raise_pure w fl _ b e Hraise) as Hpure.
  destruct (retry_loop_spec w fl max_retries 0 b ltac:(lia))
    as (evs & b' & E & X & _ & _ & Hout).
  destruct (starved_fetch (last_request_params b) e fl Hpure w b eq_refl)
    as (Hl & evs' & X' & Hreq & Hpub).
  unfold fetch_and_publish_data in *. rewrite E in *. simpl in *.
  assert (evs' = evs) as ->.
  { unfold extends in *. rewrite X in X'.
    apply List.app_inv_tail in X'. congruence. }
  exists evs, b'. repeat split; try assumption.
  destruct Hout as [[Hone _] | [_ Hthree]]; [ congruence | exact Hthree ].
Qed.

(** *** A cached request without a centre *)

Section SkipsTier1.

Variable rp : option json.
Variable float_of_str : string -> option float64.
Hypothesis no_centre : has_center rp = Ret false.

Lemma skips_tier1_refl b : skips_tier1 rp b b.
Proof. intros H. split; [ exact H | apply only_refl ]. Qed.

Lemma skips_tier1_trans b1 b2 b3 :
  skips_tier1 rp b1 b2 -> skips_tier1 rp b2 b3 -> skips_tier1 rp b1 b3.
Proof.
  intros H12 H23 H1.
  destruct (H12 H1) as (H2 & O1). destruct (H23 H2) as (H3 & O2).
  split; [ exact H3 | eapply only_trans; eassumption ].
Qed.

Lemma skips_tier1_quiet b b' :
  last_request_params b' = last_request_params b -> trace b' = trace b ->
  skips_tier1 rp b b'.
Proof.
  intros Hl Ht H. split; [ congruence | apply only_quiet; exact Ht ].
Qed.

Lemma skips_tier1_emit ev b :
  not_tier1 ev = true -> skips_tier1 rp b (emit ev b).
Proof. intros He H. split; [ exact H | apply only_emit; exact He ]. Qed.

Ltac skips_tier1_side :=
  first [ exact skips_tier1_refl | exact skips_tier1_trans
        | intros; apply skips_tier1_quiet; reflexivity
        | intros; apply skips_tier1_emit; reflexivity ].

Variable w : World.

Lemma skips_tier1_switch_proxy : respects (skips_tier1 rp) (switch_proxy w).
Proof. apply respects_switch_proxy; skips_tier1_side. Qed.

Lemma skips_tier1_on_error : respects (skips_tier1 rp) (on_error w).
Proof.
  apply respects_on_error;
    first [ exact skips_tier1_switch_proxy | skips_tier1_side ].
Qed.

Lemma skips_tier1_publish payload :
  respects (skips_tier1 rp) (publish w payload).
Proof. apply respects_publish; skips_tier1_side. Qed.

Lemma skips_tier1_answered x :
  respects (skips_tier1 rp) (fallback_and_publish w (Some x)).
Proof.
  apply built_answered;
    first [ exact skips_tier1_publish | exact skips_tier1_switch_proxy
          | skips_tier1_side ].
Qed.

Lemma skips_tier1_fallback r :
  respects (skips_tier1 rp) (fallback_and_publish w r).
Proof.
  assert (Hfetch : respects (skips_tier1 rp) (fetch_tier2 w r))
    by (apply respects_fetch_tier2; skips_tier1_side).
  intros b.
  exact (skips_tier1_trans _ _ _ (Hfetch b)
           (tail_fallback (skips_tier1 rp) skips_tier1_refl w
              skips_tier1_answered r b)).
Qed.

Lemma skips_tier1_try_body :
  respects (skips_tier1 rp) (try_body w float_of_str).
Proof.
  intros b H.
  rewrite (try_body_skips_tier1 w float_of_str b)
    by (rewrite H; exact no_centre).
  exact (skips_tier1_fallback None b H).
Qed.

Lemma skips_tier1_retry_loop fuel n :
  respects (skips_tier1 rp) (retry_loop w float_of_str fuel n).
Proof.
  apply loop_retry_loop;
    first [ exact skips_tier1_try_body | exact skips_tier1_on_error
          | skips_tier1_side ].
Qed.

(** The cycle starts with the OpenSky request, by the route of the
    moment, and sends no geo-scoped request. *)
Lemma uncentred_cycle b :
  last_request_params b = rp ->
  exists evs,
    trace (snd (fetch_and_publish_data w float_of_str b))
    = evs ++ EvTier2 (route b) :: EvAttempt 0 :: trace b /\
    forallb not_tier1 evs = true.
Proof.
  intros H.
  assert (Hbody : try_body w float_of_str (emit (EvAttempt 0) b)
                  = fallback_and_publish w None (emit (EvAttempt 0) b)).
  { apply try_body_skips_tier1. simpl. rewrite H. exact no_centre. }
  pose proof (tail_loop (skips_tier1 rp) skips_tier1_refl skips_tier1_trans
                w float_of_str skips_tier1_answered skips_tier1_on_error
                ltac:(skips_tier1_side) skips_tier1_retry_loop
                2 0%nat b None _ ltac:(unfold max_retries; lia) Hbody)
    as Htail.
  rewrite fetch_tier2_fallback in Htail.
  destruct (Htail H) as (_ & evs & X & Hev).
  exists evs. split; [ exact X | exact Hev ].
Qed.

End SkipsTier1.

(** With a readable centre cached, the [try] body is the geo-scoped
    request followed by the rest of the body on what it returned. *)
Lemma try_body_centred w fl b v lat lon rk dist :
  last_request_params b = Some v ->
  has_center (Some v) = Ret true ->
  py_get "center_lat" JNull v = Ret lat ->
  py_get "center_lon" JNull v = Ret lon ->
  radius_km_of fl v = Ret rk ->
  radius_m rk = Ret dist ->
  try_body w fl b
  = fallback_and_publish w
      match tier1 w (tick b) lat lon dist with
      | HttpResponse status body =>
          if status =? 200 then Some (status, body) else None
      | HttpRaise => None
      end
      (emit (EvTier1 lat lon dist) (advance b)).
Proof.
  intros Hp Hc Hlat Hlon Hrk Hdist.
  unfold try_body. unfold bind at 1. unfold get at 1. unfold bind at 1.
  rewrite Hp.
  rewrite (fetch_tier1_centred w fl b v lat lon rk dist Hc Hlat Hlon Hrk Hdist).
  reflexivity.
Qed.

(** With a readable centre cached, the cycle starts with the geo-scoped
    request. *)
Lemma centred_cycle w fl b v lat lon rk dist :
  last_request_params b = Some v ->
  has_center (Some v) = Ret true ->
  py_get "center_lat" JNull v = Ret lat ->
  py_get "center_lon" JNull v = Ret lon ->
  radius_km_of fl v = Ret rk ->
  radius_m rk = Ret dist ->
  exists evs,
    trace (snd (fetch_and_publish_data w fl b))
    = evs ++ EvTier1 lat lon dist :: EvAttempt 0 :: trace b.
Proof.
  intros Hp Hc Hlat Hlon Hrk Hdist.
  pose proof (try_body_centred w fl (emit (EvAttempt 0) b) v lat lon rk dist
                Hp Hc Hlat Hlon Hrk Hdist) as Hbody.
  assert (Htier1 : forall rp, respects (only any_event) (fetch_tier1 w fl rp)).
  { intros rp. apply respects_fetch_tier1;
      first [ exact (only_refl any_event) | exact (only_trans any_event)
            | intros; apply only_quiet; reflexivity
            | intros; apply only_emit; reflexivity ]. }
  pose proof (tail_loop (only any_event) (only_refl any_event)
                (only_trans any_event) w fl
                (only_answered any_event ltac:(reflexivity)
                   ltac:(reflexivity) w)
                (only_on_error any_event ltac:(reflexivity) w)
                ltac:(intros; apply only_emit; reflexivity)
                (only_retry_loop any_event ltac:(reflexivity)
                   ltac:(reflexivity) ltac:(reflexivity)
                   ltac:(reflexivity) ltac:(reflexivity) w fl Htier1)
                2 0%nat b _ _ ltac:(unfold max_retries; lia) Hbody)
    as Htail.
  match type of Htail with
  | only _ (snd (fetch_tier2 _ ?r ?b1)) _ =>
      pose proof (only_fetch_tier2 any_event ltac:(reflexivity) w r b1)
        as Hreq
  end.
  destruct (only_trans any_event _ _ _ Hreq Htail) as (evs & X & _).
  exists evs. exact X.
Qed.


Lemma set_last_request_params_same v b :
  last_request_params b = v -> set_last_request_params v b = b.
Proof. intros <-. destruct b. reflexivity. Qed.

(** C7, as the code has it: the two plain texts trigger the same cycle,
    run on the session as it is; the structured payload first replaces
    the cached request by the decoded object and then runs the cycle,
    which therefore starts with the OpenSky request and never sends a
    geo-scoped one.  When the centre test on the cached request evaluates
    to false the structured cycle does what the plain one does and ends
    in the same state but for the cached request; when the cached request
    already is that object the three agree altogether; when a readable
    centre is cached the plain cycle starts with the geo-scoped request;
    when the preparation of that request raises on the cached request
    (the centre test itself, or the radius) the plain cycle makes its
    three attempts without any request and without publishing. *)
Theorem update_triggers :
  forall (w : World) (json_loads : string -> option json)
         (float_of_str : string -> option float64) (b : Bridge),
    json_loads structured_update = Some update_command ->
    json_loads plain_update = None ->
    json_loads padded_update = None ->
    on_message w json_loads float_of_str request_topic (Some plain_update) b
    = (Ret tt, snd (fetch_and_publish_data w float_of_str b)) /\
    on_message w json_loads float_of_str request_topic (Some padded_update) b
    = (Ret tt, snd (fetch_and_publish_data w float_of_str b)) /\
    on_message w json_loads float_of_str request_topic
               (Some structured_update) b
    = (Ret tt,
       snd (fetch_and_publish_data w float_of_str
              (set_last_request_params (Some update_command) b))) /\
    last_request_params
      (snd (on_message w json_loads float_of_str request_topic
                       (Some plain_update) b))
    = last_request_params b /\
    last_request_params
      (snd (on_message w json_loads float_of_str request_topic
                       (Some structured_update) b))
    = Some update_command /\
    (has_center (last_request_params b) = Ret false ->
     on_message w json_loads float_of_str request_topic
                (Some structured_update) b
     = (Ret tt,
        set_last_request_params (Some update_command)
          (snd (on_message w json_loads float_of_str request_topic
                           (Some plain_update) b)))) /\
    (last_request_params b = Some update_command ->
     on_message w json_loads float_of_str request_topic
                (Some structured_update) b
     = on_message w json_loads float_of_str request_topic
                  (Some plain_update) b) /\
    (exists evs,
       trace (snd (on_message w json_loads float_of_str request_topic
                              (Some structured_update) b))
       = evs ++ EvTier2 (route b) :: EvAttempt 0 :: trace b /\
       forallb not_tier1 evs = true) /\
    (forall v lat lon rk dist,
       last_request_params b = Some v ->
       has_center (Some v) = Ret true ->
       py_get "center_lat" JNull v = Ret lat ->
       py_get "center_lon" JNull v = Ret lon ->
       radius_km_of float_of_str v = Ret rk ->
       radius_m rk = Ret dist ->
       exists evs,
         trace (snd (on_message w json_loads float_of_str request_topic
                                (Some plain_update) b))
         = evs ++ EvTier1 lat lon dist :: EvAttempt 0 :: trace b) /\
    (forall e,
       fst (fetch_tier1 w float_of_str (last_request_params b) b) = Raise e ->
       exists evs,
         extends evs b
           (snd (on_message w json_loads float_of_str request_topic
                            (Some plain_update) b)) /\
         attempts evs = 3%nat /\
         publishes evs = 0%nat /\
         existsb is_request evs = false).
Proof.
  intros w jl fl b Hs Hp Hpad.
  pose proof (on_message_plain w jl fl plain_update b Hp eq_refl) as E1.
  pose proof (on_message_plain w jl fl padded_update b Hpad eq_refl) as E2.
  pose proof (on_message_structured w jl fl structured_update
                update_command b Hs eq_refl) as E3.
  split; [ exact E1 | ]. split; [ exact E2 | ]. split; [ exact E3 | ].
  split; [ | split; [ | split; [ | split; [ | split; [ | split ] ] ] ] ].
  - rewrite E1. simpl. apply fetch_keeps_params.
  - rewrite E3. simpl.
    rewrite (fetch_keeps_params w fl
               (set_last_request_params (Some update_command) b)).
    reflexivity.
  - intros Hnone. rewrite E3, E1. simpl.
    unfold fetch_and_publish_data.
    rewrite (retry_loop_recached (Some update_command) w fl eq_refl
               max_retries 0%nat b Hnone).
    reflexivity.
  - intros Hsame. rewrite E3, E1.
    rewrite (set_last_request_params_same _ b Hsame). reflexivity.
  - rewrite E3.
    exact (uncentred_cycle (Some update_command) fl eq_refl w
             (set_last_request_params (Some update_command) b) eq_refl).
  - intros v lat lon rk dist Hv Hc Hlat Hlon Hrk Hdist. rewrite E1.
    exact (centred_cycle w fl b v lat lon rk dist Hv Hc Hlat Hlon Hrk Hdist).
  - intros e Hraise. rewrite E1.
    destruct (unreadable_cycle w fl b e Hraise)
      as (evs & b' & E & X & Ha & Hpub & Hreq & _).
    exists evs. rewrite E. simpl. repeat split; assumption.
Qed.

(** The triggers differ as well when the cached request is a number: the
    centre test raises on it, so the plain text triggers three failed
    attempts, which blacklist the proxy and leave the bridge in direct
    mode, while the structured payload replaces the number and
    publishes. *)
Lemma cached_number_distinguishes_triggers :
  has_center (Some (JNum 5)) = Raise TypeError /\
  trace (snd (on_message (fixed_world ok_response ok_response false)
                loads_update_only no_float request_topic
                (Some plain_update)
                (set_last_request_params (Some (JNum 5)) bridge_via_a)))
  = [EvAttempt 2; EvSleep; EvProbe proxy_a true; EvAttempt 1; EvSleep;
     EvProbe proxy_a true; EvAttempt 0] /\
  use_proxy (snd (on_message (fixed_world ok_response ok_response false)
                    loads_update_only no_float request_topic
                    (Some plain_update)
                    (set_last_request_params (Some (JNum 5)) bridge_via_a)))
  = false /\
  trace (snd (on_message (fixed_world ok_response ok_response false)
                loads_update_only no_float request_topic
                (Some structured_update)
                (set_last_request_params (Some (JNum 5)) bridge_via_a)))
  = [EvPublish opensky_body; EvTier2 (Some proxy_a); EvAttempt 0].
Proof. repeat split; vm_compute; reflexivity. Qed.

(** C7 fails as stated: with a centre cached, the plain text triggers a
    cycle that asks Airplanes.live first and keeps the cached request;
    the structured payload triggers one that goes to OpenSky at once and
    leaves the bare command cached. *)
Lemma structured_update_forgets_centre :
  loads_update_only structured_update = Some update_command /\
  loads_update_only plain_update = None /\
  loads_update_only padded_update = None /\
  trace (snd (on_message (fixed_world ok_response ok_response false)
                loads_update_only no_float request_topic
                (Some plain_update) bridge_centred))
  = [EvPublish opensky_body; EvTier2 (Some proxy_a);
     EvTier1 (JNum 40) (JNum 75) 250000; EvAttempt 0] /\
  trace (snd (on_message (fixed_world ok_response ok_response false)
                loads_update_only no_float request_topic
                (Some structured_update) bridge_centred))
  = [EvPublish opensky_body; EvTier2 (Some proxy_a); EvAttempt 0] /\
  last_request_params
    (snd (on_message (fixed_world ok_response ok_response false)
            loads_update_only no_float request_topic
            (Some plain_update) bridge_centred))
  = Some centred_request /\
  last_request_params
    (snd (on_message (fixed_world ok_response ok_response false)
            loads_update_only no_float request_topic
            (Some structured_update) bridge_centred))
  = Some update_command.
Proof. repeat split; vm_compute; reflexivity. Qed.

Lemma update_triggers_witness :
  on_message (fixed_world ok_response ok_response false)
             loads_update_only no_float request_topic
             (Some padded_update) bridge_centred
  = on_message (fixed_world ok_response ok_response false)
               loads_update_only no_float request_topic
               (Some plain_update) bridge_centred /\
  on_message (fixed_world ok_response ok_response false)
             loads_update_only no_float request_topic
             (Some structured_update) bridge_via_a
  = (Ret tt,
     set_last_request_params (Some update_command)
       (snd (on_message (fixed_world ok_response ok_response false)
               loads_update_only no_float request_topic
               (Some plain_update) bridge_via_a))) /\
  exists evs,
    extends evs (set_last_request_params (Some (JNum 5)) bridge_via_a)
      (snd (on_message (fixed_world ok_response ok_response false)
              loads_update_only no_float request_topic
              (Some plain_update)
              (set_last_request_params (Some (JNum 5)) bridge_via_a))) /\
    attempts evs = 3%nat /\
    publishes evs = 0%nat /\
    existsb is_request evs = false.
Proof.
  split; [ | split ].
  - destruct (update_triggers (fixed_world ok_response ok_response false)
                loads_update_only no_float bridge_centred
                eq_refl eq_refl eq_refl) as (E1 & E2 & _).
    rewrite E1, E2. reflexivity.
  - destruct (update_triggers (fixed_world ok_response ok_response false)
                loads_update_only no_float bridge_via_a
                eq_refl eq_refl eq_refl) as (_ & _ & _ & _ & _ & Hnone & _).
    apply Hnone. reflexivity.
  - destruct (update_triggers (fixed_world ok_response ok_response false)
                loads_update_only no_float
                (set_last_request_params (Some (JNum 5)) bridge_via_a)
                eq_refl eq_refl eq_refl)
      as (_ & _ & _ & _ & _ & _ & _ & _ & _ & Hraise).
    apply (Hraise TypeError). reflexivity.
Defined.

(** * Further properties *)

(** ** Normalisation of the providers' answers *)

Lemma truthy_not_null v : truthy v = true -> is_null v = false.
Proof. destruct v; simpl; intros H; congruence. Qed.

Lemma py_or_not_null x d : is_null d = false -> is_null (py_or x d) = false.
Proof.
  intros Hd. unfold py_or. destruct (truthy x) eqn:E;
    [ apply truthy_not_null; exact E | exact Hd ].
Qed.

Lemma normalize_aircraft_canonical f :
  exists s, normalize_aircraft (JObj f) = Ret s /\ canonical_state s = true.
Proof.
  eexists. split; [ reflexivity | ].
  assert (Halt : is_null
            match py_or (field "alt_baro" f) (field "alt_baro_ft" f) with
            | JNull => JNum 0
            | x => x
            end = false)
    by (destruct (py_or (field "alt_baro" f) (field "alt_baro_ft" f));
        reflexivity).
  cbn. unfold slot_ok. cbn.
  rewrite Halt. rewrite !py_or_not_null by reflexivity. reflexivity.
Qed.

Lemma py_or_pick f key1 key2 fallback :
  py_or (py_or (field key1 f) (field key2 f)) fallback
  = pick f [key1; key2] fallback.
Proof.
  unfold py_or. simpl.
  destruct (truthy (field key1 f)) eqn:E1; [ rewrite E1; reflexivity | ].
  destruct (truthy (field key2 f)) eqn:E2; reflexivity.
Qed.

Lemma normalize_aircraft_state f :
  exists s, normalize_aircraft (JObj f) = Ret s /\ state_of (JObj f) s.
Proof.
  eexists. split; [ reflexivity | ].
  exists f. eexists. split; [ reflexivity | ]. split; [ reflexivity | ].
  split; [ reflexivity | ].
  intros i. destruct i as [| i]; [ apply py_or_pick | ].
  do 16 (destruct i as [| i]; [ reflexivity | ]).
  destruct i; reflexivity.
Qed.

Lemma rmap_normalize_aircraft acs :
  forallb is_object acs = true ->
  exists states,
    rmap normalize_aircraft acs = Ret states /\
    List.length states = List.length acs /\
    forallb canonical_state states = true /\
    Forall2 state_of acs states.
Proof.
  induction acs as [| ac acs IH]; intros Hall.
  - exists []. repeat split. constructor.
  - simpl in Hall. apply andb_prop in Hall as [Hac Hrest].
    destruct ac as [| | | | | f]; try discriminate.
    destruct (normalize_aircraft_canonical f) as (s & Es & Hs).
    destruct (normalize_aircraft_state f) as (s' & Es' & Hstate).
    assert (s' = s) as -> by congruence.
    destruct (IH Hrest) as (states & Estates & Hlen & Hcan & Hpos).
    exists (s :: states). cbn [rmap]. rewrite Es, Estates. simpl.
    rewrite Hlen, Hs, Hcan. repeat split.
    constructor; assumption.
Qed.



(** The states of that answer, entry by entry. *)
Lemma normalize_airplanes_live_example :
  normalize 7 (JObj [("ac", JList [JObj [("hex", JStr "a1b2c3");
                                         ("lat", JNum 40)];
                                   JObj []])])
  = Ret (JObj [("time", JNum 7);
               ("states",
                JList [JList [JStr "a1b2c3"; JStr EmptyString;
                              JStr EmptyString; JNull; JNull;
                              JNum 0; JNum 40; JNum 0; JBool false;
                              JNum 0; JNum 0; JNum 0;
                              JNull; JNull; JNull; JNull; JNull];
                       JList [JStr EmptyString; JStr EmptyString;
                              JStr EmptyString; JNull; JNull;
                              JNum 0; JNum 0; JNum 0; JBool false;
                              JNum 0; JNum 0; JNum 0;
                              JNull; JNull; JNull; JNull; JNull]])]).
Proof. reflexivity. Qed.

Lemma rmap_normalize_aircraft_fails acs :
  forallb is_object acs = false ->
  rmap normalize_aircraft acs = Raise AttributeError.
Proof.
  induction acs as [| ac acs IH]; intros Hall; [ discriminate | ].
  simpl in Hall. apply andb_false_iff in Hall as [Hac | Hrest].
  - destruct ac; try discriminate; reflexivity.
  - cbn [rmap]. destruct ac; try reflexivity.
    destruct (normalize_aircraft_canonical fields) as (s & Es & _).
    rewrite Es. simpl. rewrite (IH Hrest). reflexivity.
Qed.

(** X2: an answer that is a dict without a list under [ac] (the OpenSky
    shape) is published as it is when [states] is absent or something
    [len] accepts; when [states] is null, a number or a Boolean the
    normalisation raises [TypeError]. *)
Theorem normalize_passes_opensky :
  forall (time : Z) (fields : list (string * json)),
    match assoc "ac" fields with
    | Some (JList _) => False
    | _ => True
    end ->
    normalize time (JObj fields)
    = match assoc "states" fields with
      | None => Ret (JObj fields)
      | Some states =>
          if has_len states then Ret (JObj fields) else Raise TypeError
      end.
Proof.
  intros time fields Hac. unfold normalize. simpl.
  destruct (assoc "ac" fields) as [ac |] eqn:E; simpl.
  - destruct ac; try contradiction; simpl;
      (destruct (assoc "states" fields) as [[] |]; reflexivity).
  - destruct (assoc "states" fields) as [[] |]; reflexivity.
Qed.

Lemma normalize_passes_opensky_witness :
  normalize 0 opensky_body = Ret opensky_body /\
  normalize 0 (JObj [("time", JNum 0); ("states", JNull)]) = Raise TypeError.
Proof.
  split.
  - apply (normalize_passes_opensky 0
             [("time", JNum 0); ("states", JList [])] I).
  - apply (normalize_passes_opensky 0
             [("time", JNum 0); ("states", JNull)] I).
Defined.

Lemma normalize_needs_dict_aux time data :
  is_object data = false -> exists e, normalize time data = Raise e.
Proof.
  intros Hobj. destruct data as [| b | q | s | items | fields];
    try discriminate; unfold normalize; simpl;
    try (eexists; reflexivity).
  - destruct (is_substring "ac" s); eexists; reflexivity.
  - destruct (existsb (is_str "ac") items); eexists; reflexivity.
Qed.

(** X3: only a dict is ever normalised: a decoded answer of any other
    type raises, and so does an [ac] list with an entry that is not a
    dict. *)
Theorem normalize_needs_dict :
  forall (time : Z) (data : json),
    (is_object data = false -> exists e, normalize time data = Raise e) /\
    (forall fields acs,
       data = JObj fields ->
       assoc "ac" fields = Some (JList acs) ->
       forallb is_object acs = false ->
       normalize time data = Raise AttributeError).
Proof.
  intros time data. split.
  - apply normalize_needs_dict_aux.
  - intros fields acs -> Hac Hall. unfold normalize. simpl. rewrite Hac.
    simpl. rewrite (rmap_normalize_aircraft_fails acs Hall). reflexivity.
Qed.

Lemma normalize_needs_dict_witness :
  (exists e, normalize 0 (JList [JStr "ac"]) = Raise e) /\
  normalize 0 (JObj [("ac", JList [JObj []; JNum 3])]) = Raise AttributeError.
Proof.
  split.
  - apply (normalize_needs_dict 0 (JList [JStr "ac"])). reflexivity.
  - apply (normalize_needs_dict 0 (JObj [("ac", JList [JObj []; JNum 3])])
             ) with (fields := [("ac", JList [JObj []; JNum 3])])
                    (acs := [JObj []; JNum 3]); reflexivity.
Defined.

(** ** What a message does to the bridge *)

(** X4: a message on another topic, a payload that does not decode as
    text, and a plain text other than [update] leave the bridge exactly
    as it was: no request, no publish, nothing cached. *)
Theorem on_message_ignored :
  forall (w : World) (json_loads : string -> option json)
         (float_of_str : string -> option float64)
         (topic : string) (payload : option string) (b : Bridge),
    (topic <> request_topic ->
     on_message w json_loads float_of_str topic payload b = (Ret tt, b)) /\
    (payload = None ->
     on_message w json_loads float_of_str topic payload b = (Ret tt, b)) /\
    (forall text,
       payload = Some text ->
       json_loads text = None ->
       py_lower (py_strip text) <> "update" ->
       on_message w json_loads float_of_str topic payload b = (Ret tt, b)).
Proof.
  intros w jl fl topic payload b. split; [ | split ].
  - intros Hne. apply String.eqb_neq in Hne.
    unfold on_message, try_except, bind, lift, ret.
    destruct payload; [ rewrite Hne | ]; reflexivity.
  - intros ->. reflexivity.
  - intros text -> Hjl Hup. apply String.eqb_neq in Hup.
    unfold on_message, try_except, try_except_json, bind, lift, ret.
    destruct (String.eqb topic request_topic); [ | reflexivity ].
    rewrite Hjl. simpl. rewrite Hup. reflexivity.
Qed.

Lemma on_message_ignored_witness :
  on_message (fixed_world ok_response ok_response false) loads_update_only
             no_float "aircraft/traffic" (Some plain_update) bridge_via_a
  = (Ret tt, bridge_via_a) /\
  on_message (fixed_world ok_response ok_response false) loads_update_only
             no_float request_topic (Some "status") bridge_via_a
  = (Ret tt, bridge_via_a).
Proof.
  split.
  - destruct (on_message_ignored (fixed_world ok_response ok_response false)
                loads_update_only no_float "aircraft/traffic"
                (Some plain_update) bridge_via_a) as [Htopic _].
    apply Htopic. intros H. discriminate H.
  - destruct (on_message_ignored (fixed_world ok_response ok_response false)
                loads_update_only no_float request_topic
                (Some "status") bridge_via_a) as (_ & _ & Htext).
    apply (Htext "status"); [ reflexivity | reflexivity | ].
    intros H. vm_compute in H. discriminate H.
Defined.

(** X5: whatever [json.loads] accepts on the request topic replaces the
    cached request, also when it is not an object or its command is not
    [update]; in those cases nothing is fetched. *)
Theorem on_message_caches_any_json :
  forall (w : World) (json_loads : string -> option json)
         (float_of_str : string -> option float64)
         (text : string) (request_data : json) (b : Bridge),
    json_loads text = Some request_data ->
    py_get "command" JNull request_data <> Ret (JStr "update") ->
    on_message w json_loads float_of_str request_topic (Some text) b
    = (Ret tt, set_last_request_params (Some request_data) b).
Proof.
  intros w jl fl text d b Hjl Hcmd.
  unfold on_message, try_except, try_except_json, bind, lift, ret, modify.
  simpl. rewrite Hjl.
  destruct d as [| flag | q | s | items | fields]; try reflexivity.
  simpl in *. destruct (assoc "command" fields) as [c |]; [ | reflexivity ].
  destruct (is_str "update" c) eqn:E; [ | reflexivity ].
  exfalso. apply Hcmd. destruct c; try discriminate.
  simpl in E. apply String.eqb_eq in E. subst. reflexivity.
Qed.

Lemma on_message_caches_any_json_witness :
  on_message (fixed_world ok_response ok_response false)
             (fun _ => Some (JNum 5)) no_float request_topic (Some "5")
             bridge_via_a
  = (Ret tt, set_last_request_params (Some (JNum 5)) bridge_via_a).
Proof.
  apply (on_message_caches_any_json
           (fixed_world ok_response ok_response false)
           (fun _ => Some (JNum 5)) no_float "5" (JNum 5) bridge_via_a);
    [ reflexivity | discriminate ].
Defined.

Lemma is_space_lower c : is_space c = true -> lower_char c = c.
Proof.
  destruct c as [[|] [|] [|] [|] [|] [|] [|] [|]];
    vm_compute; intros H; first [ reflexivity | discriminate H ].
Qed.

Lemma lower_not_space c x :
  lower_char c = x -> is_space x = false -> is_space c = false.
Proof.
  intros Hl Hx. destruct (is_space c) eqn:E; [ | reflexivity ].
  rewrite (is_space_lower c E) in Hl. congruence.
Qed.

Lemma lstrip_spaces ws t : all_space ws = true -> lstrip (ws ++ t) = lstrip t.
Proof.
  induction ws as [| c ws IH]; simpl; intros H; [ reflexivity | ].
  apply andb_prop in H as [Hc Hws]. rewrite Hc. apply IH. exact Hws.
Qed.

Lemma rstrip_all_space ws : all_space ws = true -> rstrip ws = EmptyString.
Proof.
  induction ws as [| c ws IH]; simpl; intros H; [ reflexivity | ].
  apply andb_prop in H as [Hc Hws]. rewrite (IH Hws), Hc. reflexivity.
Qed.

Lemma rstrip_spaces t ws : all_space ws = true -> rstrip (t ++ ws) = rstrip t.
Proof.
  intros H. induction t as [| c t IH]; simpl.
  - apply rstrip_all_space. exact H.
  - rewrite IH. reflexivity.
Qed.

Lemma update_text_is_stripped s :
  py_lower s = "update" -> lstrip s = s /\ rstrip s = s.
Proof.
  destruct s as [| c1 [| c2 [| c3 [| c4 [| c5 [| c6 [| c7 s]]]]]]];
    simpl; try discriminate.
  intros H. injection H as H1 _ _ _ _ H6.
  rewrite (lower_not_space c1 _ H1 eq_refl).
  rewrite (lower_not_space c6 _ H6 eq_refl).
  split; reflexivity.
Qed.

Lemma strip_padded ws1 s ws2 :
  all_space ws1 = true -> all_space ws2 = true ->
  py_lower s = "update" ->
  py_strip (ws1 ++ s ++ ws2) = s.
Proof.
  intros H1 H2 Hs. destruct (update_text_is_stripped s Hs) as [Hl Hr].
  unfold py_strip. rewrite (lstrip_spaces ws1 _ H1).
  assert (Hstart : lstrip (s ++ ws2) = (s ++ ws2)%string).
  { destruct s as [| c s']; [ discriminate | ].
    simpl in Hl |- *. destruct (is_space c); [ | reflexivity ].
    exfalso. clear -Hl.
    assert (String.length (lstrip s') <= String.length s')%nat as Hlen.
    { clear. induction s' as [| d s' IH]; simpl; [ lia | ].
      destruct (is_space d); simpl; lia. }
    rewrite Hl in Hlen. simpl in Hlen. lia. }
  rewrite Hstart, (rstrip_spaces s ws2 H2). exact Hr.
Qed.

(** X6: the plain-text trigger ignores case and surrounding whitespace:
    any spelling of [update] in upper or lower case, between any runs of
    whitespace, starts the cycle on the bridge as it is, provided
    [json.loads] rejects the text. *)
Theorem plain_trigger_any_spelling :
  forall (w : World) (json_loads : string -> option json)
         (float_of_str : string -> option float64)
         (ws1 s ws2 : string) (b : Bridge),
    all_space ws1 = true -> all_space ws2 = true ->
    py_lower s = "update" ->
    json_loads (ws1 ++ s ++ ws2)%string = None ->
    on_message w json_loads float_of_str request_topic
               (Some (ws1 ++ s ++ ws2)%string) b
    = (Ret tt, snd (fetch_and_publish_data w float_of_str b)).
Proof.
  intros w jl fl ws1 s ws2 b H1 H2 Hs Hjl.
  apply on_message_plain; [ exact Hjl | ].
  rewrite (strip_padded ws1 s ws2 H1 H2 Hs). exact Hs.
Qed.

Lemma plain_trigger_any_spelling_witness :
  on_message (fixed_world ok_response ok_response false) loads_update_only
             no_float request_topic
             (Some (String (ascii_of_nat 9) " " ++ "UpDaTe"
                    ++ String (ascii_of_nat 10) EmptyString)%string)
             bridge_via_a
  = (Ret tt,
     snd (fetch_and_publish_data (fixed_world ok_response ok_response false)
                                 no_float bridge_via_a)).
Proof.
  apply (plain_trigger_any_spelling
           (fixed_world ok_response ok_response false) loads_update_only
           no_float (String (ascii_of_nat 9) " ") "UpDaTe"
           (String (ascii_of_nat 10) EmptyString) bridge_via_a);
    reflexivity.
Defined.

(** ** The failure counts stay within the blacklist threshold *)

Lemma counts_bounded_same b b' :
  proxy_failures b' = proxy_failures b -> counts_bounded b -> counts_bounded b'.
Proof. intros H Hb q. unfold failure_count. rewrite H. apply Hb. Qed.

Lemma pool_bounded_same b b' :
  proxy_failures b' = proxy_failures b ->
  current_proxy b' = current_proxy b ->
  keeps_bounded b b'.
Proof.
  intros Hf Hc [Hb Hcur]. split.
  - eapply counts_bounded_same; eassumption.
  - intros p Hp. rewrite Hc in Hp. unfold failure_count. rewrite Hf.
    apply Hcur. exact Hp.
Qed.

Lemma counts_bounded_with_failure p b :
  counts_bounded b -> (failure_count p b < 3)%nat ->
  counts_bounded (with_failure p b).
Proof.
  intros Hb Hlt q. unfold with_failure.
  destruct (decide (p = q)) as [<- | Hne].
  - rewrite failure_count_record_eq. lia.
  - rewrite failure_count_record_ne by exact Hne. apply Hb.
Qed.

Lemma test_proxy_bounded w p b :
  counts_bounded b ->
  counts_bounded (snd (test_proxy w p b)) /\
  (fst (test_proxy w p b) = Ret true ->
   (failure_count p (snd (test_proxy w p b)) < 3)%nat).
Proof.
  intros Hb. destruct (Nat.lt_ge_cases (failure_count p b) 3) as [Hlt | Hge].
  - rewrite (test_proxy_probing w p b Hlt).
    unfold try_except, bind, probe_request, modify, ret.
    destruct (probe w (tick b) p) as [| status body]; simpl.
    + split; [ | discriminate ].
      apply (counts_bounded_with_failure p (advance b)).
      * eapply counts_bounded_same; [ | exact Hb ]. reflexivity.
      * exact Hlt.
    + split; [ | intros _; exact Hlt ].
      eapply counts_bounded_same; [ | exact Hb ]. reflexivity.
  - rewrite (test_proxy_blacklisted w p b Hge). simpl.
    split; [ exact Hb | discriminate ].
Qed.

Lemma first_working_bounded w l :
  forall b,
    counts_bounded b ->
    counts_bounded (snd (first_working w l b)) /\
    (forall p, fst (first_working w l b) = Ret (Some p) ->
       (failure_count p (snd (first_working w l b)) < 3)%nat).
Proof.
  induction l as [| q l IH]; intros b Hb; simpl.
  - split; [ exact Hb | discriminate ].
  - unfold bind. destruct (test_proxy_bounded w q b Hb) as [Hb1 Hq].
    destruct (test_proxy w q b) as [[[|] | e] b1]; simpl in *.
    + split; [ exact Hb1 | ]. intros p Hp. injection Hp as <-.
      apply Hq. reflexivity.
    + apply IH. exact Hb1.
    + split; [ exact Hb1 | discriminate ].
Qed.

Lemma find_working_proxy_bounded w b :
  counts_bounded b ->
  counts_bounded (snd (find_working_proxy w b)) /\
  (forall p, fst (find_working_proxy w b) = Ret (Some p) ->
     (failure_count p (snd (find_working_proxy w b)) < 3)%nat).
Proof.
  intros Hb. unfold find_working_proxy, bind, get, modify.
  destruct (proxy_list b) as [| q l]; simpl.
  - split; [ exact Hb | discriminate ].
  - apply first_working_bounded.
    eapply counts_bounded_same; [ | exact Hb ]. reflexivity.
Qed.

Lemma switch_proxy_bounded w b :
  counts_bounded b -> pool_bounded (snd (switch_proxy w b)).
Proof.
  intros Hb. unfold switch_proxy, bind.
  destruct (find_working_proxy_bounded w b Hb) as [Hb1 Hfound].
  destruct (total_find_working_proxy w b) as [o Ho].
  destruct (find_working_proxy w b) as [r b1]; simpl in *. subst r.
  destruct (truthy_proxy o); unfold modify; simpl.
  - split; [ eapply counts_bounded_same; [ | exact Hb1 ]; reflexivity | ].
    simpl. intros p ->. apply (Hfound p). reflexivity.
  - split; [ eapply counts_bounded_same; [ | exact Hb1 ]; reflexivity | ].
    simpl. discriminate.
Qed.

Lemma keeps_bounded_refl b : keeps_bounded b b.
Proof. intros H. exact H. Qed.

Lemma keeps_bounded_trans b1 b2 b3 :
  keeps_bounded b1 b2 -> keeps_bounded b2 b3 -> keeps_bounded b1 b3.
Proof. unfold keeps_bounded. auto. Qed.

Lemma keeps_bounded_switch_proxy w : respects keeps_bounded (switch_proxy w).
Proof. intros b [Hb _]. apply switch_proxy_bounded. exact Hb. Qed.

Lemma keeps_bounded_on_error w : respects keeps_bounded (on_error w).
Proof.
  intros b [Hb Hcur]. destruct (proxy_active b) eqn:Hact.
  - destruct (current_proxy b) as [p |] eqn:Hp.
    + rewrite (on_error_active w b p Hact Hp). simpl.
      apply switch_proxy_bounded.
      apply counts_bounded_with_failure;
        [ exact Hb | apply Hcur; reflexivity ].
    + unfold proxy_active in Hact. rewrite Hp in Hact. simpl in Hact.
      rewrite andb_false_r in Hact. discriminate.
  - rewrite (on_error_direct w b Hact). split; assumption.
Qed.

Ltac keeps_bounded_side :=
  first [ exact keeps_bounded_refl | exact keeps_bounded_trans
        | intros; apply pool_bounded_same; reflexivity ].

Lemma keeps_bounded_try_body w fl : respects keeps_bounded (try_body w fl).
Proof.
  apply respects_try_body;
    first [ exact (keeps_bounded_switch_proxy w) | keeps_bounded_side ].
Qed.

Lemma keeps_bounded_deliver w jl fl c b :
  keeps_bounded b (deliver w jl fl c b).
Proof.
  apply loop_deliver;
    first [ exact (keeps_bounded_try_body w fl)
          | exact (keeps_bounded_on_error w)
          | keeps_bounded_side ].
Qed.

Lemma counts_bounded_fresh file : counts_bounded (load_proxies_from_csv file blank).
Proof.
  intros q. unfold failure_count.
  assert (proxy_failures (load_proxies_from_csv file blank) = ∅) as ->
    by (destruct file; reflexivity).
  rewrite lookup_empty. simpl. lia.
Qed.

Lemma new_bridge_bounded w file : pool_bounded (new_bridge w file).
Proof.
  unfold new_bridge, init, bind, modify, get. simpl.
  pose proof (counts_bounded_fresh file) as Hb.
  assert (Hc : current_proxy (load_proxies_from_csv file blank) = None)
    by (destruct file; reflexivity).
  destruct (use_proxy (load_proxies_from_csv file blank)
            && match proxy_list (load_proxies_from_csv file blank) with
               | [] => false
               | _ => true
               end).
  - destruct (find_working_proxy_bounded w _ Hb) as [Hb1 Hfound].
    destruct (total_find_working_proxy w (load_proxies_from_csv file blank))
      as [o Ho].
    destruct (find_working_proxy w (load_proxies_from_csv file blank))
      as [r b1]. simpl in *. subst r.
    destruct (truthy_proxy o); simpl;
      (split; [ eapply counts_bounded_same; [ | exact Hb1 ]; reflexivity | ];
       simpl; intros p ->; apply (Hfound p); reflexivity).
  - simpl. split; [ exact Hb | ]. rewrite Hc. discriminate.
Qed.

Lemma pool_bounded_serves b b' :
  pool_bounded b -> serves any_world b b' -> pool_bounded b'.
Proof.
  intros Hb Hs. induction Hs as [| b1 w jl fl c _ IH _].
  - exact Hb.
  - exact (keeps_bounded_deliver w jl fl c b1 IH).
Qed.

(** X7: in a bridge built by [__init__] and driven by the transport's
    callbacks no failure count ever exceeds 3, and whenever a current
    proxy is set its count is below 3: the bridge does not keep a proxy
    that [test_proxy] would refuse. *)
Theorem served_pool_bounded :
  forall (w : World) (file : option (list (list string))) (b : Bridge),
    serves any_world (new_bridge w file) b ->
    (forall q, (failure_count q b <= 3)%nat) /\
    (forall p, current_proxy b = Some p -> (failure_count p b < 3)%nat).
Proof.
  intros w file b Hs.
  exact (pool_bounded_serves _ b (new_bridge_bounded w file) Hs).
Qed.

Lemma served_pool_bounded_witness :
  (forall q,
     (failure_count q
        (deliver (fixed_world HttpRaise HttpRaise false) loads_update_only
           no_float (OnConnect 0)
           (new_bridge (fixed_world ok_response ok_response false)
                       (Some [[proxy_a]]))) <= 3)%nat) /\
  current_proxy
    (deliver (fixed_world HttpRaise HttpRaise false) loads_update_only
       no_float (OnConnect 0)
       (new_bridge (fixed_world ok_response ok_response false)
                   (Some [[proxy_a]]))) = None.
Proof.
  split.
  - apply (served_pool_bounded (fixed_world ok_response ok_response false)
             (Some [[proxy_a]])).
    apply serves_deliver; [ apply serves_here | exact I ].
  - vm_compute. reflexivity.
Defined.

(** ** Which way the OpenSky request goes *)

Lemma keeps_sync_refl b : keeps_sync b b.
Proof. intros H. exact H. Qed.

Lemma keeps_sync_trans b1 b2 b3 :
  keeps_sync b1 b2 -> keeps_sync b2 b3 -> keeps_sync b1 b3.
Proof. unfold keeps_sync. auto. Qed.

Lemma keeps_sync_same b b' :
  current_proxy b' = current_proxy b -> proxies b' = proxies b ->
  keeps_sync b b'.
Proof.
  intros Hc Hp Hsync Ht. rewrite Hc in Ht. rewrite Hc, Hp. apply Hsync.
  exact Ht.
Qed.

Lemma switch_proxy_in_sync w b : proxies_in_sync (snd (switch_proxy w b)).
Proof.
  unfold switch_proxy, bind.
  destruct (total_find_working_proxy w b) as [o Ho].
  destruct (find_working_proxy w b) as [r b1]; simpl in Ho. subst r.
  destruct (truthy_proxy o); unfold modify; simpl; intros _; reflexivity.
Qed.

Ltac keeps_sync_side :=
  first [ exact keeps_sync_refl | exact keeps_sync_trans
        | intros; apply keeps_sync_same; reflexivity ].

Lemma keeps_sync_switch_proxy w : respects keeps_sync (switch_proxy w).
Proof. intros b _. apply switch_proxy_in_sync. Qed.

Lemma keeps_sync_deliver w jl fl c b : keeps_sync b (deliver w jl fl c b).
Proof.
  apply loop_deliver; try keeps_sync_side.
  - apply respects_try_body;
      first [ exact (keeps_sync_switch_proxy w) | keeps_sync_side ].
  - apply respects_on_error;
      first [ exact (keeps_sync_switch_proxy w) | keeps_sync_side ].
Qed.

Lemma new_bridge_in_sync w file : proxies_in_sync (new_bridge w file).
Proof.
  unfold new_bridge, init, bind, modify, get. simpl.
  assert (Hc : current_proxy (load_proxies_from_csv file blank) = None)
    by (destruct file; reflexivity).
  destruct (use_proxy (load_proxies_from_csv file blank)
            && match proxy_list (load_proxies_from_csv file blank) with
               | [] => false
               | _ => true
               end).
  - destruct (total_find_working_proxy w (load_proxies_from_csv file blank))
      as [o Ho].
    destruct (find_working_proxy w (load_proxies_from_csv file blank))
      as [r b1]. simpl in Ho. subst r.
    destruct (truthy_proxy o) eqn:T; simpl; intros Ht; simpl in Ht;
      [ reflexivity | congruence ].
  - simpl. intros Ht. rewrite Hc in Ht. discriminate.
Qed.

Lemma proxies_in_sync_serves b b' :
  proxies_in_sync b -> serves any_world b b' -> proxies_in_sync b'.
Proof.
  intros Hb Hs. induction Hs as [| b1 w jl fl c _ IH _].
  - exact Hb.
  - exact (keeps_sync_deliver w jl fl c b1 IH).
Qed.

Lemma fetch_tier2_route w b :
  proxies_in_sync b ->
  fetch_tier2 w None b
  = tier2_request w (if proxy_active b then current_proxy b else None) b.
Proof.
  intros Hsync. unfold fetch_tier2, bind, get. fold (proxy_active b).
  destruct (proxy_active b) eqn:Hact; [ | reflexivity ].
  unfold proxy_active in Hact. apply andb_prop in Hact as [_ Ht].
  rewrite (Hsync Ht). reflexivity.
Qed.

(** X8: in a bridge built by [__init__] and driven by the callbacks, the
    OpenSky request of an attempt goes through the current proxy when
    [use_proxy] is set and a current proxy exists, and directly
    otherwise; a proxy it goes through has fewer than 3 recorded
    failures. *)
Theorem served_requests_follow_current_proxy :
  forall (w w' : World) (file : option (list (list string))) (b : Bridge),
    serves any_world (new_bridge w file) b ->
    trace (snd (fetch_tier2 w' None b))
    = EvTier2 (if proxy_active b then current_proxy b else None) :: trace b /\
    (forall p, current_proxy b = Some p -> (failure_count p b < 3)%nat).
Proof.
  intros w w' file b Hs. split.
  - rewrite (fetch_tier2_route w' b
               (proxies_in_sync_serves _ b (new_bridge_in_sync w file) Hs)).
    unfold tier2_request.
    destruct (tier2 w' (tick b) _); reflexivity.
  - apply (pool_bounded_serves _ b (new_bridge_bounded w file) Hs).
Qed.

Lemma served_requests_follow_current_proxy_witness :
  trace (snd (fetch_tier2 (fixed_world ok_response ok_response false) None
                (deliver (fixed_world ok_response error_response false)
                   loads_update_only no_float
                   (OnMessage request_topic (Some plain_update))
                   (new_bridge (fixed_world ok_response ok_response false)
                               (Some [[proxy_a]; [proxy_b]])))))
  = EvTier2 (Some proxy_a)
    :: trace (deliver (fixed_world ok_response error_response false)
                loads_update_only no_float
                (OnMessage request_topic (Some plain_update))
                (new_bridge (fixed_world ok_response ok_response false)
                            (Some [[proxy_a]; [proxy_b]]))).
Proof.
  destruct (served_requests_follow_current_proxy
              (fixed_world ok_response ok_response false)
              (fixed_world ok_response ok_response false)
              (Some [[proxy_a]; [proxy_b]])
              (deliver (fixed_world ok_response error_response false)
                 loads_update_only no_float
                 (OnMessage request_topic (Some plain_update))
                 (new_bridge (fixed_world ok_response ok_response false)
                             (Some [[proxy_a]; [proxy_b]]))))
    as [Hroute _].
  - apply serves_deliver; [ apply serves_here | exact I ].
  - rewrite Hroute. reflexivity.
Defined.

(** ** Direct mode *)

Lemma stays_unproxied_refl b : stays_unproxied b b.
Proof. intros H. split; [ exact H | ]. exists []. split; reflexivity. Qed.

Lemma stays_unproxied_trans b1 b2 b3 :
  stays_unproxied b1 b2 -> stays_unproxied b2 b3 -> stays_unproxied b1 b3.
Proof.
  intros H12 H23 H1.
  destruct (H12 H1) as (H2 & e1 & X1 & P1).
  destruct (H23 H2) as (H3 & e2 & X2 & P2).
  split; [ exact H3 | ]. exists (e2 ++ e1). unfold extends in *.
  split; [ rewrite X2, X1; apply List.app_assoc | ].
  rewrite List.existsb_app, P1, P2. reflexivity.
Qed.

Lemma stays_unproxied_quiet b b' :
  use_proxy b' = use_proxy b -> trace b' = trace b -> stays_unproxied b b'.
Proof.
  intros Hu Ht H. split; [ congruence | ]. exists [].
  split; [ exact Ht | reflexivity ].
Qed.

Lemma stays_unproxied_emit e b :
  is_proxied e = false -> stays_unproxied b (emit e b).
Proof.
  intros He H. split; [ exact H | ]. exists [e].
  split; [ reflexivity | simpl; rewrite He; reflexivity ].
Qed.

Ltac stays_unproxied_side :=
  first [ exact stays_unproxied_refl | exact stays_unproxied_trans
        | intros; apply stays_unproxied_quiet; reflexivity
        | intros; apply stays_unproxied_emit; reflexivity ].

Lemma stays_unproxied_direct b :
  stays_unproxied b (set_use_proxy false b).
Proof.
  intros _. split; [ reflexivity | ]. exists []. split; reflexivity.
Qed.

Lemma stays_unproxied_switch_proxy w :
  respects stays_unproxied (switch_proxy w).
Proof.
  apply respects_switch_proxy;
    first [ exact stays_unproxied_direct | stays_unproxied_side ].
Qed.

Lemma stays_unproxied_fetch_tier2 w r :
  respects stays_unproxied (fetch_tier2 w r).
Proof.
  intros b H. unfold fetch_tier2. destruct r as [x |].
  - apply (stays_unproxied_refl b H).
  - unfold bind, get. rewrite H. simpl. unfold tier2_request.
    destruct (tier2 w (tick b) None); simpl;
      (split; [ exact H | exists [EvTier2 None]; split; reflexivity ]).
Qed.

Lemma stays_unproxied_deliver w jl fl c b :
  stays_unproxied b (deliver w jl fl c b).
Proof.
  apply loop_deliver; try stays_unproxied_side.
  - apply built_try_body; try stays_unproxied_side.
    + intros rp. apply respects_fetch_tier1; stays_unproxied_side.
    + apply stays_unproxied_fetch_tier2.
    + intros payload. apply respects_publish; stays_unproxied_side.
    + apply stays_unproxied_switch_proxy.
  - apply respects_on_error;
      first [ exact (stays_unproxied_switch_proxy w)
            | stays_unproxied_side ].
Qed.

(** X9: once [use_proxy] is cleared the bridge is in direct mode for
    good: whatever callbacks follow, [use_proxy] stays cleared and no
    OpenSky request is sent through a proxy, even when a later rotation
    sets a current proxy. *)
Theorem direct_mode_is_permanent :
  forall (b b' : Bridge),
    use_proxy b = false ->
    serves any_world b b' ->
    use_proxy b' = false /\
    exists evs, extends evs b b' /\ existsb is_proxied evs = false.
Proof.
  intros b b' H Hs. induction Hs as [| b1 w jl fl c _ IH _].
  - apply (stays_unproxied_refl b H).
  - apply (stays_unproxied_trans b b1 _ (fun _ => IH)
             (stays_unproxied_deliver w jl fl c b1) H).
Qed.

Lemma direct_mode_is_permanent_witness :
  use_proxy
    (deliver (fixed_world ok_response error_response false)
       loads_update_only no_float
       (OnMessage request_topic (Some plain_update))
       (set_use_proxy false bridge_via_a)) = false /\
  current_proxy
    (deliver (fixed_world ok_response error_response false)
       loads_update_only no_float
       (OnMessage request_topic (Some plain_update))
       (set_use_proxy false bridge_via_a)) = Some proxy_a /\
  List.filter is_request
    (trace (deliver (fixed_world ok_response error_response false)
              loads_update_only no_float
              (OnMessage request_topic (Some plain_update))
              (set_use_proxy false bridge_via_a)))
  = [EvTier2 None; EvTier2 None; EvTier2 None].
Proof.
  destruct (direct_mode_is_permanent (set_use_proxy false bridge_via_a)
              (deliver (fixed_world ok_response error_response false)
                 loads_update_only no_float
                 (OnMessage request_topic (Some plain_update))
                 (set_use_proxy false bridge_via_a)) eq_refl) as [Hu _].
  - apply serves_deliver; [ apply serves_here | exact I ].
  - split; [ exact Hu | ]. split; vm_compute; reflexivity.
Defined.

(** ** A cached request that cannot be read *)

(** X10: when the cached request makes the preparation of the
    geo-scoped request raise (a cached number or [true], a list or text
    that merely contains both key names, a [radius_km] that [float]
    refuses: a text that is no number, a list, an integer beyond the
    range of floats), a cycle makes its 3 attempts without sending any
    request to either provider and without publishing, and the cached
    request is still there afterwards. *)
Theorem unreadable_request_starves_cycle :
  forall (w : World) (float_of_str : string -> option float64) (b : Bridge)
         (e : exn),
    fst (fetch_tier1 w float_of_str (last_request_params b) b) = Raise e ->
    exists evs b',
      fetch_and_publish_data w float_of_str b = (Ret (Some tt), b') /\
      extends evs b b' /\
      attempts evs = 3%nat /\
      publishes evs = 0%nat /\
      existsb is_request evs = false /\
      last_request_params b' = last_request_params b.
Proof. intros w fl b e. apply unreadable_cycle. Qed.

Lemma unreadable_request_starves_cycle_witness :
  (exists evs b',
     fetch_and_publish_data (fixed_world ok_response ok_response false)
       no_float (set_last_request_params (Some (JNum 5)) bridge_via_a)
     = (Ret (Some tt), b') /\
     extends evs (set_last_request_params (Some (JNum 5)) bridge_via_a) b' /\
     attempts evs = 3%nat /\
     publishes evs = 0%nat /\
     existsb is_request evs = false /\
     last_request_params b' = Some (JNum 5)) /\
  radius_km_of no_float overflowing_request = Raise OverflowError /\
  (exists evs b',
     fetch_and_publish_data (fixed_world ok_response ok_response false)
       no_float
       (set_last_request_params (Some overflowing_request) bridge_via_a)
     = (Ret (Some tt), b') /\
     extends evs
       (set_last_request_params (Some overflowing_request) bridge_via_a) b' /\
     attempts evs = 3%nat /\
     publishes evs = 0%nat /\
     existsb is_request evs = false /\
     last_request_params b' = Some overflowing_request).
Proof.
  split; [ | split ].
  - apply (unreadable_request_starves_cycle
             (fixed_world ok_response ok_response false) no_float
             (set_last_request_params (Some (JNum 5)) bridge_via_a)
             TypeError).
    reflexivity.
  - vm_compute. reflexivity.
  - apply (unreadable_request_starves_cycle
             (fixed_world ok_response ok_response false) no_float
             (set_last_request_params (Some overflowing_request) bridge_via_a)
             OverflowError).
    vm_compute. reflexivity.
Defined.

(** ** What a rotation finds *)

Lemma test_proxy_passed w p b b1 :
  test_proxy w p b = (Ret true, b1) ->
  (failure_count p b < 3)%nat /\ b1 = emit (EvProbe p true) (advance b).
Proof.
  destruct (Nat.lt_ge_cases (failure_count p b) 3) as [Hlt | Hge].
  - rewrite (test_proxy_probing w p b Hlt).
    unfold try_except, bind, probe_request, modify, ret.
    destruct (probe w (tick b) p) as [| status body]; simpl;
      [ discriminate | ].
    intros H. injection H as Hs <-. rewrite Hs. split; [ exact Hlt | reflexivity ].
  - rewrite (test_proxy_blacklisted w p b Hge). discriminate.
Qed.

Lemma first_working_found w l :
  forall b p b1,
    first_working w l b = (Ret (Some p), b1) ->
    In p l /\ (failure_count p b < 3)%nat /\
    exists rest, trace b1 = EvProbe p true :: rest.
Proof.
  induction l as [| q l IH]; intros b p b1; simpl; [ discriminate | ].
  unfold bind.
  pose proof (fail_mono_test_proxy w q b p) as Hmono.
  destruct (test_proxy w q b) as [[[|] | e] b2] eqn:E; simpl in Hmono.
  - intros H. injection H as -> <-.
    destruct (test_proxy_passed w p b b2 E) as [Hlt ->].
    split; [ left; reflexivity | ]. split; [ exact Hlt | ].
    eexists. reflexivity.
  - intros H. destruct (IH b2 p b1 H) as (Hin & Hlt & Hrest).
    split; [ right; exact Hin | ]. split; [ lia | exact Hrest ].
  - discriminate.
Qed.

Lemma find_working_proxy_found w b p :
  fair_shuffle w ->
  fst (find_working_proxy w b) = Ret (Some p) ->
  In p (proxy_list b) /\
  (failure_count p b < 3)%nat /\
  exists rest, trace (snd (find_working_proxy w b)) = EvProbe p true :: rest.
Proof.
  intros Hfair. unfold find_working_proxy, bind, get, modify.
  destruct (proxy_list b) as [| q l] eqn:El; simpl; [ discriminate | ].
  destruct (first_working w (shuffle w (tick b) (q :: l)) (advance b))
    as [r b1] eqn:E. simpl. intros ->.
  destruct (first_working_found w _ _ p b1 E) as (Hin & Hlt & Hrest).
  split; [ | split; [ exact Hlt | exact Hrest ] ].
  exact (Permutation_in p (Permutation_sym (Hfair (tick b) (q :: l))) Hin).
Qed.

(** X11: what [find_working_proxy] returns is an entry of the candidate
    list that had fewer than 3 recorded failures when the search began,
    and the last thing that happened is its probe being answered with
    status 200. *)
Theorem find_working_proxy_sound :
  forall (w : World) (b : Bridge) (p : string),
    fair_shuffle w ->
    fst (find_working_proxy w b) = Ret (Some p) ->
    In p (proxy_list b) /\
    (failure_count p b < 3)%nat /\
    exists rest, trace (snd (find_working_proxy w b)) = EvProbe p true :: rest.
Proof. exact find_working_proxy_found. Qed.


Lemma find_working_proxy_sound_witness :
  In proxy_a (proxy_list bridge_via_a) /\
  (failure_count proxy_a bridge_via_a < 3)%nat.
Proof.
  destruct (find_working_proxy_sound
              (fixed_world ok_response ok_response false)
              bridge_via_a proxy_a) as (Hin & Hlt & _).
  - intros n l. reflexivity.
  - reflexivity.
  - split; assumption.
Defined.

Lemma first_working_exhausted w b0 l :
  (forall n p body,
     In p l -> (failure_count p b0 < 3)%nat ->
     probe w n p <> HttpResponse 200 body) ->
  forall b, fail_mono b0 b -> fst (first_working w l b) = Ret None.
Proof.
  induction l as [| q l IH]; intros Hdown b Hmono; simpl; [ reflexivity | ].
  unfold bind.
  pose proof (fail_mono_test_proxy w q b) as Hstep.
  destruct (test_proxy w q b) as [[[|] | e] b1] eqn:E; simpl in Hstep.
  - exfalso. destruct (test_proxy_passed w q b b1 E) as [Hlt _].
    assert (Hlt0 : (failure_count q b0 < 3)%nat)
      by (specialize (Hmono q); lia).
    revert E. rewrite (test_proxy_probing w q b Hlt).
    unfold try_except, bind, probe_request, modify, ret.
    destruct (probe w (tick b) q) as [| status body] eqn:Ep; simpl;
      [ discriminate | ].
    intros H. injection H as Hs _. apply Z.eqb_eq in Hs. subst status.
    exact (Hdown (tick b) q body (or_introl eq_refl) Hlt0 Ep).
  - apply IH.
    + intros n p body Hin. apply Hdown. right. exact Hin.
    + eapply fail_mono_trans; eassumption.
  - destruct (total_test_proxy w q b) as [a Ha]. rewrite E in Ha.
    discriminate.
Qed.

(** X12: when no entry of the candidate list that is still below 3
    failures gets its probe answered with status 200, the search returns
    nothing and a rotation leaves the bridge in direct mode: [use_proxy]
    cleared, no current proxy, [proxies] empty.  (What the probes of the
    blacklisted entries would answer does not matter.) *)
Theorem rotation_without_working_proxy :
  forall (w : World) (b : Bridge),
    fair_shuffle w ->
    (forall n p body,
       In p (proxy_list b) -> (failure_count p b < 3)%nat ->
       probe w n p <> HttpResponse 200 body) ->
    fst (find_working_proxy w b) = Ret None /\
    use_proxy (snd (switch_proxy w b)) = false /\
    current_proxy (snd (switch_proxy w b)) = None /\
    proxies (snd (switch_proxy w b)) = None.
Proof.
  intros w b Hfair Hdown.
  assert (Hnone : fst (find_working_proxy w b) = Ret None).
  { unfold find_working_proxy, bind, get, modify.
    destruct (proxy_list b) as [| q l] eqn:El; simpl; [ reflexivity | ].
    apply (first_working_exhausted w b).
    - intros n p body Hin. apply Hdown. try rewrite El.
      exact (Permutation_in p
               (Permutation_sym (Hfair (tick b) (q :: l))) Hin).
    - apply fail_mono_same. reflexivity. }
  split; [ exact Hnone | ].
  unfold switch_proxy, bind.
  destruct (find_working_proxy w b) as [r b1]. simpl in Hnone. subst r.
  repeat split.
Qed.

Lemma rotation_without_working_proxy_witness :
  fst (find_working_proxy (fixed_world HttpRaise ok_response false)
         (set_proxy_list [proxy_a; proxy_b]
            (set_proxy_failures {[ proxy_b := 3%nat ]} bridge_via_a)))
  = Ret None /\
  use_proxy
    (snd (switch_proxy (fixed_world HttpRaise ok_response false)
            (set_proxy_list [proxy_a; proxy_b]
               (set_proxy_failures {[ proxy_b := 3%nat ]} bridge_via_a))))
  = false.
Proof.
  destruct (rotation_without_working_proxy
              (fixed_world HttpRaise ok_response false)
              (set_proxy_list [proxy_a; proxy_b]
                 (set_proxy_failures {[ proxy_b := 3%nat ]} bridge_via_a)))
    as (Hnone & Hdirect & _).
  - intros n l. reflexivity.
  - intros n p body _ _. discriminate.
  - split; assumption.
Defined.

(** ** How many probes a search costs *)

Lemma blacklisted_mono b b1 p :
  fail_mono b b1 ->
  blacklisted p (proxy_failures b) = true ->
  blacklisted p (proxy_failures b1) = true.
Proof.
  intros Hmono H. apply blacklisted_count. apply blacklisted_count in H.
  specialize (Hmono p). lia.
Qed.

Lemma probeable_mono b b1 l :
  fail_mono b b1 ->
  (List.length (probeable b1 l) <= List.length (probeable b l))%nat.
Proof.
  intros Hmono. induction l as [| q l IH]; simpl; [ lia | ].
  destruct (blacklisted q (proxy_failures b)) eqn:E; simpl.
  - rewrite (blacklisted_mono b b1 q Hmono E). simpl. exact IH.
  - destruct (blacklisted q (proxy_failures b1)); simpl; lia.
Qed.

Lemma test_proxy_ticks w p b :
  tick (snd (test_proxy w p b))
  = (tick b + if blacklisted p (proxy_failures b) then 0 else 1)%nat.
Proof.
  unfold test_proxy, bind, get.
  destruct (blacklisted p (proxy_failures b)); simpl; [ lia | ].
  unfold try_except, bind, probe_request, modify, ret.
  destruct (probe w (tick b) p); simpl; lia.
Qed.

Lemma first_working_ticks w l :
  forall b,
    (tick (snd (first_working w l b))
     <= tick b + List.length (probeable b l))%nat.
Proof.
  induction l as [| q l IH]; intros b; simpl; [ lia | ].
  unfold bind.
  pose proof (test_proxy_ticks w q b) as Ht.
  pose proof (fail_mono_test_proxy w q b) as Hmono.
  destruct (test_proxy w q b) as [[[|] | e] b1]; simpl in Ht, Hmono |- *.
  - destruct (blacklisted q (proxy_failures b)); simpl; lia.
  - specialize (IH b1). pose proof (probeable_mono b b1 l Hmono).
    destruct (blacklisted q (proxy_failures b)); simpl; lia.
  - destruct (blacklisted q (proxy_failures b)); simpl; lia.
Qed.

Lemma filter_length_permutation {A} (f : A -> bool) l l' :
  Permutation l l' ->
  List.length (List.filter f l) = List.length (List.filter f l').
Proof.
  induction 1 as [| x l l' _ IH | x y l | l l' l'' _ IH1 _ IH2]; simpl.
  - reflexivity.
  - destruct (f x); simpl; congruence.
  - destruct (f x), (f y); reflexivity.
  - congruence.
Qed.

(** X13: a search for a working proxy costs at most one probe for every
    entry of the candidate list whose failure count is below 3 (the
    interaction counter grows by the shuffle and by that many probes at
    most): blacklisted entries are never probed. *)
Theorem search_probe_budget :
  forall (w : World) (b : Bridge),
    fair_shuffle w ->
    (tick (snd (find_working_proxy w b))
     <= tick b + 1 + List.length (probeable b (proxy_list b)))%nat.
Proof.
  intros w b Hfair. unfold find_working_proxy, bind, get, modify.
  destruct (proxy_list b) as [| q l] eqn:El; [ simpl; lia | ].
  cbn [fst snd].
  pose proof (first_working_ticks w (shuffle w (tick b) (q :: l)) (advance b))
    as Ht.
  assert (Hp : List.length (probeable (advance b)
                              (shuffle w (tick b) (q :: l)))
               = List.length (probeable b (q :: l))).
  { symmetry.
    apply (filter_length_permutation
             (fun p => negb (blacklisted p (proxy_failures b)))).
    apply Hfair. }
  rewrite Hp in Ht. change (tick (advance b)) with (S (tick b)) in Ht. lia.
Qed.

Lemma search_probe_budget_witness :
  (tick (snd (find_working_proxy (fixed_world HttpRaise ok_response false)
                (set_proxy_list [proxy_a; proxy_b]
                   (set_proxy_failures {[ proxy_b := 3%nat ]} bridge_via_a))))
   <= 2)%nat.
Proof.
  eapply Nat.le_trans.
  - apply (search_probe_budget (fixed_world HttpRaise ok_response false)
             (set_proxy_list [proxy_a; proxy_b]
                (set_proxy_failures {[ proxy_b := 3%nat ]} bridge_via_a))).
    intros n l. reflexivity.
  - vm_compute. apply le_n.
Defined.

(** ** The candidate list and the current proxy *)

Lemma keeps_listed_refl b : keeps_listed b b.
Proof. split; [ reflexivity | auto ]. Qed.

Lemma keeps_listed_trans b1 b2 b3 :
  keeps_listed b1 b2 -> keeps_listed b2 b3 -> keeps_listed b1 b3.
Proof. intros [L1 C1] [L2 C2]. split; [ congruence | auto ]. Qed.

Lemma keeps_listed_same b b' :
  proxy_list b' = proxy_list b -> current_proxy b' = current_proxy b ->
  keeps_listed b b'.
Proof.
  intros Hl Hc. split; [ exact Hl | ].
  intros H p Hp. rewrite Hl. apply H. congruence.
Qed.

Lemma find_working_proxy_keeps_list w b :
  proxy_list (snd (find_working_proxy w b)) = proxy_list b.
Proof.
  apply (respects_find_working_proxy
           (fun b b' => proxy_list b' = proxy_list b));
    try (intros; reflexivity); intros; congruence.
Qed.

Lemma keeps_listed_switch_proxy w :
  fair_shuffle w -> respects keeps_listed (switch_proxy w).
Proof.
  intros Hfair b. unfold switch_proxy, bind.
  pose proof (find_working_proxy_keeps_list w b) as Hl.
  pose proof (find_working_proxy_found w b) as Hfound.
  destruct (total_find_working_proxy w b) as [o Ho].
  destruct (find_working_proxy w b) as [r b1]. simpl in Hl, Hfound, Ho.
  subst r. destruct (truthy_proxy o); unfold modify; simpl.
  - split; [ exact Hl | ]. intros _ p Hp. simpl in Hp |- *. subst o.
    rewrite Hl. apply (Hfound p Hfair eq_refl).
  - split; [ exact Hl | ]. intros _ p Hp. discriminate Hp.
Qed.

Ltac keeps_listed_side :=
  first [ exact keeps_listed_refl | exact keeps_listed_trans
        | intros; apply keeps_listed_same; reflexivity ].

Lemma keeps_listed_deliver w jl fl c b :
  fair_shuffle w -> keeps_listed b (deliver w jl fl c b).
Proof.
  intros Hfair. apply loop_deliver; try keeps_listed_side.
  - apply respects_try_body;
      first [ exact (keeps_listed_switch_proxy w Hfair) | keeps_listed_side ].
  - apply respects_on_error;
      first [ exact (keeps_listed_switch_proxy w Hfair) | keeps_listed_side ].
Qed.

Lemma new_bridge_listed w file :
  fair_shuffle w ->
  proxy_list (new_bridge w file) = proxy_list (load_proxies_from_csv file blank)
  /\ current_listed (new_bridge w file).
Proof.
  intros Hfair. unfold new_bridge, init, bind, modify, get. simpl.
  assert (Hc : current_proxy (load_proxies_from_csv file blank) = None)
    by (destruct file; reflexivity).
  destruct (use_proxy (load_proxies_from_csv file blank)
            && match proxy_list (load_proxies_from_csv file blank) with
               | [] => false
               | _ => true
               end).
  - pose proof (find_working_proxy_keeps_list w
                  (load_proxies_from_csv file blank)) as Hl.
    pose proof (find_working_proxy_found w
                  (load_proxies_from_csv file blank)) as Hfound.
    destruct (total_find_working_proxy w (load_proxies_from_csv file blank))
      as [o Ho].
    destruct (find_working_proxy w (load_proxies_from_csv file blank))
      as [r b1]. simpl in Hl, Hfound, Ho. subst r.
    destruct (truthy_proxy o); simpl;
      (split; [ exact Hl | ]; intros p Hp; simpl in Hp |- *; subst o;
       rewrite Hl; apply (Hfound p Hfair eq_refl)).
  - simpl. split; [ reflexivity | ]. intros p Hp. congruence.
Qed.

Lemma loaded_candidates_prefixed file p :
  In p (proxy_list (load_proxies_from_csv file blank)) ->
  String.prefix "socks4://" p = true.
Proof.
  destruct file as [rows |]; simpl; [ | contradiction ].
  rewrite load_rows_spec. simpl. rewrite List.in_map_iff.
  intros (row & Hhd & Hin). apply List.filter_In in Hin as [_ Hacc].
  destruct row as [| first rest]; [ discriminate | ].
  simpl in Hhd, Hacc. subst first. exact Hacc.
Qed.

Lemma keeps_listed_serves b b' :
  serves fair_shuffle b b' -> keeps_listed b b'.
Proof.
  intros Hs. induction Hs as [| b1 w jl fl c _ IH Hfair].
  - apply keeps_listed_refl.
  - eapply keeps_listed_trans;
      [ exact IH | apply keeps_listed_deliver; exact Hfair ].
Qed.

(** X14: the candidate list is what [__init__] loaded for as long as the
    bridge is served, and whenever a current proxy is set it is an entry
    of that list, hence an address that starts with [socks4://]. *)
Theorem candidates_fixed_and_current_listed :
  forall (w : World) (file : option (list (list string))) (b : Bridge),
    fair_shuffle w ->
    serves fair_shuffle (new_bridge w file) b ->
    proxy_list b = proxy_list (load_proxies_from_csv file blank) /\
    forall p, current_proxy b = Some p ->
              In p (proxy_list b) /\ String.prefix "socks4://" p = true.
Proof.
  intros w file b Hfair Hs.
  destruct (new_bridge_listed w file Hfair) as [Hl0 Hc0].
  destruct (keeps_listed_serves _ b Hs) as [Hl Hc].
  assert (Hlist : proxy_list b = proxy_list (load_proxies_from_csv file blank))
    by congruence.
  split; [ exact Hlist | ].
  intros p Hp. pose proof (Hc Hc0 p Hp) as Hin. split; [ exact Hin | ].
  apply (loaded_candidates_prefixed file). rewrite <- Hlist. exact Hin.
Qed.

Lemma candidates_fixed_and_current_listed_witness :
  proxy_list
    (deliver (fixed_world ok_response error_response false)
       loads_update_only no_float (OnConnect 0)
       (new_bridge (fixed_world ok_response ok_response false)
                   (Some [[proxy_a]; ["# comment"]; [proxy_b]])))
  = [proxy_a; proxy_b].
Proof.
  destruct (candidates_fixed_and_current_listed
              (fixed_world ok_response ok_response false)
              (Some [[proxy_a]; ["# comment"]; [proxy_b]])
              (deliver (fixed_world ok_response error_response false)
                 loads_update_only no_float (OnConnect 0)
                 (new_bridge (fixed_world ok_response ok_response false)
                             (Some [[proxy_a]; ["# comment"]; [proxy_b]]))))
    as [Hl _].
  - intros n l. reflexivity.
  - apply serves_deliver; [ apply serves_here | intros n l; reflexivity ].
  - rewrite Hl. reflexivity.
Defined.

(** ** A cycle that succeeds at once *)

(** X15: when the cached request has no centre, the OpenSky request is
    answered with status 200 and a body that normalises, and the publish
    goes through, the cycle is a single attempt: one request (by the
    current route), one publish of the normalised payload, no sleep, no
    rotation, and the fields of the bridge are as before. *)
Theorem cycle_succeeds_at_once :
  forall (w : World) (float_of_str : string -> option float64) (b : Bridge)
         (data payload : json),
    has_center (last_request_params b) = Ret false ->
    tier2 w (tick b) (route b) = HttpResponse 200 (Some data) ->
    normalize (now w (S (tick b))) data = Ret payload ->
    publish_raises w (S (tick b)) = false ->
    exists b',
      fetch_and_publish_data w float_of_str b = (Ret (Some tt), b') /\
      same_fields b b' /\
      trace b' = [EvPublish payload; EvTier2 (route b); EvAttempt 0] ++ trace b.
Proof.
  intros w fl b data payload Hc Ht Hn Hp.
  unfold fetch_and_publish_data. cbn [retry_loop max_retries Nat.ltb Nat.leb].
  unfold bind at 1. unfold modify at 1. unfold bind at 1.
  unfold attempt, try_except.
  rewrite (try_body_skips_tier1 w fl (emit (EvAttempt 0) b) Hc).
  unfold fallback_and_publish, bind, fetch_tier2, bind, get, tier2_request.
  change (use_proxy (emit (EvAttempt 0) b)
          && truthy_proxy (current_proxy (emit (EvAttempt 0) b)))
    with (proxy_active b).
  unfold route in *.
  destruct (proxy_active b); simpl; rewrite Ht; simpl; rewrite Hn;
    unfold publish; simpl; rewrite Hp; simpl;
    (eexists; split; [ reflexivity | split; [ repeat split | reflexivity ] ]).
Qed.

Lemma cycle_succeeds_at_once_witness :
  exists b',
    fetch_and_publish_data (fixed_world ok_response ok_response false)
                           no_float bridge_via_a = (Ret (Some tt), b') /\
    same_fields bridge_via_a b' /\
    trace b' = [EvPublish opensky_body; EvTier2 (Some proxy_a); EvAttempt 0].
Proof.
  apply (cycle_succeeds_at_once (fixed_world ok_response ok_response false)
           no_float bridge_via_a opensky_body opensky_body);
    reflexivity.
Defined.

(** ** The order of the two providers *)

Lemma tier1_not_ok w b lat lon dist :
  (forall body, tier1 w (tick b) lat lon dist <> HttpResponse 200 body) ->
  match tier1 w (tick b) lat lon dist with
  | HttpResponse status body =>
      if status =? 200 then Some (status, body) else None
  | HttpRaise => None
  end = None.
Proof.
  intros Hnot.
  destruct (tier1 w (tick b) lat lon dist) as [| status body];
    [ reflexivity | ].
  destruct (status =? 200) eqn:Es; [ | reflexivity ].
  apply Z.eqb_eq in Es. subst status. exfalso. exact (Hnot body eq_refl).
Qed.

Lemma requestless_after w fl b0 r1 b1 :
  try_body w fl b0 = fallback_and_publish w r1 b1 ->
  only not_request (snd (fetch_tier2 w r1 b1)) (snd (attempt w fl b0)).
Proof.
  apply tail_attempt.
  - apply only_refl.
  - apply only_trans.
  - intros x. apply only_answered; reflexivity.
  - apply only_on_error. reflexivity.
Qed.

(** X16: with a readable centre cached, an attempt sends the geo-scoped
    request first.  When that is answered with status 200 the attempt
    sends no other request, and publishes what was answered when the body
    decodes and normalises and the publish goes through; when it raises
    or is answered with another status, the OpenSky request follows at
    once, by the current route, and is the last request of the
    attempt. *)
Theorem opensky_only_after_airplanes_live :
  forall (w : World) (float_of_str : string -> option float64) (b : Bridge)
         (v lat lon : json) (rk : float64) (dist : Z),
    last_request_params b = Some v ->
    has_center (Some v) = Ret true ->
    py_get "center_lat" JNull v = Ret lat ->
    py_get "center_lon" JNull v = Ret lon ->
    radius_km_of float_of_str v = Ret rk ->
    radius_m rk = Ret dist ->
    (forall body,
       tier1 w (tick b) lat lon dist = HttpResponse 200 body ->
       (exists evs,
          trace (snd (attempt w float_of_str b))
          = evs ++ EvTier1 lat lon dist :: trace b /\
          forallb not_request evs = true) /\
       (forall data payload,
          body = Some data ->
          normalize (now w (S (tick b))) data = Ret payload ->
          publish_raises w (S (tick b)) = false ->
          attempt w float_of_str b
          = (Ret true,
             emit (EvPublish payload)
               (advance (emit (EvTier1 lat lon dist) (advance b)))))) /\
    ((forall body, tier1 w (tick b) lat lon dist <> HttpResponse 200 body) ->
     exists evs,
       trace (snd (attempt w float_of_str b))
       = evs ++ EvTier2 (route b) :: EvTier1 lat lon dist :: trace b /\
       forallb not_request evs = true).
Proof.
  intros w fl b v lat lon rk dist Hp Hc Hlat Hlon Hrk Hdist.
  pose proof (try_body_centred w fl b v lat lon rk dist
                Hp Hc Hlat Hlon Hrk Hdist) as Hbody.
  split.
  - intros body Hok. rewrite Hok in Hbody. simpl in Hbody. split.
    + destruct (requestless_after w fl b _ _ Hbody) as (evs & X & Hev).
      exists evs. split; [ exact X | exact Hev ].
    + intros data payload -> Hn Hpub.
      unfold attempt, try_except. rewrite Hbody.
      unfold fallback_and_publish, bind, fetch_tier2, ret, lift, get, publish.
      simpl. rewrite Hn. simpl. rewrite Hpub. reflexivity.
  - intros Hnot.
    assert (Hbody' : try_body w fl b
                     = fallback_and_publish w None
                         (emit (EvTier1 lat lon dist) (advance b))).
    { rewrite Hbody. f_equal. exact (tier1_not_ok w b lat lon dist Hnot). }
    destruct (requestless_after w fl b _ _ Hbody') as (evs & X & Hev).
    rewrite fetch_tier2_fallback in X.
    exists evs. split; [ exact X | exact Hev ].
Qed.

Lemma opensky_only_after_airplanes_live_witness :
  exists evs,
    trace (snd (attempt (fixed_world ok_response ok_response false)
                  no_float bridge_centred))
    = evs ++ [EvTier2 (Some proxy_a); EvTier1 (JNum 40) (JNum 75) 250000] /\
    forallb not_request evs = true.
Proof.
  destruct (opensky_only_after_airplanes_live
              (fixed_world ok_response ok_response false) no_float
              bridge_centred centred_request (JNum 40) (JNum 75)
              (f64_of_Q 250) 250000
              eq_refl eq_refl eq_refl eq_refl eq_refl eq_refl)
    as [_ Hfallback].
  apply Hfallback. discriminate.
Defined.

(** ** Bounds of the distance sent *)

Lemma in_range_fetch_tier1 w fl rp :
  respects (only in_range) (fetch_tier1 w fl rp).
Proof.
  intros b. unfold fetch_tier1, bind, lift.
  destruct (has_center rp) as [[|] | e0]; simpl; try apply only_refl.
  destruct (py_get "center_lat" JNull (default JNull rp)) as [lat | e1];
    simpl; try apply only_refl.
  destruct (py_get "center_lon" JNull (default JNull rp)) as [lon | e2];
    simpl; try apply only_refl.
  destruct (radius_km_of fl (default JNull rp)) as [rk | e3];
    simpl; try apply only_refl.
  destruct (radius_m_in_bounds rk) as (dist & -> & Hlo & Hhi). simpl.
  assert (only in_range b (emit (EvTier1 lat lon dist) (advance b))) as H.
  { exists [EvTier1 lat lon dist]. split; [ reflexivity | ].
    simpl. rewrite andb_true_r. apply andb_true_iff.
    split; apply Z.leb_le; assumption. }
  unfold try_except, bind, tier1_request, ret.
  destruct (tier1 w (tick b) lat lon dist) as [| status body]; simpl;
    [ exact H | ].
  destruct (status =? 200); exact H.
Qed.

Lemma in_range_serves b b' : serves any_world b b' -> only in_range b b'.
Proof.
  induction 1 as [| b1 w jl fl c _ IH _].
  - apply only_refl.
  - eapply only_trans; [ exact IH | ].
    apply only_deliver; try reflexivity. apply in_range_fetch_tier1.
Qed.

(** X18: whatever float the radius is (zero, negative, huge, an infinity
    or a NaN that [float] made of a string), the distance computed lies
    between 10000 and 400000 metres and [int] does not raise; so every
    geo-scoped request that a served bridge sends asks for a distance
    within those bounds. *)
Theorem tier1_distance_in_range :
  (forall rk : float64,
     exists dist, radius_m rk = Ret dist /\ 10000 <= dist <= 400000) /\
  (forall b b' : Bridge,
     serves any_world b b' ->
     exists evs,
       extends evs b b' /\
       forall lat lon dist,
         In (EvTier1 lat lon dist) evs -> 10000 <= dist <= 400000).
Proof.
  split; [ exact radius_m_in_bounds | ].
  intros b b' Hserves.
  destruct (in_range_serves b b' Hserves) as (evs & X & Hall).
  exists evs. split; [ exact X | ].
  intros lat lon dist Hin.
  rewrite List.forallb_forall in Hall. specialize (Hall _ Hin).
  simpl in Hall. apply andb_true_iff in Hall as [Hlo Hhi].
  apply Z.leb_le in Hlo. apply Z.leb_le in Hhi. lia.
Qed.

Lemma tier1_distance_in_range_witness :
  radius_m S754_nan = Ret 400000 /\
  radius_m (S754_infinity true) = Ret 10000 /\
  radius_m (f64_of_Q (-3)) = Ret 10000 /\
  exists evs,
    extends evs bridge_centred
      (deliver (fixed_world ok_response ok_response false)
         loads_update_only no_float
         (OnMessage request_topic (Some plain_update)) bridge_centred) /\
    forall lat lon dist,
      In (EvTier1 lat lon dist) evs -> 10000 <= dist <= 400000.
Proof.
  split; [ vm_compute; reflexivity | ].
  split; [ vm_compute; reflexivity | ].
  split; [ vm_compute; reflexivity | ].
  destruct tier1_distance_in_range as [_ Hserved].
  apply Hserved. apply serves_deliver; [ apply serves_here | exact I ].
Defined.

(** ** Normalising what was normalised *)

(** X19: the published payload is in its final form: normalising a
    payload that [normalize] returned gives that payload back, whatever
    the clock says. *)
Theorem normalize_idempotent :
  forall (time time' : Z) (data payload : json),
    normalize time data = Ret payload ->
    normalize time' payload = Ret payload.
Proof.
  intros time time' data payload H.
  destruct data as [| flag | q | s | items | fields].
  1-5: match type of H with
       | normalize _ ?d = _ =>
           destruct (normalize_needs_dict_aux time d eq_refl) as [e He]
       end; congruence.
  destruct (assoc "ac" fields) as [ac |] eqn:Eac.
  - destruct ac as [| flag | q | s | acs | sub].
    5:{ destruct (forallb is_object acs) eqn:Hall.
        - destruct (rmap_normalize_aircraft acs Hall) as (states & E & _).
          unfold normalize in H. simpl in H. rewrite Eac in H. simpl in H.
          rewrite E in H. simpl in H. injection H as <-. reflexivity.
        - unfold normalize in H. simpl in H. rewrite Eac in H. simpl in H.
          rewrite (rmap_normalize_aircraft_fails acs Hall) in H.
          discriminate. }
    all: assert (Hsame : payload = JObj fields)
           by (unfold normalize in H; simpl in H; rewrite Eac in H;
               simpl in H;
               destruct (assoc "states" fields) as [[] |];
               simpl in H; congruence);
         subst payload;
         unfold normalize in H |- *; simpl in H |- *;
         rewrite Eac in H |- *; exact H.
  - assert (Hsame : payload = JObj fields)
      by (unfold normalize in H; simpl in H; rewrite Eac in H; simpl in H;
          destruct (assoc "states" fields) as [[] |];
          simpl in H; congruence).
    subst payload. unfold normalize in H |- *. simpl in H |- *.
    rewrite Eac in H |- *. exact H.
Qed.

Lemma normalize_idempotent_witness :
  normalize 9 (JObj [("time", JNum 7); ("states", JList [])])
  = Ret (JObj [("time", JNum 7); ("states", JList [])]).
Proof.
  apply (normalize_idempotent 7 9 (JObj [("ac", JList [])])). reflexivity.
Defined.

(** ** Failure counts are never reset *)

(** X20: no call on the bridge ever lowers a recorded failure count:
    nothing resets a counter, neither a successful probe nor a
    successful fetch. *)
Theorem failure_counts_never_decrease :
  forall (b b' : Bridge) (p : string),
    reaches b b' -> (failure_count p b <= failure_count p b')%nat.
Proof. intros b b' p Hreach. exact (fail_mono_reaches b b' Hreach p). Qed.

Lemma failure_counts_never_decrease_witness :
  (failure_count proxy_a (with_failure proxy_a bridge_via_a)
   <= failure_count proxy_a
        (exec (fixed_world ok_response ok_response false) loads_update_only
              no_float CallFetch (with_failure proxy_a bridge_via_a)))%nat.
Proof.
  apply (failure_counts_never_decrease (with_failure proxy_a bridge_via_a)).
  apply reaches_call. apply reaches_here.
Defined.
